(** * Process spawning and BSM value-change tracing of the SystemC kernel

    A shallow embedding of [sc_spawn.h] (the spawn/handle factory) and of
    [sc_bsm_trace.h] with its implementation (the BSM trace file and its
    per-type trace objects), followed by the properties established about
    them.

    Conventions of the embedding:
    - C++ integers are [Z] values; every conversion and wrap-around the
      source performs is written out ([unsigned_to_int], [int_to_char], ...);
    - a C string is the list of its characters before the terminating NUL,
      and a [const char*] into it is an offset;
    - a [FILE*] is [option FILE], [None] being the null pointer, and a
      [FILE] is the text written so far;
    - a member function that updates its object returns the updated object;
      a trace object holds, next to its own members, the current value of
      the object it refers to (the C++ member is a reference);
    - a call that has undefined behaviour or aborts yields [None];
    - what the sources at hand only use (the simulation context, the
      members inherited from [sc_trace_file_base]) is an interface or a
      parameter, and what is modelled from the specification instead says
      so in its comment. *)

From Stdlib Require Import ZArith Lia List String Ascii Bool DecimalString.
From stdpp Require Import base list gmap strings.

Local Open Scope Z_scope.

(* ===================================================================== *)
(** * Part I: the model                                                   *)
(* ===================================================================== *)

(** ** C strings *)

Definition NUL : ascii := "000"%char.

(** Dereferencing an offset [p] into a C string: the character stored
    there, the terminator at offset [strlen]. *)
Definition deref (buf : list ascii) (p : nat) : ascii :=
  default NUL (buf !! p).

Definition strlen (buf : list ascii) : nat := length buf.

(** The string a [const char*] at offset [p] of [buf] denotes. *)
Definition c_str_at (buf : list ascii) (p : nat) : list ascii := drop p buf.

(** ** [bsm_trace::strip_leading_bits] *)

Module bsm_trace_strip.

(** The loop that advances [position] while the character under it
    equals [first_char]. *)
Fixpoint skip_first_char (fuel : nat) (buf : list ascii) (first_char : ascii)
         (position : nat) : nat :=
  match fuel with
  | O => position
  | S fuel' =>
      if Ascii.eqb (deref buf position) first_char
      then skip_first_char fuel' buf first_char (S position)
      else position
  end.

(** The offset of the returned pointer inside [originalbuf]. *)
Definition strip_leading_bits_pos (originalbuf : list ascii) : nat :=
  let position := O in
  if (strlen originalbuf <? 2)%nat
     || (negb (Ascii.eqb (deref originalbuf 0) "z")
         && negb (Ascii.eqb (deref originalbuf 0) "x")
         && negb (Ascii.eqb (deref originalbuf 0) "0"))
  then position
  else
    let first_char := deref originalbuf position in
    let position :=
      skip_first_char (S (strlen originalbuf)) originalbuf first_char position in
    if Ascii.eqb first_char "0" && Ascii.eqb (deref originalbuf position) "1"
    then position
    else (position - 1)%nat.

Definition strip_leading_bits (originalbuf : list ascii) : list ascii :=
  c_str_at originalbuf (strip_leading_bits_pos originalbuf).

End bsm_trace_strip.
Export bsm_trace_strip.

(** ** Files *)

(** The text written to a stream so far. *)
Definition FILE : Type := string.

Definition fputs (s : string) (f : FILE) : FILE := f +:+ s.

Definition fputc (c : ascii) (f : FILE) : FILE := f +:+ String c EmptyString.

(** ** Calls on a trace object

    Ghost instrumentation: every call of the virtual members [changed] and
    [write] on a trace object is recorded, also when one of them is called
    from inside the other. *)
Inductive call : Type :=
| Changed (result : bool)      (* changed() was evaluated and returned [result] *)
| Wrote (emitted : bool).      (* write() ran; [emitted]: it put text on the stream *)

(** ** C++ comparison operators of a traced type *)

Class CppCompare (T : Type) : Type := {
  op_ne : T -> T -> bool;      (* operator!= *)
  op_gt : T -> T -> bool;      (* operator>  *)
  op_lt : T -> T -> bool       (* operator<  *)
}.

(** [bool]: the operands are promoted to [int], [false] to 0 and [true] to 1. *)
#[export] Instance bool_CppCompare : CppCompare bool := {
  op_ne a b := negb (Bool.eqb a b);
  op_gt a b := a && negb b;
  op_lt a b := negb a && b
}.

(** The built-in integer types. *)
#[export] Instance Z_CppCompare : CppCompare Z := {
  op_ne a b := negb (a =? b);
  op_gt a b := b <? a;
  op_lt a b := a <? b
}.

(** [std::string]: lexicographic comparison of the characters. *)
#[export] Instance string_CppCompare : CppCompare string := {
  op_ne a b := negb (String.eqb a b);
  op_gt a b := match String.compare a b with Gt => true | _ => false end;
  op_lt a b := match String.compare a b with Lt => true | _ => false end
}.

(** ** [bsm_trace_file]: enumerations *)

Module bsm_type.
Definition BT_VCD : Z := 0.
Definition BT_SIMPLE : Z := 1.
End bsm_type.

Module bsm_enum.
Definition BSM_WIRE : Z := 0.
Definition BSM_REAL : Z := 1.
Definition BSM_EVENT : Z := 2.
Definition BSM_TIME : Z := 3.
Definition BSM_LAST : Z := 4.
End bsm_enum.

Definition bsm_types (i : Z) : string :=
  if i =? bsm_enum.BSM_WIRE then "wire"
  else if i =? bsm_enum.BSM_REAL then "real"
  else if i =? bsm_enum.BSM_EVENT then "event"
  else "time".

(** ** Class [bsm_trace], the base of every trace object *)

Module bsm_trace.

Definition BSM_TRACE_ORIG : Z := 0.
Definition BSM_TRACE_VAL : Z := 1.

Definition BSM_TRIGGER_VAL_POS : Z := 0.
Definition BSM_TRIGGER_VAL_NEG : Z := 1.
Definition BSM_TRIGGER_VAL_BOTH : Z := 2.
Definition BSM_TRIGGER_VAL_NONE : Z := 3.

Record t : Type := mk {
  name : string;
  bsm_name : string;
  bsm_var_typ_name : string;
  bit_width : Z;
  bsm_trace_type : Z;          (* 0 original, 1 valid signal *)
  bsm_trigger_type : Z;        (* 0 pos edge, 1 neg edge, 2 both edge, 3 none *)
  bsm_trace_print_type : Z     (* 0 VCD, 1 simple *)
}.

Definition ctor (name_ bsm_name_ : string) (print_type_ trigger_type_ : Z) : t :=
  {| name := name_;
     bsm_name := bsm_name_;
     bsm_var_typ_name := bsm_types bsm_enum.BSM_WIRE;
     bit_width := 0;
     bsm_trace_type := BSM_TRACE_ORIG;
     bsm_trigger_type := trigger_type_;
     bsm_trace_print_type := print_type_ |}.

Definition set_bit_width (w : Z) (b : t) : t :=
  {| name := name b; bsm_name := bsm_name b;
     bsm_var_typ_name := bsm_var_typ_name b; bit_width := w;
     bsm_trace_type := bsm_trace_type b;
     bsm_trigger_type := bsm_trigger_type b;
     bsm_trace_print_type := bsm_trace_print_type b |}.

Definition set_var_typ_name (n : string) (b : t) : t :=
  {| name := name b; bsm_name := bsm_name b;
     bsm_var_typ_name := n; bit_width := bit_width b;
     bsm_trace_type := bsm_trace_type b;
     bsm_trigger_type := bsm_trigger_type b;
     bsm_trace_print_type := bsm_trace_print_type b |}.

Definition set_trace_type (nType : Z) (b : t) : t :=
  {| name := name b; bsm_name := bsm_name b;
     bsm_var_typ_name := bsm_var_typ_name b; bit_width := bit_width b;
     bsm_trace_type := nType;
     bsm_trigger_type := bsm_trigger_type b;
     bsm_trace_print_type := bsm_trace_print_type b |}.

Definition get_trace_type (b : t) : Z := bsm_trace_type b.

Definition set_trigger_type (nType : Z) (b : t) : t :=
  {| name := name b; bsm_name := bsm_name b;
     bsm_var_typ_name := bsm_var_typ_name b; bit_width := bit_width b;
     bsm_trace_type := bsm_trace_type b;
     bsm_trigger_type := nType;
     bsm_trace_print_type := bsm_trace_print_type b |}.

Definition get_trigger_type (b : t) : Z := bsm_trigger_type b.

Definition set_print_type (nType : Z) (b : t) : t :=
  {| name := name b; bsm_name := bsm_name b;
     bsm_var_typ_name := bsm_var_typ_name b; bit_width := bit_width b;
     bsm_trace_type := bsm_trace_type b;
     bsm_trigger_type := bsm_trigger_type b;
     bsm_trace_print_type := nType |}.

Definition is_print_vcd (b : t) : bool :=
  bsm_trace_print_type b =? bsm_type.BT_VCD.

(** [compose_data_line]: the text that ends up in [compdata], read back as
    a C string. *)
Definition compose_data_line (b : t) (rawdata : list ascii) : string :=
  if bit_width b =? 0 then EmptyString
  else if bit_width b =? 1 then
    (if Ascii.eqb (deref rawdata 0) NUL then EmptyString
     else String (deref rawdata 0) (bsm_name b))
  else
    let effective_begin := strip_leading_bits rawdata in
    "b" +:+ string_of_list_ascii effective_begin +:+ " " +:+ bsm_name b.

(** [compose_line]: the same on [std::string]. *)
Definition compose_line (b : t) (data : string) : string :=
  if bit_width b =? 0 then EmptyString
  else if bit_width b =? 1 then data +:+ bsm_name b
  else "b" +:+ string_of_list_ascii (strip_leading_bits (list_ascii_of_string data))
       +:+ " " +:+ bsm_name b.

End bsm_trace.

(** ** [TRACE_CHANGED_IMPLEMENT] and the classes built with it

    Every class whose [changed] is generated by [TRACE_CHANGED_IMPLEMENT]
    (the traces of [bool], [sc_bit], the [sc_dt] integers and fixed-point
    numbers, the built-in integers, [float], [double] and enumerations) has
    the members [object] (a reference to the traced variable) and
    [old_value], and a [write] of one shape: a block guarded by [if (f)]
    that formats [object] onto the stream, followed by
    [old_value = object].  The classes differ in the formatting block
    only, which is the member [format] here: the text it puts on the
    stream, and no text where the block has no defined behaviour (the
    integer classes fill arrays of a fixed size and shift by the bit
    width).  [bsm_interface_trace] and [bsm_port_trace] spell the same
    [changed] out by hand over the string returned by [bsm_string()] and
    have a [write] of the same shape. *)

Module value_trace.

Record t (T : Type) : Type := mk {
  base : bsm_trace.t;
  object : T;                  (* current value of the traced variable *)
  old_value : T;
  format : bsm_trace.t -> T -> option string
}.
Arguments mk {T}.
Arguments base {T}.
Arguments object {T}.
Arguments old_value {T}.
Arguments format {T}.

Definition set_old_value {T} (v : T) (tr : t T) : t T :=
  {| base := base tr; object := object tr; old_value := v; format := format tr |}.

(** The traced variable is assigned by the model under simulation. *)
Definition set_object {T} (v : T) (tr : t T) : t T :=
  {| base := base tr; object := v; old_value := old_value tr; format := format tr |}.

Definition set_base {T} (b : bsm_trace.t) (tr : t T) : t T :=
  {| base := b; object := object tr; old_value := old_value tr; format := format tr |}.

(** [write(NULL)]: the guarded block is skipped. *)
Definition write_null {T} (tr : t T) : option FILE * t T * list call :=
  (None, set_old_value (object tr) tr, [Wrote false]).

Definition write {T} (f : option FILE) (tr : t T)
  : option (option FILE * t T * list call) :=
  match f with
  | Some file =>
      text ← format tr (base tr) (object tr);
      Some (Some (fputs text file), set_old_value (object tr) tr, [Wrote true])
  | None => Some (write_null tr)
  end.

(** The body of [TRACE_CHANGED_IMPLEMENT]. *)
Definition changed {T} `{CppCompare T} (tr : t T) : bool * t T * list call :=
  if op_ne (object tr) (old_value tr) then
    if (bsm_trace.bsm_trigger_type (base tr) =? bsm_trace.BSM_TRIGGER_VAL_BOTH)
       || ((bsm_trace.bsm_trigger_type (base tr) =? bsm_trace.BSM_TRIGGER_VAL_POS)
           && op_gt (object tr) (old_value tr))
       || ((bsm_trace.bsm_trigger_type (base tr) =? bsm_trace.BSM_TRIGGER_VAL_NEG)
           && op_lt (object tr) (old_value tr))
    then (true, tr, [Changed true])
    else
      let '(_, tr', calls) := write_null tr in
      (false, tr', calls ++ [Changed false])
  else (false, tr, [Changed false]).

End value_trace.

(** *** [bsm_bool_trace] *)

Module bsm_bool_trace.

Definition format (b : bsm_trace.t) (object : bool) : string :=
  (if Bool.eqb object true then "1" else "0")
  +:+ (if bsm_trace.is_print_vcd b then bsm_trace.bsm_name b else EmptyString).

Definition ctor (object_ : bool) (name_ bsm_name_ : string)
           (print_type_ trigger_type_ : Z) : value_trace.t bool :=
  {| value_trace.base :=
       bsm_trace.set_bit_width 1 (bsm_trace.ctor name_ bsm_name_ print_type_ trigger_type_);
     value_trace.object := object_;
     value_trace.old_value := object_;
     value_trace.format := fun b object => Some (format b object) |}.

End bsm_bool_trace.

(** *** [bsm_uint64_trace] *)

Definition UINT64_MOD : Z := 2 ^ 64.

Module bsm_uint64_trace.

(** The loop that fills [rawdata] from the most significant bit down. *)
Fixpoint bits (n : nat) (object bit_mask : Z) : list ascii :=
  match n with
  | O => []
  | S n' =>
      (if Z.land object bit_mask =? 0 then "0"%char else "1"%char)
        :: bits n' object (Z.shiftr bit_mask 1)
  end.

Definition make_mask (bit_width : Z) : Z :=
  let mask := UINT64_MOD - 1 in
  if bit_width <? 64
  then Z.lxor (Z.shiftl mask bit_width mod UINT64_MOD) (UINT64_MOD - 1)
  else mask.

(** The block of [write] guarded by [if (f)].  [rawdata] and [compdata]
    are arrays of 1000 characters: the block has no defined behaviour
    when [rawdata] cannot hold [bit_width] characters and the closing NUL,
    or [compdata] the composed line and its NUL.  Neither has the shift
    that sets [bit_mask] when it is by a negative amount or by 64 or more,
    nor the shift by [bit_width] in the constructor when [bit_width] is
    negative, so that a trace of negative bit width has no defined
    behaviour from the start. *)
Definition format (mask : Z) (b : bsm_trace.t) (object : Z) : option string :=
  let bit_width := bsm_trace.bit_width b in
  if (bit_width <? 0) || (1000 <=? bit_width) then None
  else
    rawdata ←
      (if negb (Z.land object mask =? object)
       then Some (replicate (Z.to_nat bit_width) "x"%char)
       else if (1 <=? bit_width) && (bit_width <=? 64)
       then
         let bit_mask := Z.shiftl 1 (bit_width - 1) mod UINT64_MOD in
         Some (bits (Z.to_nat bit_width) object bit_mask)
       else None);
    if bsm_trace.is_print_vcd b
    then
      let compdata := bsm_trace.compose_data_line b rawdata in
      if (String.length compdata <? 1000)%nat then Some compdata else None
    else Some (string_of_list_ascii rawdata).

Definition ctor (object_ : Z) (name_ bsm_name_ : string) (width_ : Z)
           (print_type_ trigger_type_ : Z) : value_trace.t Z :=
  {| value_trace.base :=
       bsm_trace.set_bit_width width_
         (bsm_trace.ctor name_ bsm_name_ print_type_ trigger_type_);
     value_trace.object := object_;
     value_trace.old_value := object_;
     value_trace.format := format (make_mask width_) |}.

End bsm_uint64_trace.

(** *** [bsm_interface_trace] and [bsm_port_trace] *)

Module bsm_interface_trace.

Definition format (data_type : ascii) (b : bsm_trace.t) (value : string) : string :=
  if bsm_trace.is_print_vcd b then
    if Ascii.eqb data_type "b"
    then String data_type
           (string_of_list_ascii (strip_leading_bits (list_ascii_of_string value)))
         +:+ " " +:+ bsm_trace.bsm_name b
    else String data_type value +:+ " " +:+ bsm_trace.bsm_name b
  else value.

(** [object_] stands for what [object->bsm_string()] returns. *)
Definition ctor (object_ : string) (name_ bsm_name_ : string) (print_type_ : Z)
           (data_type_ : ascii) (trigger_type_ : Z) : value_trace.t string :=
  {| value_trace.base :=
       bsm_trace.set_bit_width 1 (bsm_trace.ctor name_ bsm_name_ print_type_ trigger_type_);
     value_trace.object := object_;
     value_trace.old_value := object_;
     value_trace.format := fun b value => Some (format data_type_ b value) |}.

End bsm_interface_trace.

(** ** [bsm_sc_time_trace]

    Derived from [bsm_uint64_trace]: the base class refers to the member
    [shadow_object], which is [value_trace.object] of [super] here, and
    [object] is the raw value of the traced [sc_time]. *)

Module bsm_sc_time_trace.

Record t : Type := mk {
  super : value_trace.t Z;
  object : Z
}.


Definition ctor (object_ : Z) (name_ bsm_name_ : string)
           (print_type_ trigger_type_ : Z) : t :=
  let s := bsm_uint64_trace.ctor object_ name_ bsm_name_ 64 print_type_ trigger_type_ in
  {| super :=
       value_trace.set_base
         (bsm_trace.set_var_typ_name (bsm_types bsm_enum.BSM_TIME) (value_trace.base s)) s;
     object := object_ |}.

(** The traced [sc_time] is assigned by the model under simulation. *)
Definition set_object (v : Z) (tr : t) : t :=
  {| super := super tr; object := v |}.

Definition changed (tr : t) : bool * t * list call :=
  let shadowed := value_trace.set_object (object tr) (super tr) in
  let '(r, s', calls) := value_trace.changed shadowed in
  (r, {| super := s'; object := object tr |}, calls).

(** Inherited from [bsm_uint64_trace]. *)
Definition write (f : option FILE) (tr : t) : option (option FILE * t * list call) :=
  '(f', s', calls) ← value_trace.write f (super tr);
  Some (f', {| super := s'; object := object tr |}, calls).

End bsm_sc_time_trace.

(** ** [bsm_T_trace<T>] for [sc_bv_base] and [sc_lv_base]

    A bit or logic vector is represented by the string [to_string()]
    returns for it. *)

Module bsm_T_trace.

Record t : Type := mk {
  base : bsm_trace.t;
  object : string;
  old_value : string
}.

(** The constructor also warns on [std::cout] that the edge triggers are
    not supported and asserts [type_ < BSM_LAST]; the console is not part
    of the model. *)
Definition ctor (object_ : string) (name_ bsm_name_ : string) (type_ : Z)
           (print_type_ trigger_type_ : Z) : t :=
  {| base :=
       bsm_trace.set_var_typ_name (bsm_types type_)
         (bsm_trace.ctor name_ bsm_name_ print_type_ trigger_type_);
     object := object_;
     old_value := object_ |}.

Definition set_object (v : string) (tr : t) : t :=
  {| base := base tr; object := v; old_value := old_value tr |}.

Definition write (f : option FILE) (tr : t) : option FILE * t * list call :=
  let f' :=
    match f with
    | Some file => Some (fputs (bsm_trace.compose_line (base tr) (object tr)) file)
    | None => None
    end in
  (f', {| base := base tr; object := object tr; old_value := object tr |},
   [Wrote (bool_decide (is_Some f))]).

Definition changed (tr : t) : bool * t * list call :=
  let r := negb (String.eqb (object tr) (old_value tr)) in
  (r, tr, [Changed r]).

Definition set_width (tr : t) : t :=
  {| base := bsm_trace.set_bit_width (Z.of_nat (String.length (object tr))) (base tr);
     object := object tr; old_value := old_value tr |}.

End bsm_T_trace.

(** ** [bsm_sc_event_trace] *)

Module bsm_sc_event_trace.

Record t : Type := mk {
  base : bsm_trace.t;
  trigger_stamp : Z;           (* current trigger stamp of the traced event *)
  old_trigger_stamp : Z
}.

Definition ctor (trigger_stamp_ : Z) (name_ bsm_name_ : string)
           (print_type_ trigger_type_ : Z) : t :=
  {| base :=
       bsm_trace.set_bit_width 1
         (bsm_trace.set_var_typ_name (bsm_types bsm_enum.BSM_EVENT)
            (bsm_trace.ctor name_ bsm_name_ print_type_ trigger_type_));
     trigger_stamp := trigger_stamp_;
     old_trigger_stamp := trigger_stamp_ |}.

(** The event fires: the kernel assigns its trigger stamp. *)
Definition set_trigger_stamp (s : Z) (tr : t) : t :=
  {| base := base tr; trigger_stamp := s; old_trigger_stamp := old_trigger_stamp tr |}.

Definition changed (tr : t) : bool * t * list call :=
  let r := negb (trigger_stamp tr =? old_trigger_stamp tr) in
  (r, tr, [Changed r]).

(** [fprintf] on a null stream has no defined behaviour. *)
Definition write (f : option FILE) (tr : t) : option (option FILE * t * list call) :=
  let '(c, tr, calls) := changed tr in
  if negb c then Some (f, tr, calls ++ [Wrote false])
  else
    match f with
    | None => None
    | Some file =>
        Some (Some (fputs ("1" +:+ bsm_trace.bsm_name (base tr)) file),
              {| base := base tr; trigger_stamp := trigger_stamp tr;
                 old_trigger_stamp := trigger_stamp tr |},
              calls ++ [Wrote true])
    end.

End bsm_sc_event_trace.

(** ** [bsm_sc_logic_trace] *)

Inductive sc_logic : Type := Log_0 | Log_1 | Log_Z | Log_X.

Definition sc_logic_eqb (a b : sc_logic) : bool :=
  match a, b with
  | Log_0, Log_0 | Log_1, Log_1 | Log_Z, Log_Z | Log_X, Log_X => true
  | _, _ => false
  end.

Definition sc_logic_to_char (a : sc_logic) : ascii :=
  match a with
  | Log_0 => "0" | Log_1 => "1" | Log_Z => "Z" | Log_X => "X"
  end%char.

Definition map_sc_logic_state_to_bsm_state (in_char : ascii) : ascii :=
  if Ascii.eqb in_char "U" || Ascii.eqb in_char "X"
     || Ascii.eqb in_char "W" || Ascii.eqb in_char "D" then "x"%char
  else if Ascii.eqb in_char "0" || Ascii.eqb in_char "L" then "0"%char
  else if Ascii.eqb in_char "1" || Ascii.eqb in_char "H" then "1"%char
  else if Ascii.eqb in_char "Z" then "z"%char
  else "?"%char.

Module bsm_sc_logic_trace.

Record t : Type := mk {
  base : bsm_trace.t;
  object : sc_logic;
  old_value : sc_logic
}.

Definition ctor (object_ : sc_logic) (name_ bsm_name_ : string)
           (print_type_ trigger_type_ : Z) : t :=
  {| base :=
       bsm_trace.set_bit_width 1 (bsm_trace.ctor name_ bsm_name_ print_type_ trigger_type_);
     object := object_;
     old_value := object_ |}.

Definition set_object (v : sc_logic) (tr : t) : t :=
  {| base := base tr; object := v; old_value := old_value tr |}.

Definition write (f : option FILE) (tr : t) : option FILE * t * list call :=
  let f' :=
    match f with
    | Some file =>
        let out_char := map_sc_logic_state_to_bsm_state (sc_logic_to_char (object tr)) in
        let file := fputc out_char file in
        Some (if bsm_trace.is_print_vcd (base tr)
              then fputs (bsm_trace.bsm_name (base tr)) file else file)
    | None => None
    end in
  (f', {| base := base tr; object := object tr; old_value := object tr |},
   [Wrote (bool_decide (is_Some f))]).

Definition changed (tr : t) : bool * t * list call :=
  if negb (sc_logic_eqb (object tr) (old_value tr)) then
    if (bsm_trace.bsm_trigger_type (base tr) =? bsm_trace.BSM_TRIGGER_VAL_BOTH)
       || ((bsm_trace.bsm_trigger_type (base tr) =? bsm_trace.BSM_TRIGGER_VAL_POS)
           && sc_logic_eqb (object tr) Log_1 && sc_logic_eqb (old_value tr) Log_0)
       || ((bsm_trace.bsm_trigger_type (base tr) =? bsm_trace.BSM_TRIGGER_VAL_NEG)
           && sc_logic_eqb (object tr) Log_0 && sc_logic_eqb (old_value tr) Log_1)
    then (true, tr, [Changed true])
    else
      let '(_, tr', calls) := write None tr in
      (false, tr', calls ++ [Changed false])
  else (false, tr, [Changed false]).

End bsm_sc_logic_trace.

(** ** The objects a trace file holds, and their virtual members *)

Inductive trace_object : Type :=
| Value_trace (T : Type) (C : CppCompare T) (tr : value_trace.t T)
| T_trace (tr : bsm_T_trace.t)
| Sc_event_trace (tr : bsm_sc_event_trace.t)
| Sc_logic_trace (tr : bsm_sc_logic_trace.t)
| Sc_time_trace (tr : bsm_sc_time_trace.t).

Module virtual.

Definition base (o : trace_object) : bsm_trace.t :=
  match o with
  | Value_trace _ _ tr => value_trace.base tr
  | T_trace tr => bsm_T_trace.base tr
  | Sc_event_trace tr => bsm_sc_event_trace.base tr
  | Sc_logic_trace tr => bsm_sc_logic_trace.base tr
  | Sc_time_trace tr => value_trace.base (bsm_sc_time_trace.super tr)
  end.

Definition get_trace_type (o : trace_object) : Z :=
  bsm_trace.get_trace_type (base o).

Definition changed (o : trace_object) : bool * trace_object * list call :=
  match o with
  | Value_trace T C tr =>
      let '(r, tr', calls) := value_trace.changed tr in (r, Value_trace T C tr', calls)
  | T_trace tr =>
      let '(r, tr', calls) := bsm_T_trace.changed tr in (r, T_trace tr', calls)
  | Sc_event_trace tr =>
      let '(r, tr', calls) := bsm_sc_event_trace.changed tr in (r, Sc_event_trace tr', calls)
  | Sc_logic_trace tr =>
      let '(r, tr', calls) := bsm_sc_logic_trace.changed tr in (r, Sc_logic_trace tr', calls)
  | Sc_time_trace tr =>
      let '(r, tr', calls) := bsm_sc_time_trace.changed tr in (r, Sc_time_trace tr', calls)
  end.

Definition write (f : option FILE) (o : trace_object)
  : option (option FILE * trace_object * list call) :=
  match o with
  | Value_trace T C tr =>
      '(f', tr', calls) ← value_trace.write f tr;
      Some (f', Value_trace T C tr', calls)
  | T_trace tr =>
      let '(f', tr', calls) := bsm_T_trace.write f tr in Some (f', T_trace tr', calls)
  | Sc_event_trace tr =>
      match bsm_sc_event_trace.write f tr with
      | Some (f', tr', calls) => Some (f', Sc_event_trace tr', calls)
      | None => None
      end
  | Sc_logic_trace tr =>
      let '(f', tr', calls) := bsm_sc_logic_trace.write f tr in Some (f', Sc_logic_trace tr', calls)
  | Sc_time_trace tr =>
      '(f', tr', calls) ← bsm_sc_time_trace.write f tr;
      Some (f', Sc_time_trace tr', calls)
  end.

End virtual.

(** ** Class [bsm_trace_file] *)

Definition UINT_MOD : Z := 2 ^ 32.

(** Conversion of an [unsigned] to [int] (two's complement). *)
Definition unsigned_to_int (u : Z) : Z :=
  if u <? 2 ^ 31 then u else u - UINT_MOD.

(** The cast [(char) x] of an [int] (8 bits, two's complement). *)
Definition int_to_char (x : Z) : Z :=
  let r := x mod 256 in if r <? 128 then r else r - 256.

(** The conversion [%c] of [printf]: the [int] argument is converted to
    [unsigned char] and that byte is written. *)
Definition printf_c (x : Z) : ascii := ascii_of_N (Z.to_N (x mod 256)).

(** [std::string(buf)]: the characters of [buf] before the first NUL. *)
Fixpoint std_string_of_buf (buf : list ascii) : string :=
  match buf with
  | [] => EmptyString
  | c :: buf' => if Ascii.eqb c NUL then EmptyString else String c (std_string_of_buf buf')
  end.

(** Decimal output of an unsigned number, and [setw(w)] with
    [setfill('0')] in front of it. *)
Definition decimal (n : Z) : string :=
  NilEmpty.string_of_uint (N.to_uint (Z.to_N n)).

Definition setw_fill0 (w : nat) (s : string) : string :=
  string_of_list_ascii (replicate (w - String.length s) "0"%char) +:+ s.

Definition newline : ascii := "010"%char.

(** The process-wide report handler and the function-local [static]
    of [cycle]. *)
Record tracing_globals : Type := mk_globals {
  warned : bool;
  reports : list string
}.

Definition report (id : string) (g : tracing_globals) : tracing_globals :=
  {| warned := warned g; reports := reports g ++ [id] |}.

Module bsm_trace_file.

Record t : Type := mk {
  fp : option FILE;                       (* member of sc_trace_file_base *)
  bsm_name_index : Z;
  previous_time_units_low : Z;
  previous_time_units_high : Z;
  traces : list trace_object;
  bsm_print_type : Z;
  bsm_trace_enable : bool
}.

(** What the members inherited from [sc_trace_file_base] and the kernel
    answer during one call; their bodies are not part of the translated
    sources, so they are parameters of the model. *)
Record inherited : Type := mk_inherited {
  delta_cycles : bool;
  initialize : t -> bool * t;
  has_low_units : bool;
  low_units_len : nat;
  timestamp_in_trace_units : Z * Z;       (* (high, low) *)
  sc_delta_count_at_current_time : Z
}.

Definition ctor (type : Z) : t :=
  {| fp := None;
     bsm_name_index := 0;
     previous_time_units_low := 0;
     previous_time_units_high := 0;
     traces := [];
     bsm_print_type := type;
     bsm_trace_enable := true |}.

Definition set_fp (f : option FILE) (tf : t) : t :=
  {| fp := f; bsm_name_index := bsm_name_index tf;
     previous_time_units_low := previous_time_units_low tf;
     previous_time_units_high := previous_time_units_high tf;
     traces := traces tf; bsm_print_type := bsm_print_type tf;
     bsm_trace_enable := bsm_trace_enable tf |}.

Definition set_traces (l : list trace_object) (tf : t) : t :=
  {| fp := fp tf; bsm_name_index := bsm_name_index tf;
     previous_time_units_low := previous_time_units_low tf;
     previous_time_units_high := previous_time_units_high tf;
     traces := l; bsm_print_type := bsm_print_type tf;
     bsm_trace_enable := bsm_trace_enable tf |}.

Definition set_previous_time_units (high low : Z) (tf : t) : t :=
  {| fp := fp tf; bsm_name_index := bsm_name_index tf;
     previous_time_units_low := low;
     previous_time_units_high := high;
     traces := traces tf; bsm_print_type := bsm_print_type tf;
     bsm_trace_enable := bsm_trace_enable tf |}.


(** *** [get_time_stamp]

    Returns the value of the function and the two reference arguments. *)
Definition get_time_stamp (env : inherited) (tf : t) : bool * (Z * Z) :=
  let '(now_units_high, now_units_low) := timestamp_in_trace_units env in
  (((previous_time_units_low tf <? now_units_low)
    && (now_units_high =? previous_time_units_high tf))
   || (previous_time_units_high tf <? now_units_high),
   (now_units_high, now_units_low)).

Definition print_time_stamp (env : inherited) (now_units_high now_units_low : Z)
           (tf : t) : option t :=
  let ss :=
    if has_low_units env
    then "#" +:+ decimal now_units_high
         +:+ setw_fill0 (low_units_len env) (decimal now_units_low)
    else "#" +:+ decimal now_units_high in
  file ← fp tf;
  Some (set_fp (Some (fputc newline (fputs ss file))) tf).

(** *** [obtain_name] *)
Definition obtain_name (tf : t) : string * t :=
  let first_type_used := 97 in                       (* 'a' *)
  let used_types_count := 122 - 97 + 1 in           (* 'z' - 'a' + 1 *)
  let result := unsigned_to_int (bsm_name_index tf) in
  let char6 := int_to_char (bsm_name_index tf mod used_types_count) in
  let result := Z.quot result used_types_count in
  let char5 := int_to_char (Z.rem result used_types_count) in
  let result := Z.quot result used_types_count in
  let char4 := int_to_char (Z.rem result used_types_count) in
  let result := unsigned_to_int (bsm_name_index tf / used_types_count) in
  let char3 := int_to_char (Z.rem result used_types_count) in
  let result := Z.quot result used_types_count in
  let char2 := int_to_char (Z.rem result used_types_count) in
  let buf :=
    [printf_c (char2 + first_type_used);
     printf_c (char3 + first_type_used);
     printf_c (char4 + first_type_used);
     printf_c (char5 + first_type_used);
     printf_c (char6 + first_type_used)] in
  (std_string_of_buf buf,
   {| fp := fp tf;
      bsm_name_index := (bsm_name_index tf + 1) mod UINT_MOD;
      previous_time_units_low := previous_time_units_low tf;
      previous_time_units_high := previous_time_units_high tf;
      traces := traces tf; bsm_print_type := bsm_print_type tf;
      bsm_trace_enable := bsm_trace_enable tf |}).

(** *** The [trace] overloads

    Each of them is [if (add_trace_check(name)) traces.push_back(new
    C(object, name, obtain_name(), ..., bsm_print_type))] for its class
    [C]; [make] builds the object from the BSM name and the print type. *)
Definition trace (add_trace_check : bool) (make : string -> Z -> trace_object)
           (tf : t) : t :=
  if add_trace_check then
    let '(bsm_name_, tf) := obtain_name tf in
    set_traces (traces tf ++ [make bsm_name_ (bsm_print_type tf)]) tf
  else tf.

(** *** [cycle] *)

Record sampling : Type := mk_sampling {
  file : t;
  time_printed : bool;
  calls : list (nat * call)     (* ghost: the calls made, with the index of the object *)
}.

Definition tag (i : nat) (cs : list call) : list (nat * call) := map (pair i) cs.

Definition update (i : nat) (o : trace_object) (cs : list call) (s : sampling) : sampling :=
  {| file := set_traces (<[i := o]> (traces (file s))) (file s);
     time_printed := time_printed s;
     calls := calls s ++ tag i cs |}.

Definition update_fp (f : option FILE) (s : sampling) : sampling :=
  {| file := set_fp f (file s); time_printed := time_printed s; calls := calls s |}.

Definition fputc_fp (c : ascii) (s : sampling) : option sampling :=
  f ← fp (file s);
  Some (update_fp (Some (fputc c f)) s).

(** The body of the [for] loop for index [i]; returns the state and the
    index the next iteration starts with. *)
Definition sample_one (env : inherited) (now_units_high now_units_low : Z)
           (i : nat) (tr : trace_object) (s : sampling) : option (sampling * nat) :=
  let '(c, tr, cs) := virtual.changed tr in
  let s := update i tr cs s in
  if c then
    if negb (bsm_trace_enable (file s)) then
      '(_, tr, cs) ← virtual.write None tr;
      Some (update i tr cs s, S i)
    else
      s ← (if negb (time_printed s) && (bsm_print_type (file s) =? bsm_type.BT_VCD)
           then
             tf ← print_time_stamp env now_units_high now_units_low (file s);
             Some {| file := tf; time_printed := true; calls := calls s |}
           else Some s);
      '(s, i) ←
        (if virtual.get_trace_type tr =? bsm_trace.BSM_TRACE_ORIG then
           '(f, tr, cs) ← virtual.write (fp (file s)) tr;
           Some (update_fp f (update i tr cs s), i)
         else
           '(_, tr, cs) ← virtual.write None tr;
           let s := update i tr cs s in
           let i := S i in
           data ← traces (file s) !! i;               (* assert(i < traces.size()) *)
           '(f, data, cs) ← virtual.write (fp (file s)) data;
           Some (update_fp f (update i data cs s), i));
      s ← fputc_fp newline s;
      Some (s, S i)
  else Some (s, S i).

(** The [for] loop, started at index [i]. *)
Fixpoint sample (fuel : nat) (env : inherited) (now_units_high now_units_low : Z)
         (i : nat) (s : sampling) : option sampling :=
  match fuel with
  | O => Some s
  | S fuel' =>
      match traces (file s) !! i with
      | None => Some s
      | Some tr =>
          '(s, i) ← sample_one env now_units_high now_units_low i tr s;
          sample fuel' env now_units_high now_units_low i s
      end
  end.

(** "Now do the actual printing": the loop over all traces and the
    closing newline. *)
Definition print_changes (env : inherited) (now_units_high now_units_low : Z)
           (tf : t) : option (t * list (nat * call)) :=
  s ← sample (length (traces tf)) env now_units_high now_units_low 0
        {| file := tf; time_printed := false; calls := [] |};
  s ← (if time_printed s then fputc_fp newline s else Some s);
  Some (file s, calls s).

(** How a call of [cycle] ends. *)
Inductive outcome : Type :=
| Skipped                                  (* one of the early returns was taken *)
| Sampled (cs : list (nat * call)).        (* the traces were sampled *)

Definition cycle (env : inherited) (this_is_a_delta_cycle : bool)
           (tf : t) (g : tracing_globals) : option (t * tracing_globals * outcome) :=
  if negb (delta_cycles env) && this_is_a_delta_cycle then Some (tf, g, Skipped)
  else
    let '(initialized_now, tf) := initialize env tf in
    if initialized_now then Some (tf, g, Skipped)
    else
      let '(time_advanced, (now_units_high, now_units_low)) := get_time_stamp env tf in
      let g :=
        if negb (has_low_units env) && negb (now_units_low =? 0)
        then report "SC_ID_TRACING_VCD_TIME_RESOLUTION_" g else g in
      let g :=
        if delta_cycles env && this_is_a_delta_cycle && negb (warned g)
        then {| warned := true;
                reports := reports g ++ ["SC_ID_TRACING_VCD_DELTA_CYCLE_"%string] |}
        else g in
      if delta_cycles env && this_is_a_delta_cycle
         && (sc_delta_count_at_current_time env =? 0) && negb time_advanced
      then Some (tf, report "SC_ID_TRACING_REVERSED_TIME_" g, Skipped)
      else if delta_cycles env && negb this_is_a_delta_cycle
      then
        Some (if time_advanced
              then set_previous_time_units now_units_high now_units_low tf
              else tf,
              g, Skipped)
      else
        '(tf, cs) ← print_changes env now_units_high now_units_low tf;
        Some (tf, g, Sampled cs).

(** *** [set_bsm_trace_type] and [set_bsm_print_type] *)

Definition map_base (f : bsm_trace.t -> bsm_trace.t) (o : trace_object) : trace_object :=
  match o with
  | Value_trace T C tr => Value_trace T C (value_trace.set_base (f (value_trace.base tr)) tr)
  | T_trace tr =>
      T_trace {| bsm_T_trace.base := f (bsm_T_trace.base tr);
                 bsm_T_trace.object := bsm_T_trace.object tr;
                 bsm_T_trace.old_value := bsm_T_trace.old_value tr |}
  | Sc_event_trace tr =>
      Sc_event_trace
        {| bsm_sc_event_trace.base := f (bsm_sc_event_trace.base tr);
           bsm_sc_event_trace.trigger_stamp := bsm_sc_event_trace.trigger_stamp tr;
           bsm_sc_event_trace.old_trigger_stamp := bsm_sc_event_trace.old_trigger_stamp tr |}
  | Sc_logic_trace tr =>
      Sc_logic_trace
        {| bsm_sc_logic_trace.base := f (bsm_sc_logic_trace.base tr);
           bsm_sc_logic_trace.object := bsm_sc_logic_trace.object tr;
           bsm_sc_logic_trace.old_value := bsm_sc_logic_trace.old_value tr |}
  | Sc_time_trace tr =>
      Sc_time_trace
        {| bsm_sc_time_trace.super :=
             value_trace.set_base
               (f (value_trace.base (bsm_sc_time_trace.super tr)))
               (bsm_sc_time_trace.super tr);
           bsm_sc_time_trace.object := bsm_sc_time_trace.object tr |}
  end.

(** [index] is an [int]; [-1] selects the last trace, and the assertion
    aborts the call for an index out of range. *)
Definition set_bsm_trace_type (index : Z) (nTrigger nTrace : Z) (tf : t) : option t :=
  let index := if index =? -1 then Z.of_nat (length (traces tf)) - 1 else index in
  if (0 <=? index) && (index <? Z.of_nat (length (traces tf))) then
    o ← traces tf !! Z.to_nat index;
    let o := map_base (bsm_trace.set_trace_type nTrace) o in
    let o := map_base (bsm_trace.set_trigger_type nTrigger) o in
    Some (set_traces (<[Z.to_nat index := o]> (traces tf)) tf)
  else None.

Definition set_bsm_print_type (type : Z) (tf : t) : t :=
  {| fp := fp tf; bsm_name_index := bsm_name_index tf;
     previous_time_units_low := previous_time_units_low tf;
     previous_time_units_high := previous_time_units_high tf;
     traces := map (map_base (bsm_trace.set_print_type type)) (traces tf);
     bsm_print_type := type;
     bsm_trace_enable := bsm_trace_enable tf |}.

End bsm_trace_file.

(** ** The spawn layer ([sc_spawn.h]) *)

(** A pointer is an address; the null pointer is address 0. *)
Definition pointer : Type := N.
Definition null : pointer := 0%N.

(** The part of the program state a process body works on: the heap
    cells that hold results of type [R], and everything else. *)
Record memory (R G : Type) : Type := mk_memory {
  heap : gmap N R;
  globals : G
}.
Arguments mk_memory {R G}.
Arguments heap {R G}.
Arguments globals {R G}.

(** The assignment through a pointer; through the null pointer it has no
    defined behaviour. *)
Definition store {R G} (p : pointer) (v : R) (w : memory R G) : option (memory R G) :=
  if N.eqb p null then None
  else Some {| heap := <[p := v]> (heap w); globals := globals w |}.

Definition load {R G} (p : pointer) (w : memory R G) : option R := heap w !! p.

(** "Any object with a call operator": calling [object()] in state [w]
    yields the returned value, the object after the call and the new
    state ([unit] is the returned value of a [void] operator). *)
Class Callable (W T R : Type) : Type :=
  operator_call : T -> W -> R * T * W.

(** Modelled from the spec: the options [sc_spawn] recognises, of which
    the header [sc_spawn_options.h] is not among the sources: "recognized
    options: is_method: run-to-completion vs suspendable, stack_size,
    reset_signal_is_async, dont_initialize". *)
Record sc_spawn_options : Type := mk_options {
  is_method : bool;
  stack_size : Z;
  reset_signal_is_async : bool;
  dont_initialize : bool
}.

(** [sc_process_host]: an object with the virtual member [semantics]. *)
Record sc_process_host (W : Type) : Type := mk_host {
  host_class : Type;
  host_this : host_class;
  host_semantics : host_class -> W -> option (host_class * W)
}.
Arguments mk_host {W}.
Arguments host_class {W}.
Arguments host_this {W}.
Arguments host_semantics {W}.

(** [SC_ENTRY_FUNC]: a pointer to a member function of a process host. *)
Definition SC_ENTRY_FUNC (W : Type) : Type :=
  sc_process_host W -> W -> option (sc_process_host W * W).

(** [SC_MAKE_FUNC_PTR(C, semantics)]: the entry function that calls the
    virtual [semantics] of the host it is applied to. *)
Definition SC_MAKE_FUNC_PTR_semantics {W : Type} : SC_ENTRY_FUNC W :=
  fun host w =>
    '(this, w') ← host_semantics host (host_this host) w;
    Some (mk_host (host_class host) this (host_semantics host), w').

(** *** [sc_spawn_object<T>] *)

Module sc_spawn_object.

Record t (T : Type) : Type := mk { m_object : T }.
Arguments mk {T}.
Arguments m_object {T}.

Definition semantics {W T} `{Callable W T unit} (this : t T) (w : W) : option (t T * W) :=
  let '(_, object', w') := operator_call (m_object this) w in
  Some ({| m_object := object' |}, w').

(** [new sc_spawn_object<T>(object)], seen as a process host. *)
Definition new {W T} `{Callable W T unit} (object : T) : sc_process_host W :=
  mk_host (t T) {| m_object := object |} semantics.

End sc_spawn_object.

(** *** [sc_spawn_object_v<T>] *)

Module sc_spawn_object_v.

Record t (T R : Type) : Type := mk { m_object : T; m_result_p : pointer }.
Arguments mk {T R}.
Arguments m_object {T R}.
Arguments m_result_p {T R}.

Definition semantics {R G T} `{Callable (memory R G) T R} (this : t T R) (w : memory R G)
  : option (t T R * memory R G) :=
  let '(result, object', w') := operator_call (m_object this) w in
  w'' ← store (m_result_p this) result w';
  Some ({| m_object := object'; m_result_p := m_result_p this |}, w'').

Definition new {R G T} `{Callable (memory R G) T R} (r_p : pointer) (object : T)
  : sc_process_host (memory R G) :=
  mk_host (t T R) {| m_object := object; m_result_p := r_p |} semantics.

End sc_spawn_object_v.

(** *** The simulation context

    [sc_get_curr_simcontext] and the members [create_thread_process] and
    [create_method_process] of [sc_simcontext] are declared in headers
    that are not among the sources: they are the operations of an
    interface here.  [K] is the state of the kernel, [E] what a call can
    fail with, and a call either fails or returns a value and the new
    state of the kernel. *)
Class sc_simcontext_api (W K E context handle : Type) : Type := {
  sc_get_curr_simcontext : K -> E + context;
  create_thread_process :
    context -> option string -> bool -> SC_ENTRY_FUNC W -> sc_process_host W ->
    option sc_spawn_options -> K -> E + (handle * K);
  create_method_process :
    context -> option string -> bool -> SC_ENTRY_FUNC W -> sc_process_host W ->
    option sc_spawn_options -> K -> E + (handle * K)
}.

(** The test [!opt_p || !opt_p->is_method()]. *)
Definition spawns_thread (opt_p : option sc_spawn_options) : bool :=
  match opt_p with
  | None => true
  | Some opt => negb (is_method opt)
  end.

(** *** [sc_spawn], semantic object with no return value *)
Definition sc_spawn {W K E context handle T}
           {api : sc_simcontext_api W K E context handle} {callable : Callable W T unit}
           (object : T) (name_p : option string) (opt_p : option sc_spawn_options)
           (k : K) : E + (handle * K) :=
  match sc_get_curr_simcontext k with
  | inl e => inl e
  | inr context_p =>
      let spawn_p := sc_spawn_object.new object in
      if spawns_thread opt_p then
        create_thread_process context_p name_p true SC_MAKE_FUNC_PTR_semantics spawn_p opt_p k
      else
        create_method_process context_p name_p true SC_MAKE_FUNC_PTR_semantics spawn_p opt_p k
  end.

(** *** [sc_spawn], semantic object with return value *)
Definition sc_spawn_v {R G K E context handle T}
           {api : sc_simcontext_api (memory R G) K E context handle}
           {callable : Callable (memory R G) T R}
           (r_p : pointer) (object : T) (name_p : option string)
           (opt_p : option sc_spawn_options) (k : K) : E + (handle * K) :=
  match sc_get_curr_simcontext k with
  | inl e => inl e
  | inr context_p =>
      let spawn_p := sc_spawn_object_v.new r_p object in
      if spawns_thread opt_p then
        create_thread_process context_p name_p true SC_MAKE_FUNC_PTR_semantics spawn_p opt_p k
      else
        create_method_process context_p name_p true SC_MAKE_FUNC_PTR_semantics spawn_p opt_p k
  end.

(** The scheduler runs the body of a process: the entry function is
    applied to the host. *)
Definition execute {W} (entry : SC_ENTRY_FUNC W) (host : sc_process_host W) (w : W)
  : option (sc_process_host W * W) :=
  entry host w.

(** *** The scheduler context of the specification *)

Module scheduler.

(** Modelled from the spec: the failures of the spawn operation, "Fails
    with InvalidContext if called outside an active scheduler context,
    DuplicateName if the name collides within the same hierarchical
    scope".  [sc_simcontext], which would raise them, is not among the
    sources. *)
Inductive error : Type := InvalidContext | DuplicateName.

(** Modelled from the spec: the two process variants, "method process
    (runs to completion, no mid-body suspension), thread process (may
    suspend anywhere, resumable)". *)
Inductive process_kind : Type := method_process | thread_process.

(** Modelled from the spec: a process has an "identity (name), kind
    (method|thread)" and "an owned execution context (entry point +
    captured closure over a caller-supplied callable object)". *)
Record process (W : Type) : Type := mk_process {
  proc_name : option string;
  proc_kind : process_kind;
  proc_entry : SC_ENTRY_FUNC W;
  proc_host : sc_process_host W;
  proc_options : option sc_spawn_options
}.
Arguments mk_process {W}.
Arguments proc_name {W}.
Arguments proc_kind {W}.
Arguments proc_entry {W}.
Arguments proc_host {W}.
Arguments proc_options {W}.

(** Modelled from the spec: the simulation context.  [active] tells
    whether there is an active scheduler context, [names] holds the names
    in use, each with the hierarchical scope it lives in, and
    [current_scope] is the scope a spawn happens in.  "The Scheduler owns
    all Process and Event objects"; a handle is a non-owning reference,
    here the index of the process in the table. *)
Record t (W : Type) : Type := mk {
  active : bool;
  current_scope : list string;
  names : list (list string * string);
  processes : list (process W)
}.
Arguments mk {W}.
Arguments active {W}.
Arguments current_scope {W}.
Arguments names {W}.
Arguments processes {W}.

(** Modelled from the spec: the handle, an "index into an arena of
    Process objects"; [sc_process_handle.h] is not among the sources. *)
Definition sc_process_handle : Type := nat.

(** Modelled from the spec: [sc_get_curr_simcontext], which "fails with
    InvalidContext if called outside an active scheduler context". *)
Definition get_curr_simcontext {W} (k : t W) : error + unit :=
  if active k then inr tt else inl InvalidContext.

(** Modelled from the spec: the registration of a process with the
    scheduler, which keeps the process and records its name in the
    current scope. *)
Definition register {W} (kind : process_kind) (name_p : option string)
           (entry : SC_ENTRY_FUNC W) (host : sc_process_host W)
           (opt_p : option sc_spawn_options) (k : t W) : sc_process_handle * t W :=
  (length (processes k),
   {| active := active k;
      current_scope := current_scope k;
      names := match name_p with
               | Some n => names k ++ [(current_scope k, n)]
               | None => names k
               end;
      processes := processes k ++ [mk_process name_p kind entry host opt_p] |}).

(** Modelled from the spec: [create_thread_process] and
    [create_method_process], which fail with "DuplicateName if the name
    collides within the same hierarchical scope" and register the process
    otherwise.  A spawn without a name cannot collide. *)
Definition create_process {W} (kind : process_kind) (context_p : unit)
           (name_p : option string) (free_host : bool)
           (entry : SC_ENTRY_FUNC W) (host : sc_process_host W)
           (opt_p : option sc_spawn_options) (k : t W)
  : error + (sc_process_handle * t W) :=
  match name_p with
  | Some n =>
      if decide ((current_scope k, n) ∈ names k) then inl DuplicateName
      else inr (register kind name_p entry host opt_p k)
  | None => inr (register kind name_p entry host opt_p k)
  end.

(** Modelled from the spec: the scheduler context as an implementation of
    the interface [sc_spawn] is written against. *)
#[export] Instance api {W} : sc_simcontext_api W (t W) error unit sc_process_handle := {
  sc_get_curr_simcontext := get_curr_simcontext;
  create_thread_process := create_process thread_process;
  create_method_process := create_process method_process
}.

End scheduler.

(** ** Simulated time *)

(** Modelled from the spec: "SimulationTime: an ordered pair (high, low)
    of 64-bit unit counts representing elapsed simulated time"; the
    kernel that owns it is not among the sources.  The pair is what
    [timestamp_in_trace_units] hands to the trace file. *)
Definition SimulationTime : Type := Z * Z.

(** The lexicographic order on (high, low) pairs, high compared first. *)
Definition time_compare (a b : SimulationTime) : comparison :=
  match fst a ?= fst b with
  | Eq => snd a ?= snd b
  | c => c
  end.

Definition time_lt (a b : SimulationTime) : bool :=
  match time_compare a b with Lt => true | _ => false end.

Definition time_le (a b : SimulationTime) : bool :=
  match time_compare a b with Gt => false | _ => true end.

Definition time_eqb (a b : SimulationTime) : bool :=
  match time_compare a b with Eq => true | _ => false end.

Module sim_kernel.

(** Modelled from the spec: the time-related state of the scheduler, the
    current [SimulationTime] and the "TimedNotification: (SimulationTime,
    Event) pair kept in a time-ordered structure"; an event is
    represented by its identity, and [delta_count] is the "logical
    counter" of the delta cycles at the current time. *)
Record t : Type := mk {
  now : SimulationTime;
  timed : list (SimulationTime * nat);
  delta_count : Z
}.

(** Modelled from the spec: "peek-minimum" of the time-ordered queue. *)
Fixpoint peek_minimum (q : list (SimulationTime * nat)) : option SimulationTime :=
  match q with
  | [] => None
  | (t, _) :: q' =>
      match peek_minimum q' with
      | None => Some t
      | Some m => Some (if time_le t m then t else m)
      end
  end.

(** Modelled from the spec: "pop-all-equal-to-minimum"; what is left of
    the queue. *)
Definition pop_all_equal (m : SimulationTime) (q : list (SimulationTime * nat))
  : list (SimulationTime * nat) :=
  List.filter (fun p => negb (time_eqb (fst p) m)) q.

(** Modelled from the spec: "insert" of a timed notification.  A process
    asks to "resume after a simulated-time delay", so the absolute time of
    a notification is not before the current time; a request for an
    earlier time is not accepted. *)
Definition notify_at (n : SimulationTime * nat) (k : t) : t :=
  if time_le (now k) (fst n)
  then {| now := now k; timed := n :: timed k; delta_count := delta_count k |}
  else k.

(** Modelled from the spec: the phases of the scheduler as far as time is
    concerned.  A delta cycle is "one zero-simulated-time pass of
    evaluate, update, notify", in which processes may request timed
    notifications; in the time-advance phase the scheduler does "advance
    SimulationTime to the minimum pending timestamp, fire all
    notifications scheduled for exactly that time", and halts when the
    timed queue is empty. *)
Inductive phase : Type :=
| delta_cycle (requests : list (SimulationTime * nat))
| time_advance.

(** Modelled from the spec: one phase of the scheduler.  The delta
    cycle inserts the requested notifications and counts; the time
    advance moves to the minimum pending time, if there is one. *)
Definition step (p : phase) (k : t) : t :=
  match p with
  | delta_cycle requests =>
      let k' := fold_right notify_at k requests in
      {| now := now k'; timed := timed k'; delta_count := delta_count k' + 1 |}
  | time_advance =>
      match peek_minimum (timed k) with
      | None => k
      | Some m => {| now := m; timed := pop_all_equal m (timed k); delta_count := 0 |}
      end
  end.

(** Modelled from the spec: the simulated time after each phase of a
    run. *)
Fixpoint run (phases : list phase) (k : t) : list SimulationTime :=
  match phases with
  | [] => []
  | p :: phases' => now (step p k) :: run phases' (step p k)
  end.

(** Modelled from the spec: the invariant of the time-ordered queue, no
    timed notification is pending for a time before the current one. *)
Definition well_formed (k : t) : Prop :=
  Forall (fun n => time_le (now k) (fst n) = true) (timed k).

End sim_kernel.

(** ** A trace file attached to the kernel *)

(** Modelled from the spec: the tracing collaborator, whose "consumed
    on_delta_cycle_end(time) callback the kernel invokes once per delta
    cycle so the tracer can sample changed values"; the members the trace
    file inherits are parameters, as before, [tracer_initialize] being
    told the current time. *)
Record tracer : Type := mk_tracer {
  tracer_delta_cycles : bool;
  tracer_initialize : SimulationTime -> bsm_trace_file.t -> bool * bsm_trace_file.t;
  tracer_has_low_units : bool;
  tracer_low_units_len : nat
}.

(** Modelled from the spec: the flag the kernel passes to [cycle], which
    tells a delta cycle from a timed step. *)
Definition is_delta_cycle (p : sim_kernel.phase) : bool :=
  match p with sim_kernel.delta_cycle _ => true | sim_kernel.time_advance => false end.

(** Modelled from the spec: what the kernel answers to the trace file,
    the "current simulation time" query among it. *)
Definition inherited_at (cfg : tracer) (k : sim_kernel.t) : bsm_trace_file.inherited :=
  {| bsm_trace_file.delta_cycles := tracer_delta_cycles cfg;
     bsm_trace_file.initialize := tracer_initialize cfg (sim_kernel.now k);
     bsm_trace_file.has_low_units := tracer_has_low_units cfg;
     bsm_trace_file.low_units_len := tracer_low_units_len cfg;
     bsm_trace_file.timestamp_in_trace_units := sim_kernel.now k;
     bsm_trace_file.sc_delta_count_at_current_time := sim_kernel.delta_count k |}.

Definition previous_time_units (tf : bsm_trace_file.t) : SimulationTime :=
  (bsm_trace_file.previous_time_units_high tf, bsm_trace_file.previous_time_units_low tf).

(** Modelled from the spec: the kernel calls [cycle] after every phase.
    The observation points of a run: for every call of [cycle], the pair
    recorded in the trace file when the call starts and the current time
    of the kernel.  The run ends when a call of [cycle] aborts. *)
Fixpoint observations (cfg : tracer) (phases : list sim_kernel.phase)
         (k : sim_kernel.t) (tf : bsm_trace_file.t) (g : tracing_globals)
  : list (SimulationTime * SimulationTime) :=
  match phases with
  | [] => []
  | p :: phases' =>
      let k' := sim_kernel.step p k in
      (previous_time_units tf, sim_kernel.now k')
        :: match bsm_trace_file.cycle (inherited_at cfg k') (is_delta_cycle p) tf g with
           | Some (tf', g', _) => observations cfg phases' k' tf' g'
           | None => []
           end
  end.

(** The only way the inherited [initialize] touches the recorded time
    is the one of [do_initialize], which records the current time. *)
Definition initialize_records_now (cfg : tracer) : Prop :=
  forall (now : SimulationTime) (tf : bsm_trace_file.t),
    previous_time_units (snd (tracer_initialize cfg now tf)) = previous_time_units tf
    \/ previous_time_units (snd (tracer_initialize cfg now tf)) = now.

(** A sequence of times in which no element is before its predecessor. *)
Definition nondecreasing (l : list SimulationTime) : Prop :=
  forall (i : nat) (a b : SimulationTime),
    l !! i = Some a -> l !! S i = Some b -> time_le a b = true.

(** ** The console, and the declaration of a variable

    [bsm_put_error_message], [remove_bsm_name_problems] and
    [bsm_trace::print_variable_declaration_line].  As everywhere in the
    model a [std::string] holds no NUL, so that [c_str()] denotes all of
    its characters. *)

(** The text put on [std::cout] so far, and the function-local [static]
    of [remove_bsm_name_problems]. *)
Record console : Type := mk_console {
  cout : string;
  name_problems_warned : bool
}.

(** What [std::endl] and the escape for a new line put on a stream. *)
Definition endl : string := String newline EmptyString.

Definition dquote : ascii := "034"%char.

(** [snprintf(buf, size, ...)] stores at most [size - 1] characters of
    the formatted text; [formatted] is that text. *)
Definition snprintf (size : nat) (formatted : string) : string :=
  string_of_list_ascii (take (size - 1) (list_ascii_of_string formatted)).

Definition bsm_put_error_message (msg : string) (just_warning : bool) (con : console)
  : console :=
  {| cout :=
       cout con
       +:+ (if just_warning then "BSM Trace Warning:" else "BSM Trace ERROR:")
       +:+ endl +:+ msg +:+ endl +:+ endl;
     name_problems_warned := name_problems_warned con |}.

(** The loop of [remove_bsm_name_problems] over the characters of the
    name, with the flag [braces_removed]. *)
Fixpoint replace_braces (name : list ascii) (braces_removed : bool) : list ascii * bool :=
  match name with
  | [] => ([], braces_removed)
  | c :: name' =>
      if Ascii.eqb c "["
      then let '(r, b) := replace_braces name' true in ("("%char :: r, b)
      else if Ascii.eqb c "]"
      then let '(r, b) := replace_braces name' true in (")"%char :: r, b)
      else let '(r, b) := replace_braces name' braces_removed in (c :: r, b)
  end.

Definition name_problems_message : string :=
  "Traced objects found with name containing [], which may be" +:+ endl
  +:+ "interpreted by the waveform viewer in unexpected ways." +:+ endl
  +:+ "So the [] is automatically replaced by ().".

(** Returns the name, which the function updates through the reference. *)
Definition remove_bsm_name_problems (name : string) (con : console) : string * console :=
  let '(name, braces_removed) := replace_braces (list_ascii_of_string name) false in
  (string_of_list_ascii name,
   if braces_removed && negb (name_problems_warned con)
   then
     let con := bsm_put_error_message (snprintf 4000 name_problems_message) true con in
     {| cout := cout con; name_problems_warned := true |}
   else con).

(** The conversion [%d] of [printf] for an [int]. *)
Definition printf_d (v : Z) : string :=
  if v <? 0 then "-" +:+ decimal (- v) else decimal v.

(** The conversion [% 3d]: a blank in the place of the sign of a number
    that is not negative, and blanks in front up to a width of 3. *)
Definition printf_space_3d (v : Z) : string :=
  let digits := if v <? 0 then "-" +:+ decimal (- v) else " " +:+ decimal v in
  string_of_list_ascii (replicate (3 - String.length digits) " "%char) +:+ digits.

(** [bsm_trace::print_variable_declaration_line]; no class overrides it.
    [fputs] on a null stream has no defined behaviour. *)
Definition print_variable_declaration_line (f : option FILE) (b : bsm_trace.t)
           (con : console) : option (option FILE * console) :=
  if bsm_trace.bit_width b <=? 0 then
    let buf :=
      snprintf 2000
        ("Traced object " +:+ String dquote (bsm_trace.name b)
         +:+ String dquote " has 0 Bits, cannot be traced.") in
    Some (f, bsm_put_error_message buf false con)
  else
    let namecopy := bsm_trace.name b in
    let '(namecopy, con) := remove_bsm_name_problems namecopy con in
    let buf :=
      if bsm_trace.bit_width b =? 1 then
        snprintf 2000
          ("$var " +:+ bsm_trace.bsm_var_typ_name b
           +:+ "  " +:+ printf_space_3d (bsm_trace.bit_width b)
           +:+ "  " +:+ bsm_trace.bsm_name b
           +:+ "  " +:+ namecopy +:+ "       $end" +:+ endl)
      else
        snprintf 2000
          ("$var " +:+ bsm_trace.bsm_var_typ_name b
           +:+ "  " +:+ printf_space_3d (bsm_trace.bit_width b)
           +:+ "  " +:+ bsm_trace.bsm_name b
           +:+ "  " +:+ namecopy
           +:+ " [" +:+ printf_d (bsm_trace.bit_width b - 1) +:+ ":0]  $end" +:+ endl) in
    file ← f;
    Some (Some (fputs buf file), con).

(** ** The traces of the built-in integers

    The constructors and the [write] members of these classes are copies
    of each other up to the width of the integer type, and of those of
    [bsm_uint64_trace]: [format] has no value where the block of [write]
    has no defined behaviour, which is when [rawdata] or [compdata], of
    1000 characters each, is too small, when the shift that sets
    [bit_mask] is by a negative amount or by the number of bits of the
    type or more,
    and when the bit width is negative, which the constructor shifts
    by.  The constructors of the 32 bit classes shift the [int] -1 to the
    left, and [write] shifts the [int] 1 into the sign bit for the bit
    width 32: both are taken in two's complement, which is what C++20
    defines and what the compilers of the library did before. *)

(** *** [bsm_unsigned_int_trace] *)

Module bsm_unsigned_int_trace.

Definition make_mask (bit_width : Z) : Z :=
  if bit_width <? 32
  then Z.lnot (Z.shiftl (-1) bit_width) mod UINT_MOD
  else 4294967295.

Definition format (mask : Z) (b : bsm_trace.t) (object : Z) : option string :=
  let bit_width := bsm_trace.bit_width b in
  if (bit_width <? 0) || (1000 <=? bit_width) then None
  else
    rawdata ←
      (if negb (Z.land object mask =? object)
       then Some (replicate (Z.to_nat bit_width) "x"%char)
       else if (1 <=? bit_width) && (bit_width <=? 32)
       then
         let bit_mask := Z.shiftl 1 (bit_width - 1) mod UINT_MOD in
         Some (bsm_uint64_trace.bits (Z.to_nat bit_width) object bit_mask)
       else None);
    if bsm_trace.is_print_vcd b
    then
      let compdata := bsm_trace.compose_data_line b rawdata in
      if (String.length compdata <? 1000)%nat then Some compdata else None
    else Some (string_of_list_ascii rawdata).

Definition ctor (object_ : Z) (name_ bsm_name_ : string) (width_ : Z)
           (print_type_ trigger_type_ : Z) : value_trace.t Z :=
  {| value_trace.base :=
       bsm_trace.set_bit_width width_
         (bsm_trace.ctor name_ bsm_name_ print_type_ trigger_type_);
     value_trace.object := object_;
     value_trace.old_value := object_;
     value_trace.format := format (make_mask width_) |}.

End bsm_unsigned_int_trace.

(** *** [bsm_signed_int_trace]

    The traced [int] is a [Z] between [- 2 ^ 31] and [2 ^ 31 - 1]; the
    casts to [unsigned], and the conversion of the [int] operand of [&]
    to the [unsigned] type of [bit_mask], are the residue modulo
    [2 ^ 32]. *)

Module bsm_signed_int_trace.

Definition to_unsigned (object : Z) : Z := object mod UINT_MOD.

Definition make_mask (bit_width : Z) : Z :=
  if bit_width <? 32
  then Z.lnot (Z.shiftl (-1) bit_width) mod UINT_MOD
  else 4294967295.

Definition format (mask : Z) (b : bsm_trace.t) (object : Z) : option string :=
  let bit_width := bsm_trace.bit_width b in
  if (bit_width <? 0) || (1000 <=? bit_width) then None
  else
    rawdata ←
      (if negb (Z.land (to_unsigned object) mask =? to_unsigned object)
       then Some (replicate (Z.to_nat bit_width) "x"%char)
       else if (1 <=? bit_width) && (bit_width <=? 32)
       then
         let bit_mask := Z.shiftl 1 (bit_width - 1) mod UINT_MOD in
         Some (bsm_uint64_trace.bits (Z.to_nat bit_width) (to_unsigned object) bit_mask)
       else None);
    if bsm_trace.is_print_vcd b
    then
      let compdata := bsm_trace.compose_data_line b rawdata in
      if (String.length compdata <? 1000)%nat then Some compdata else None
    else Some (string_of_list_ascii rawdata).

Definition ctor (object_ : Z) (name_ bsm_name_ : string) (width_ : Z)
           (print_type_ trigger_type_ : Z) : value_trace.t Z :=
  {| value_trace.base :=
       bsm_trace.set_bit_width width_
         (bsm_trace.ctor name_ bsm_name_ print_type_ trigger_type_);
     value_trace.object := object_;
     value_trace.old_value := object_;
     value_trace.format := format (make_mask width_) |}.

End bsm_signed_int_trace.

(** *** [bsm_int64_trace] *)

Module bsm_int64_trace.

Definition to_unsigned (object : Z) : Z := object mod UINT64_MOD.

Definition make_mask (bit_width : Z) : Z :=
  let mask := UINT64_MOD - 1 in
  if bit_width <? 64
  then Z.lxor (Z.shiftl mask bit_width mod UINT64_MOD) (UINT64_MOD - 1)
  else mask.

Definition format (mask : Z) (b : bsm_trace.t) (object : Z) : option string :=
  let bit_width := bsm_trace.bit_width b in
  if (bit_width <? 0) || (1000 <=? bit_width) then None
  else
    rawdata ←
      (if negb (Z.land (to_unsigned object) mask =? to_unsigned object)
       then Some (replicate (Z.to_nat bit_width) "x"%char)
       else if (1 <=? bit_width) && (bit_width <=? 64)
       then
         let bit_mask := Z.shiftl 1 (bit_width - 1) mod UINT64_MOD in
         Some (bsm_uint64_trace.bits (Z.to_nat bit_width) (to_unsigned object) bit_mask)
       else None);
    if bsm_trace.is_print_vcd b
    then
      let compdata := bsm_trace.compose_data_line b rawdata in
      if (String.length compdata <? 1000)%nat then Some compdata else None
    else Some (string_of_list_ascii rawdata).

Definition ctor (object_ : Z) (name_ bsm_name_ : string) (width_ : Z)
           (print_type_ trigger_type_ : Z) : value_trace.t Z :=
  {| value_trace.base :=
       bsm_trace.set_bit_width width_
         (bsm_trace.ctor name_ bsm_name_ print_type_ trigger_type_);
     value_trace.object := object_;
     value_trace.old_value := object_;
     value_trace.format := format (make_mask width_) |}.

End bsm_int64_trace.

(** *** [bsm_enum_trace]

    [enum_literals_] is the array of literals up to its null entry. *)

Module bsm_enum_trace.

(** The loop that counts the bits of [shifted_maxindex]; an [unsigned]
    is zero after at most 32 shifts to the right. *)
Fixpoint count_bits (fuel : nat) (shifted_maxindex bit_width : Z) : Z :=
  match fuel with
  | O => bit_width
  | S fuel' =>
      if negb (shifted_maxindex =? 0)
      then count_bits fuel' (Z.shiftr shifted_maxindex 1) (bit_width + 1)
      else bit_width
  end.

(** The bit width the constructor computes. *)
Definition width_of (enum_literals_ : list string) : Z :=
  let nliterals := Z.of_nat (length enum_literals_) mod UINT_MOD in
  let bit_width := 0 in
  let shifted_maxindex := (nliterals - 1) mod UINT_MOD in
  count_bits 32 shifted_maxindex bit_width.

Definition make_mask (bit_width : Z) : Z :=
  if bit_width <? 32
  then Z.lnot (Z.shiftl (-1) bit_width) mod UINT_MOD
  else 4294967295.

Definition format (mask : Z) (b : bsm_trace.t) (object : Z) : option string :=
  let bit_width := bsm_trace.bit_width b in
  if (bit_width <? 0) || (1000 <=? bit_width) then None
  else
    rawdata ←
      (if negb (Z.land object mask =? object)
       then Some (replicate (Z.to_nat bit_width) "x"%char)
       else if (1 <=? bit_width) && (bit_width <=? 32)
       then
         let bit_mask := Z.shiftl 1 (bit_width - 1) mod UINT_MOD in
         Some (bsm_uint64_trace.bits (Z.to_nat bit_width) object bit_mask)
       else None);
    if bsm_trace.is_print_vcd b
    then
      let compdata := bsm_trace.compose_data_line b rawdata in
      if (String.length compdata <? 1000)%nat then Some compdata else None
    else Some (string_of_list_ascii rawdata).

Definition ctor (object_ : Z) (name_ bsm_name_ : string) (enum_literals_ : list string)
           (print_type_ trigger_type_ : Z) : value_trace.t Z :=
  let bit_width := width_of enum_literals_ in
  {| value_trace.base :=
       bsm_trace.set_bit_width bit_width
         (bsm_trace.ctor name_ bsm_name_ print_type_ trigger_type_);
     value_trace.object := object_;
     value_trace.old_value := object_;
     value_trace.format := format (make_mask bit_width) |}.

End bsm_enum_trace.

(** ** The virtual member [set_width]

    [bsm_T_trace] assigns the length of the traced vector.  The other
    classes of the model ([bool], the built-in integers, enumerations,
    interfaces and ports, events, times and [sc_logic]) inherit the empty
    body of [bsm_trace::set_width]. *)
Definition set_width (o : trace_object) : trace_object :=
  match o with
  | T_trace tr => T_trace (bsm_T_trace.set_width tr)
  | _ => o
  end.

(** ** [bsm_trace_file]: comments and initialization *)

(** What else the base class [sc_trace_file_base] and the kernel answer
    while the file is initialized; their bodies are not among the
    sources.  [sc_time_stamp_to_seconds] is the text the stream insertion
    of [sc_time_stamp().to_seconds()] produces, and [open_fp] opens the
    file, which can fail. *)
Record initialization : Type := mk_initialization {
  localtime_string : string;
  sc_version : string;
  fs_unit_to_str_trace_unit_fs : string;
  sc_time_stamp_to_seconds : string;
  open_fp : bsm_trace_file.t -> option bsm_trace_file.t
}.

Definition write_comment (ini : initialization) (comment : string)
           (tf : bsm_trace_file.t) : option bsm_trace_file.t :=
  tf ← (if bool_decide (bsm_trace_file.fp tf = None) then open_fp ini tf else Some tf);
  file ← bsm_trace_file.fp tf;
  let file := fputs ("$comment" +:+ endl) file in
  let file := fputs comment file in
  let file := fputs (endl +:+ "$end" +:+ endl +:+ endl) file in
  Some (bsm_trace_file.set_fp (Some file) tf).

(** The first loop of the VCD branch of [do_initialize]: the width of
    every trace is set, and every trace that is not a valid signal is
    declared. *)
Fixpoint declare_variables (ts : list trace_object) (f : option FILE) (con : console)
  : option (list trace_object * option FILE * console) :=
  match ts with
  | [] => Some ([], f, con)
  | t :: ts' =>
      let t := set_width t in
      '(f, con) ←
        (if virtual.get_trace_type t =? bsm_trace.BSM_TRACE_VAL
         then Some (f, con)
         else print_variable_declaration_line f (virtual.base t) con);
      '(ts', f, con) ← declare_variables ts' f con;
      Some (t :: ts', f, con)
  end.

(** The second loop of the VCD branch, started at index [i]: every trace
    that is not a valid signal is written, each on a line of its own. *)
Fixpoint dump_variables (i : nat) (ts : list trace_object) (f : option FILE)
  : option (list trace_object * option FILE * list (nat * call)) :=
  match ts with
  | [] => Some ([], f, [])
  | t :: ts' =>
      '(t, f, cs) ←
        (if virtual.get_trace_type t =? bsm_trace.BSM_TRACE_VAL
         then Some (t, f, [])
         else
           '(f, t, cs) ← virtual.write f t;
           file ← f;
           Some (t, Some (fputc newline file), cs));
      '(ts', f, cs') ← dump_variables (S i) ts' f;
      Some (t :: ts', f, bsm_trace_file.tag i cs ++ cs')
  end.

(** The second loop of the other branch, started at index [i]: a trace
    of type [BSM_TRACE_ORIG] is written on a line of its own, every other
    trace is written to the null stream. *)
Fixpoint write_initial_values (i : nat) (ts : list trace_object) (f : option FILE)
  : option (list trace_object * option FILE * list (nat * call)) :=
  match ts with
  | [] => Some ([], f, [])
  | t :: ts' =>
      '(t, f, cs) ←
        (if virtual.get_trace_type t =? bsm_trace.BSM_TRACE_ORIG
         then
           '(f, t, cs) ← virtual.write f t;
           file ← f;
           Some (t, Some (fputc newline file), cs)
         else
           '(_, t, cs) ← virtual.write None t;
           Some (t, f, cs));
      '(ts', f, cs') ← write_initial_values (S i) ts' f;
      Some (t :: ts', f, bsm_trace_file.tag i cs ++ cs')
  end.

(** [do_initialize]; returns the file, the console and, as ghost, the
    calls made on the traces.  [fprintf] and [fputs] on a null stream have
    no defined behaviour. *)
Definition do_initialize (env : bsm_trace_file.inherited) (ini : initialization)
           (tf : bsm_trace_file.t) (con : console)
  : option (bsm_trace_file.t * console * list (nat * call)) :=
  if bsm_trace_file.bsm_print_type tf =? bsm_type.BT_VCD then
    file ← bsm_trace_file.fp tf;
    let file :=
      fputs ("$date" +:+ endl +:+ "     " +:+ localtime_string ini +:+ endl
             +:+ "$end" +:+ endl +:+ endl) file in
    let file :=
      fputs ("$version" +:+ endl +:+ " " +:+ sc_version ini +:+ endl
             +:+ "$end" +:+ endl +:+ endl) file in
    let file :=
      fputs ("$timescale" +:+ endl +:+ "     " +:+ fs_unit_to_str_trace_unit_fs ini +:+ endl
             +:+ "$end" +:+ endl +:+ endl) file in
    let file := fputs ("$scope module SystemC $end" +:+ endl) file in
    '(ts, f, con) ← declare_variables (bsm_trace_file.traces tf) (Some file) con;
    file ← f;
    let file := fputs ("$upscope $end" +:+ endl) file in
    let file := fputs ("$enddefinitions  $end" +:+ endl +:+ endl) file in
    let '(high, low) := bsm_trace_file.timestamp_in_trace_units env in
    let tf :=
      bsm_trace_file.set_previous_time_units high low
        (bsm_trace_file.set_fp (Some file) (bsm_trace_file.set_traces ts tf)) in
    let ss :=
      "All initial values are dumped below at time "
      +:+ sc_time_stamp_to_seconds ini +:+ " sec = "
      +:+ (if bsm_trace_file.has_low_units env
           then decimal (bsm_trace_file.previous_time_units_high tf)
                +:+ setw_fill0 (bsm_trace_file.low_units_len env)
                      (decimal (bsm_trace_file.previous_time_units_low tf))
           else decimal (bsm_trace_file.previous_time_units_high tf))
      +:+ " timescale units." in
    tf ← write_comment ini ss tf;
    file ← bsm_trace_file.fp tf;
    let file := fputs ("$dumpvars" +:+ endl) file in
    '(ts, f, cs) ← dump_variables 0 (bsm_trace_file.traces tf) (Some file);
    file ← f;
    let file := fputs ("$end" +:+ endl +:+ endl) file in
    Some (bsm_trace_file.set_fp (Some file) (bsm_trace_file.set_traces ts tf), con, cs)
  else
    let ts := map set_width (bsm_trace_file.traces tf) in
    let '(high, low) := bsm_trace_file.timestamp_in_trace_units env in
    let tf := bsm_trace_file.set_previous_time_units high low (bsm_trace_file.set_traces ts tf) in
    '(ts, f, cs) ← write_initial_values 0 (bsm_trace_file.traces tf) (bsm_trace_file.fp tf);
    Some (bsm_trace_file.set_fp f (bsm_trace_file.set_traces ts tf), con, cs).

(** ** [bsm_trace_object] and the functions it dispatches to *)

(** The types the three functions try a dynamic cast to, in the order of
    the source. *)
Inductive cpp_type : Type :=
| cpp_double | cpp_float | cpp_bool | cpp_char | cpp_short | cpp_int | cpp_long
| cpp_long_long | cpp_unsigned_char | cpp_unsigned_short | cpp_unsigned_int
| cpp_unsigned_long | cpp_unsigned_long_long | cpp_sc_logic | cpp_sc_bit.

Definition generic_types : list cpp_type :=
  [ cpp_double; cpp_float; cpp_bool; cpp_char; cpp_short; cpp_int; cpp_long;
    cpp_long_long; cpp_unsigned_char; cpp_unsigned_short; cpp_unsigned_int;
    cpp_unsigned_long; cpp_unsigned_long_long; cpp_sc_logic; cpp_sc_bit ].

(** What the functions ask of an [sc_object]: its [kind()] and [name()],
    whether it is an [sc_interface] or an [sc_port_base] (and then what
    [bsm_type()] and [bsm_string()] return), and whether it is an
    [sc_signal], [sc_in] or [sc_inout] of a given type. *)
Record sc_object : Type := mk_sc_object {
  obj_kind : string;
  obj_name : string;
  as_sc_interface : option (string * string);
  as_sc_port_base : option (string * string);
  is_sc_signal : cpp_type -> bool;
  is_sc_in : cpp_type -> bool;
  is_sc_inout : cpp_type -> bool
}.

(** What the functions use without defining it: the overloads of
    [sc_trace] for signals and ports, and [add_trace_check] of the base
    class. *)
Record tracing_api : Type := mk_tracing_api {
  sc_trace : cpp_type -> sc_object -> bsm_trace_file.t -> bsm_trace_file.t;
  add_trace_check : string -> bsm_trace_file.t -> bool
}.

(** [std::string::compare(s) == 0]. *)
Definition compare_0 (a b : string) : bool := String.eqb a b.

(** The two [trace] overloads for interfaces and ports; both classes
    have the members and the [write] of the model of
    [bsm_interface_trace]. *)
Definition trace_interface (api : tracing_api) (bsm_string : string) (name_ : string)
           (data_type : ascii) (tf : bsm_trace_file.t) : bsm_trace_file.t :=
  bsm_trace_file.trace (add_trace_check api name_ tf)
    (fun bsm_name_ print_type_ =>
       Value_trace string _
         (bsm_interface_trace.ctor bsm_string name_ bsm_name_ print_type_ data_type
            bsm_trace.BSM_TRIGGER_VAL_BOTH))
    tf.

(** The branch for a type other than "Generic", shared by the three
    functions. *)
Definition trace_by_bsm_type (api : tracing_api) (strBSMType bsm_string : string)
           (scObj : sc_object) (tf : bsm_trace_file.t) : bool * bsm_trace_file.t :=
  if compare_0 strBSMType "sc_int" || compare_0 strBSMType "sc_uint"
     || compare_0 strBSMType "sc_bigint" || compare_0 strBSMType "sc_biguint"
     || compare_0 strBSMType "sc_fixed" || compare_0 strBSMType "sc_fixed_fast"
     || compare_0 strBSMType "sc_ufixed"
  then (true, trace_interface api bsm_string (obj_name scObj) "r" tf)
  else if compare_0 strBSMType "sc_bv" || compare_0 strBSMType "sc_lv"
  then (true, trace_interface api bsm_string (obj_name scObj) "b" tf)
  else (false, tf).

(** The chain of dynamic casts of the "Generic" branch: the first type
    of the list the object can be cast to is traced. *)
Definition trace_generic (api : tracing_api) (castable : cpp_type -> bool)
           (scObj : sc_object) (tf : bsm_trace_file.t) : bool * bsm_trace_file.t :=
  match List.find castable generic_types with
  | Some ty => (true, sc_trace api ty scObj tf)
  | None => (false, tf)
  end.

Definition bsm_trace_signal (api : tracing_api) (tf : bsm_trace_file.t) (scObj : sc_object)
  : bool * bsm_trace_file.t :=
  match as_sc_interface scObj with
  | None => (false, tf)
  | Some (strBSMType, bsm_string) =>
      if compare_0 strBSMType "Generic"
      then trace_generic api (is_sc_signal scObj) scObj tf
      else trace_by_bsm_type api strBSMType bsm_string scObj tf
  end.

Definition bsm_trace_in (api : tracing_api) (tf : bsm_trace_file.t) (scObj : sc_object)
  : bool * bsm_trace_file.t :=
  match as_sc_port_base scObj with
  | None => (false, tf)
  | Some (strBSMType, bsm_string) =>
      if compare_0 strBSMType "Generic"
      then trace_generic api (is_sc_in scObj) scObj tf
      else trace_by_bsm_type api strBSMType bsm_string scObj tf
  end.

Definition bsm_trace_out (api : tracing_api) (tf : bsm_trace_file.t) (scObj : sc_object)
  : bool * bsm_trace_file.t :=
  match as_sc_port_base scObj with
  | None => (false, tf)
  | Some (strBSMType, bsm_string) =>
      if compare_0 strBSMType "Generic"
      then trace_generic api (is_sc_inout scObj) scObj tf
      else trace_by_bsm_type api strBSMType bsm_string scObj tf
  end.

Definition bsm_trace_object (api : tracing_api) (tf : bsm_trace_file.t) (scObj : sc_object)
  : bool * bsm_trace_file.t :=
  let strKind := obj_kind scObj in
  if compare_0 strKind "sc_signal" || compare_0 strKind "sc_clock"
  then bsm_trace_signal api tf scObj
  else if compare_0 strKind "sc_in"
  then bsm_trace_in api tf scObj
  else if compare_0 strKind "sc_out" || compare_0 strKind "sc_inout"
  then bsm_trace_out api tf scObj
  else (false, tf).

(* ===================================================================== *)
(** * Part II: vocabulary of the properties                               *)
(* ===================================================================== *)

Import bsm_trace_file.

(** ** Runs of equal characters *)

(** A maximal run of [c] that starts at the front of [s] and has length [k]. *)
Definition leading_run (c : ascii) (s : list ascii) (k : nat) : Prop :=
  (forall i, (i < k)%nat -> s !! i = Some c) /\ s !! k <> Some c.

(** ** Names handed out by [obtain_name] *)

Definition lower_case (c : ascii) : Prop :=
  97 <= Z.of_N (N_of_ascii c) <= 122.

Definition with_name_index (idx : Z) (tf : t) : t :=
  {| fp := fp tf; bsm_name_index := idx;
     previous_time_units_low := previous_time_units_low tf;
     previous_time_units_high := previous_time_units_high tf;
     traces := traces tf; bsm_print_type := bsm_print_type tf;
     bsm_trace_enable := bsm_trace_enable tf |}.

(** The names handed out by [n] successive calls. *)
Fixpoint obtain_names (n : nat) (tf : t) : list string :=
  match n with
  | O => []
  | S n' => let '(nm, tf') := obtain_name tf in nm :: obtain_names n' tf'
  end.

(** The five characters, before they are put together. *)
Definition name_chars (idx : Z) : list Z :=
  [ Z.rem (Z.quot (unsigned_to_int (idx / 26)) 26) 26;
    Z.rem (unsigned_to_int (idx / 26)) 26;
    Z.rem (Z.quot (Z.quot (unsigned_to_int idx) 26) 26) 26;
    Z.rem (Z.quot (unsigned_to_int idx) 26) 26;
    idx mod 26 ].

Definition letter (d : Z) : ascii := printf_c (int_to_char d + 97).

Definition name_of_index (idx : Z) : string :=
  string_of_list_ascii (map letter (name_chars idx)).

(** ** Runs of a trace object *)



(** What happens to a traced event between its construction and the end
    of the simulation: the kernel triggers it, which assigns the trigger
    stamp, and the trace file writes the trace. *)
Inductive event_action : Type :=
| Fire (stamp : Z)
| Write.

Fixpoint event_run (acts : list event_action) (f : option FILE)
         (tr : bsm_sc_event_trace.t)
  : option (option FILE * bsm_sc_event_trace.t * list call) :=
  match acts with
  | [] => Some (f, tr, [])
  | Fire s :: acts' => event_run acts' f (bsm_sc_event_trace.set_trigger_stamp s tr)
  | Write :: acts' =>
      '(f', tr', cs) ← bsm_sc_event_trace.write f tr;
      '(f'', tr'', cs') ← event_run acts' f' tr';
      Some (f'', tr'', cs ++ cs')
  end.

(** The number of firings in [acts] that change the trigger stamp, which
    is [stamp] at the start. *)
Fixpoint stamp_changes (acts : list event_action) (stamp : Z) : nat :=
  match acts with
  | [] => O
  | Fire s :: acts' =>
      ((if (s =? stamp)%Z then 0 else 1) + stamp_changes acts' s)%nat
  | Write :: acts' => stamp_changes acts' stamp
  end.

(** The number of times text was put on the stream. *)
Fixpoint report_count (cs : list call) : nat :=
  match cs with
  | [] => O
  | Wrote true :: cs' => S (report_count cs')
  | _ :: cs' => report_count cs'
  end.

(** A trace object whose traced type has a reflexive equality, and whose
    [write] samples the traced object itself. *)
Definition samples_traced_object (o : trace_object) : Prop :=
  match o with
  | Value_trace T C _ => forall v : T, op_ne v v = false
  | Sc_time_trace _ => False
  | _ => True
  end.

(** ** Calls made during one invocation of [cycle] *)

Definition is_event_trace (o : trace_object) : bool :=
  match o with Sc_event_trace _ => true | _ => false end.

(** What [changed] and [write] leave untouched: the class of the object
    and its trace type. *)
Definition kind (o : trace_object) : bool * Z :=
  (is_event_trace o, virtual.get_trace_type o).

(** The number of evaluations of [changed] among the calls [cs]. *)
Fixpoint changed_calls (cs : list call) : nat :=
  match cs with
  | [] => O
  | Changed _ :: cs' => S (changed_calls cs')
  | Wrote _ :: cs' => changed_calls cs'
  end.

(** The number of evaluations of [changed] on the trace with index [i]. *)
Fixpoint changed_count (i : nat) (cs : list (nat * call)) : nat :=
  match cs with
  | [] => O
  | (j, Changed _) :: cs' => ((if Nat.eqb j i then 1 else 0) + changed_count i cs')%nat
  | (_, Wrote _) :: cs' => changed_count i cs'
  end.

(** The bound on the evaluations of [changed] for a trace of kind [k]. *)
Definition changed_bound (k : option (bool * Z)) : nat :=
  match k with Some (true, _) => 2%nat | _ => 1%nat end.

(** The calls [cs] of the iterations from index [i] on are in order:
    they concern indices from [i] on, [changed] is evaluated within its
    bound, and text is only written for a trace whose own [changed]
    returned true or whose predecessor is a valid-signal trace whose
    [changed] returned true. *)
Definition sampled_ok (kinds : list (bool * Z)) (i : nat) (cs : list (nat * call)) : Prop :=
  (forall j c, In (j, c) cs -> (i <= j)%nat) /\
  (forall j, (changed_count j cs <= changed_bound (kinds !! j))%nat) /\
  (forall j, In (j, Wrote true) cs ->
     In (j, Changed true) cs \/
     exists k ty, j = S k /\ (i <= k)%nat /\ kinds !! k = Some ty
                  /\ snd ty <> bsm_trace.BSM_TRACE_ORIG /\ In (k, Changed true) cs).

(** ** A small trace file in the middle of a simulation

    Three traces in the order of their registration: an event, a [bool]
    that serves as valid signal for the trace after it, and the [bool]
    data signal.  Since the last sample the event has fired and the valid
    signal has risen; the data signal has not changed.  The simulation is
    at a timed notification at 10 units, without delta-cycle tracing. *)
Definition env_timed : inherited :=
  {| delta_cycles := false;
     initialize := fun tf => (false, tf);
     has_low_units := false;
     low_units_len := 0;
     timestamp_in_trace_units := (10, 0);
     sc_delta_count_at_current_time := 0 |}.

Definition ev_registered : bsm_sc_event_trace.t :=
  bsm_sc_event_trace.ctor 0 "ev" "aaaaa" bsm_type.BT_SIMPLE bsm_trace.BSM_TRIGGER_VAL_BOTH.

Definition valid_registered : value_trace.t bool :=
  bsm_bool_trace.ctor false "valid" "aaaab" bsm_type.BT_SIMPLE
    bsm_trace.BSM_TRIGGER_VAL_BOTH.

Definition data_registered : value_trace.t bool :=
  bsm_bool_trace.ctor false "data" "aaaac" bsm_type.BT_SIMPLE
    bsm_trace.BSM_TRIGGER_VAL_BOTH.

(** What [set_bsm_trace_type] does to a trace that becomes a valid
    signal. *)
Definition as_valid_signal (o : trace_object) : trace_object :=
  map_base (bsm_trace.set_trigger_type bsm_trace.BSM_TRIGGER_VAL_BOTH)
    (map_base (bsm_trace.set_trace_type bsm_trace.BSM_TRACE_VAL) o).

Definition tf_midrun : bsm_trace_file.t :=
  {| fp := Some EmptyString;
     bsm_name_index := 3;
     previous_time_units_low := 0;
     previous_time_units_high := 0;
     traces :=
       [ Sc_event_trace (bsm_sc_event_trace.set_trigger_stamp 1 ev_registered);
         as_valid_signal (Value_trace bool _ (value_trace.set_object true valid_registered));
         Value_trace bool _ data_registered ];
     bsm_print_type := bsm_type.BT_SIMPLE;
     bsm_trace_enable := true |}.

(** The calls [cycle] makes on it. *)
Definition calls_midrun : list (nat * call) :=
  [ (0%nat, Changed true); (0%nat, Changed true); (0%nat, Wrote true);
    (1%nat, Changed true); (1%nat, Wrote false);
    (2%nat, Wrote true) ].

(** C7 as the specification states it: [changed] is evaluated at most once
    on every trace, and text is written for a trace only if its own
    [changed] returned true. *)
Definition sampled_as_claimed (cs : list (nat * call)) : Prop :=
  (forall i, (changed_count i cs <= 1)%nat) /\
  (forall i, In (i, Wrote true) cs -> In (i, Changed true) cs).

(** ** Executions of a process body *)

(** [n] executions of a process body in a row. *)
Fixpoint execute_times {W} (n : nat) (entry : SC_ENTRY_FUNC W) (host : sc_process_host W)
         (w : W) : option (sc_process_host W * W) :=
  match n with
  | O => Some (host, w)
  | S n' =>
      '(host', w') ← execute entry host w;
      execute_times n' entry host' w'
  end.

(** A callable used in examples: a counter that returns its value and
    counts up. *)
#[export] Instance counter_Callable {G} : Callable (memory Z G) Z Z :=
  fun count w => (count, count + 1, w).

(** A callable without result: it drops the cell at address 1. *)
#[export] Instance eraser_Callable {G} : Callable (memory Z G) unit unit :=
  fun _ w => (tt, tt, {| heap := delete 1%N (heap w); globals := globals w |}).

(** ** A short run of the kernel with a trace file attached

    Delta-cycle tracing is on and the file has been initialized.  A
    process asks for a notification at 10 units, the kernel advances the
    time to it and runs one more delta cycle. *)
Definition tracer_initialized : tracer :=
  {| tracer_delta_cycles := true;
     tracer_initialize := fun _ tf => (false, tf);
     tracer_has_low_units := false;
     tracer_low_units_len := 0 |}.

Definition kernel_start : sim_kernel.t :=
  {| sim_kernel.now := (0, 0); sim_kernel.timed := []; sim_kernel.delta_count := 0 |}.

Definition short_run : list sim_kernel.phase :=
  [ sim_kernel.delta_cycle [((10, 0), 0%nat)];
    sim_kernel.time_advance;
    sim_kernel.delta_cycle [] ].

(** ** A trace file with a time trace behind a valid signal

    The traced [sc_time] held 5 when the trace was registered and holds 7
    now; the valid signal has risen since the last sample. *)
Definition tf_valid_time : bsm_trace_file.t :=
  {| fp := Some EmptyString;
     bsm_name_index := 2;
     previous_time_units_low := 0;
     previous_time_units_high := 0;
     traces :=
       [ as_valid_signal
           (Value_trace bool _
              (value_trace.set_object true
                 (bsm_bool_trace.ctor false "valid" "aaaaa" bsm_type.BT_VCD
                    bsm_trace.BSM_TRIGGER_VAL_BOTH)));
         Sc_time_trace
           (bsm_sc_time_trace.set_object 7
              (bsm_sc_time_trace.ctor 5 "t" "aaaab" bsm_type.BT_VCD
                 bsm_trace.BSM_TRIGGER_VAL_BOTH)) ];
     bsm_print_type := bsm_type.BT_VCD;
     bsm_trace_enable := true |}.

(** ** Names with brackets *)

Definition is_bracket (c : ascii) : bool := Ascii.eqb c "[" || Ascii.eqb c "]".

Definition has_bracket (name : string) : bool :=
  existsb is_bracket (list_ascii_of_string name).

(** What [remove_bsm_name_problems] puts in the place of a character. *)
Definition without_bracket (c : ascii) : ascii :=
  if Ascii.eqb c "[" then "("%char else if Ascii.eqb c "]" then ")"%char else c.

(** The console after the names [names] have gone through
    [remove_bsm_name_problems], one after the other. *)
Fixpoint remove_all_name_problems (names : list string) (con : console) : console :=
  match names with
  | [] => con
  | name :: names' =>
      remove_all_name_problems names' (snd (remove_bsm_name_problems name con))
  end.

(** The warning as it appears on [std::cout]. *)
Definition name_problems_warning : string :=
  "BSM Trace Warning:" +:+ endl +:+ name_problems_message +:+ endl +:+ endl.

(** ** Binary digits *)

(** The value of a character that is a binary digit. *)
Definition digit_value (c : ascii) : option Z :=
  if Ascii.eqb c "0" then Some 0 else if Ascii.eqb c "1" then Some 1 else None.

(** The number a sequence of binary digits denotes, the most significant
    digit first, after the digits that gave [acc]; no value when a
    character is not a binary digit. *)
Fixpoint binary_value_from (acc : Z) (ds : list ascii) : option Z :=
  match ds with
  | [] => Some acc
  | c :: ds' => d ← digit_value c; binary_value_from (2 * acc + d) ds'
  end.

Definition binary_value (ds : list ascii) : option Z := binary_value_from 0 ds.

(** A numeral without leading zeros. *)
Definition minimal_binary (ds : list ascii) : Prop :=
  ds = ["0"%char] \/ head ds = Some "1"%char.

Definition binary_digit (c : ascii) : Prop := c = "0"%char \/ c = "1"%char.

(** ** Sampling, step by step *)

(** The members of a trace file that sampling leaves alone. *)
Definition settings (tf : t) : Z * (Z * Z) * Z * bool :=
  (bsm_name_index tf, (previous_time_units_high tf, previous_time_units_low tf),
   bsm_print_type tf, bsm_trace_enable tf).

(** The stream after the time stamp of the first change has been
    printed, if it is to be printed. *)
Definition stamped (env : inherited) (h l : Z) (s : sampling) : option (option FILE * bool) :=
  if negb (time_printed s) && (bsm_print_type (file s) =? bsm_type.BT_VCD)
  then tf ← print_time_stamp env h l (file s); Some (fp tf, true)
  else Some (fp (file s), time_printed s).

(** The comparison [!=] of the traced type never tells a value from
    itself (a floating-point NaN would). *)
Definition compares_reflexively (o : trace_object) : Prop :=
  match o with
  | Value_trace T C _ => forall v : T, op_ne v v = false
  | _ => True
  end.

Definition is_time_trace (o : trace_object) : bool :=
  match o with Sc_time_trace _ => true | _ => false end.

(** Nothing is pending on the trace: [changed] returns false. *)
Definition quiet (o : trace_object) : Prop := fst (fst (virtual.changed o)) = false.

(** No time trace is registered right behind a valid signal. *)
Definition time_not_after_valid (ts : list trace_object) : Prop :=
  forall (j : nat) (p o : trace_object),
    ts !! j = Some p -> ts !! S j = Some o -> is_time_trace o = true ->
    virtual.get_trace_type p = bsm_trace.BSM_TRACE_ORIG.

(** What decides how the loop of [cycle] treats a trace and the one
    behind it. *)
Definition trace_class (o : trace_object) : bool * Z :=
  (is_time_trace o, virtual.get_trace_type o).


(** A trace file whose last trace is a valid signal that has risen: no
    data signal is registered behind it. *)
Definition tf_trailing_valid : bsm_trace_file.t :=
  set_traces
    [ Value_trace bool _ data_registered;
      as_valid_signal (Value_trace bool _ (value_trace.set_object true valid_registered)) ]
    tf_midrun.

(** The inherited members of a file that has been initialized: what
    [initialize] then does is to return false. *)
Definition initialized (env : inherited) : inherited :=
  {| delta_cycles := delta_cycles env;
     initialize := fun tf => (false, tf);
     has_low_units := has_low_units env;
     low_units_len := low_units_len env;
     timestamp_in_trace_units := timestamp_in_trace_units env;
     sc_delta_count_at_current_time := sc_delta_count_at_current_time env |}.

(** The file [cycle] works on: the file as it is when the call returns
    before [initialize] is reached, and the file [initialize] leaves
    otherwise. *)
Definition after_initialize (env : inherited) (this_is_a_delta_cycle : bool) (tf : t) : t :=
  if negb (delta_cycles env) && this_is_a_delta_cycle then tf
  else snd (initialize env tf).

(** The inherited members at the first call of [cycle] on a file whose
    [initialize] sets the widths, as [do_initialize] does, and returns
    true. *)
Definition env_first_call : inherited :=
  {| delta_cycles := false;
     initialize := fun tf => (true, set_traces (set_width <$> traces tf) tf);
     has_low_units := false;
     low_units_len := 0;
     timestamp_in_trace_units := (0, 0);
     sc_delta_count_at_current_time := 0 |}.

(** Every trace of the file has the print type of the file. *)
Definition print_types_agree (tf : t) : Prop :=
  Forall (fun o => bsm_trace.bsm_trace_print_type (virtual.base o) = bsm_print_type tf)
         (traces tf).

(** ** Registration *)

(** Successive calls of [trace] overloads: for each call, what
    [add_trace_check] answers and the constructor of the trace class. *)
Fixpoint trace_all (requests : list (bool * (string -> Z -> trace_object))) (tf : t) : t :=
  match requests with
  | [] => tf
  | (check, make) :: requests' => trace_all requests' (trace check make tf)
  end.

(** The BSM names of the registered traces, in the order of registration. *)
Definition bsm_names (tf : t) : list string :=
  (fun o => bsm_trace.bsm_name (virtual.base o)) <$> traces tf.

(** A constructor that gives the trace the BSM name it is handed, as
    every trace class does. *)
Definition keeps_bsm_name (make : string -> Z -> trace_object) : Prop :=
  forall bsm_name_ print_type_,
    bsm_trace.bsm_name (virtual.base (make bsm_name_ print_type_)) = bsm_name_.

(** Three requests: two [bool] signals that are registered and, between
    them, one that [add_trace_check] turns down. *)
Definition three_requests : list (bool * (string -> Z -> trace_object)) :=
  [ (true, fun bsm_name_ print_type_ =>
             Value_trace bool _
               (bsm_bool_trace.ctor false "valid" bsm_name_ print_type_
                  bsm_trace.BSM_TRIGGER_VAL_BOTH));
    (false, fun bsm_name_ print_type_ =>
              Value_trace bool _
                (bsm_bool_trace.ctor false "late" bsm_name_ print_type_
                   bsm_trace.BSM_TRIGGER_VAL_BOTH));
    (true, fun bsm_name_ print_type_ =>
             Value_trace bool _
               (bsm_bool_trace.ctor false "data" bsm_name_ print_type_
                  bsm_trace.BSM_TRIGGER_VAL_BOTH)) ].

(** ** Initialization *)

(** What a loop that writes some of the traces does to each of them:
    the trace is left as it is, or it is the result of a [write]; [sel]
    tells which traces are written to the stream. *)
Definition dumped_as (sel : trace_object -> bool) (o o' : trace_object) : Prop :=
  if sel o
  then exists f r, virtual.write f o = Some r /\ o' = snd (fst r)
  else o' = o \/ exists r, virtual.write None o = Some r /\ o' = snd (fst r).




(** What the base class and the kernel answer at the start of a
    simulation. *)
Definition ini_start : initialization :=
  {| localtime_string := "Jan 01, 2020       00:00:00";
     sc_version := "SystemC 2.3.1";
     fs_unit_to_str_trace_unit_fs := "1 ps";
     sc_time_stamp_to_seconds := "0";
     open_fp := fun tf => Some (set_fp (Some EmptyString) tf) |}.

(** ** [sc_logic] values *)

(** The character a [bsm_sc_logic_trace] writes for a value. *)
Definition sc_logic_vcd_char (v : sc_logic) : ascii :=
  match v with
  | Log_0 => "0" | Log_1 => "1" | Log_Z => "z" | Log_X => "x"
  end%char.

(** An [sc_logic] trace that waits for rising edges; the signal was
    unknown when it was registered and is at 1 now. *)
Definition logic_x_to_1 : bsm_sc_logic_trace.t :=
  bsm_sc_logic_trace.set_object Log_1
    (bsm_sc_logic_trace.ctor Log_X "ready" "aaaaa" bsm_type.BT_VCD
       bsm_trace.BSM_TRIGGER_VAL_POS).

(** ** [bsm_trace_object] *)

(** The kinds of object [bsm_trace_object] traces. *)
Definition signal_kinds : list string := ["sc_signal"; "sc_clock"]%string.

Definition port_kinds : list string := ["sc_in"; "sc_out"; "sc_inout"]%string.

(** The BSM types traced as a real number and as a bit vector. *)
Definition real_bsm_types : list string :=
  ["sc_int"; "sc_uint"; "sc_bigint"; "sc_biguint"; "sc_fixed"; "sc_fixed_fast";
   "sc_ufixed"]%string.

Definition vector_bsm_types : list string := ["sc_bv"; "sc_lv"]%string.

(** What the function for the kind of the object casts the object to:
    signals and clocks to [sc_interface], ports to [sc_port_base]. *)
Definition bsm_interface_of (scObj : sc_object) : option (string * string) :=
  if bool_decide (obj_kind scObj ∈ signal_kinds) then as_sc_interface scObj
  else if bool_decide (obj_kind scObj ∈ port_kinds) then as_sc_port_base scObj
  else None.

(** The value line of an interface trace in VCD mode. *)
Definition interface_vcd_line (ty value bsm_name : string) : string :=
  (if bool_decide (ty ∈ vector_bsm_types)
   then "b" +:+ string_of_list_ascii (strip_leading_bits (list_ascii_of_string value))
   else "r" +:+ value) +:+ " " +:+ bsm_name.

(** The three functions differ in the cast only. *)
Definition trace_cast api (cast : option (string * string)) (castable : cpp_type -> bool)
           (scObj : sc_object) (tf : t) : bool * t :=
  match cast with
  | None => (false, tf)
  | Some (strBSMType, bsm_string) =>
      if compare_0 strBSMType "Generic"
      then trace_generic api castable scObj tf
      else trace_by_bsm_type api strBSMType bsm_string scObj tf
  end.

(** An [sc_signal] of a logic vector that holds 0010, and the API of a
    file that accepts new traces.  [sc_trace] is reached for objects of
    BSM type "Generic" only. *)
Definition lv_signal : sc_object :=
  {| obj_kind := "sc_signal";
     obj_name := "top.bus";
     as_sc_interface := Some ("sc_lv", "0010")%string;
     as_sc_port_base := None;
     is_sc_signal := fun _ => false;
     is_sc_in := fun _ => false;
     is_sc_inout := fun _ => false |}.

Definition api_accepting : tracing_api :=
  {| sc_trace := fun _ _ tf => tf;
     add_trace_check := fun _ _ => true |}.

(* ===================================================================== *)
(** * Part III: properties                                                 *)
(* ===================================================================== *)


(** ** C strings and [strip_leading_bits] *)

Lemma deref_eq_iff (buf : list ascii) (p : nat) (c : ascii) :
  c <> NUL -> (Ascii.eqb (deref buf p) c = true <-> buf !! p = Some c).
Proof.
  intros Hc. unfold deref. rewrite Ascii.eqb_eq.
  destruct (buf !! p) as [a|]; simpl; split; intros H; try congruence.
Qed.

(** With enough fuel the scanning loop stops exactly at the end of the run. *)
Lemma skip_first_char_stops (c : ascii) (buf : list ascii) (k : nat) :
  c <> NUL ->
  (forall i, (i < k)%nat -> buf !! i = Some c) -> buf !! k <> Some c ->
  forall fuel p, (p <= k)%nat -> (k < p + fuel)%nat ->
  skip_first_char fuel buf c p = k.
Proof.
  intros Hc Hrun Hend. induction fuel as [|fuel IH]; intros p Hp Hfuel.
  - lia.
  - simpl. destruct (Ascii.eqb (deref buf p) c) eqn:E.
    + apply deref_eq_iff in E; [|assumption].
      assert (p <> k) by (intros ->; contradiction).
      apply IH; lia.
    + destruct (decide (p = k)) as [->|Hne]; [reflexivity|].
      assert (Hlt : (p < k)%nat) by lia.
      apply Hrun, deref_eq_iff in Hlt; [congruence | assumption].
Qed.

Lemma leading_run_le_length (c : ascii) (s : list ascii) (k : nat) :
  leading_run c s k -> (k <= length s)%nat.
Proof.
  intros [Hrun _]. destruct k as [|k]; [lia|].
  specialize (Hrun k ltac:(lia)). apply lookup_lt_Some in Hrun. lia.
Qed.

(** C9.  [strip_leading_bits] returns its argument unchanged when it has
    fewer than two characters or does not start with '0', 'x' or 'z'.
    Otherwise, with [c] the first character and [k] the length of the
    maximal leading run of [c]: when [c] is '0' and the run is followed by
    '1' the result is the suffix after the whole run, and in every other
    case it is the suffix that starts at the last character of the run. *)
Theorem strip_leading_bits_spec (s : list ascii) :
  (((length s < 2)%nat \/
    (forall c, s !! 0%nat = Some c ->
               c <> "0"%char /\ c <> "x"%char /\ c <> "z"%char)) ->
   strip_leading_bits s = s) /\
  (forall c k,
     (2 <= length s)%nat -> s !! 0%nat = Some c ->
     c = "0"%char \/ c = "x"%char \/ c = "z"%char ->
     leading_run c s k ->
     (c = "0"%char /\ s !! k = Some "1"%char -> strip_leading_bits s = drop k s) /\
     (~ (c = "0"%char /\ s !! k = Some "1"%char) ->
      strip_leading_bits s = drop (k - 1) s)).
Proof.
  unfold strip_leading_bits, strip_leading_bits_pos, c_str_at, strlen. split.
  - intros [Hlen | Hfirst].
    + apply Nat.ltb_lt in Hlen. rewrite Hlen. reflexivity.
    + destruct (length s <? 2)%nat; [reflexivity|].
      unfold deref. destruct (s !! 0%nat) as [c|] eqn:E; simpl.
      * destruct (Hfirst c eq_refl) as (H0 & Hx & Hz).
        apply Ascii.eqb_neq in H0, Hx, Hz. rewrite H0, Hx, Hz. reflexivity.
      * reflexivity.
  - intros c k Hlen Hhd Hc Hrun.
    assert (Hnul : c <> NUL) by (destruct Hc as [->| [->| ->]]; discriminate).
    assert (Hd0 : deref s 0 = c) by (unfold deref; rewrite Hhd; reflexivity).
    apply Nat.ltb_ge in Hlen as Hlen'. rewrite Hlen'. rewrite Hd0.
    assert (Hguard : negb (Ascii.eqb c "z") && negb (Ascii.eqb c "x")
                     && negb (Ascii.eqb c "0") = false)
      by (destruct Hc as [->| [->| ->]]; reflexivity).
    rewrite Hguard. simpl orb. cbv iota.
    pose proof (leading_run_le_length _ _ _ Hrun) as Hk.
    destruct Hrun as [Hrun Hend].
    rewrite (skip_first_char_stops c s k Hnul Hrun Hend) by lia.
    split.
    + intros [-> H1]. unfold deref. rewrite H1. reflexivity.
    + intros Hnot.
      destruct (Ascii.eqb c "0" && Ascii.eqb (deref s k) "1") eqn:E; [|reflexivity].
      exfalso. apply Hnot. apply andb_true_iff in E as [E0 E1].
      apply Ascii.eqb_eq in E0. split; [assumption|].
      apply deref_eq_iff in E1; [assumption | discriminate].
Qed.

(** The comment of the source function, replayed: "000z100" has the run
    "000" in front, which collapses to a single '0'. *)
Lemma strip_leading_bits_spec_witness :
  strip_leading_bits (list_ascii_of_string "0") = list_ascii_of_string "0"
  /\ strip_leading_bits (list_ascii_of_string "1000") = list_ascii_of_string "1000"
  /\ strip_leading_bits (list_ascii_of_string "0001")
     = drop 3 (list_ascii_of_string "0001")
  /\ strip_leading_bits (list_ascii_of_string "000z100")
     = drop (3 - 1) (list_ascii_of_string "000z100").
Proof.
  split; [|split; [|split]].
  - apply (proj1 (strip_leading_bits_spec (list_ascii_of_string "0"))).
    left. simpl. lia.
  - apply (proj1 (strip_leading_bits_spec (list_ascii_of_string "1000"))).
    right. intros c [= <-]. repeat split; discriminate.
  - refine (proj1 (proj2 (strip_leading_bits_spec (list_ascii_of_string "0001"))
                     "0"%char 3%nat _ _ _ _) _).
    + simpl. lia.
    + reflexivity.
    + left. reflexivity.
    + split.
      * intros i Hi. destruct i as [|[|[|i]]]; try reflexivity. lia.
      * simpl. discriminate.
    + split; reflexivity.
  - refine (proj2 (proj2 (strip_leading_bits_spec (list_ascii_of_string "000z100"))
                     "0"%char 3%nat _ _ _ _) _).
    + simpl. lia.
    + reflexivity.
    + left. reflexivity.
    + split.
      * intros i Hi. destruct i as [|[|[|i]]]; try reflexivity. lia.
      * simpl. discriminate.
    + intros [_ H]. simpl in H. discriminate.
Defined.

Example strip_leading_bits_ex1 :
  strip_leading_bits (list_ascii_of_string "000z100") = list_ascii_of_string "0z100".
Proof. reflexivity. Qed.

Example strip_leading_bits_ex2 :
  strip_leading_bits (list_ascii_of_string "0000010101") = list_ascii_of_string "10101".
Proof. reflexivity. Qed.

Example strip_leading_bits_ex3 :
  strip_leading_bits (list_ascii_of_string "000") = list_ascii_of_string "0".
Proof. reflexivity. Qed.

Example strip_leading_bits_ex4 :
  strip_leading_bits (list_ascii_of_string "xxxz10") = list_ascii_of_string "xz10".
Proof. reflexivity. Qed.

(** ** What the writers put on the stream *)

Example uint64_write_simple :
  option_map (fun r => fst (fst r))
    (value_trace.write (Some EmptyString)
       (bsm_uint64_trace.ctor 5 "n" "aaaaa" 4 bsm_type.BT_SIMPLE
          bsm_trace.BSM_TRIGGER_VAL_BOTH))
  = Some (Some "0101"%string).
Proof. reflexivity. Qed.

Example uint64_write_vcd :
  option_map (fun r => fst (fst r))
    (value_trace.write (Some EmptyString)
       (bsm_uint64_trace.ctor 5 "n" "aaaaa" 4 bsm_type.BT_VCD
          bsm_trace.BSM_TRIGGER_VAL_BOTH))
  = Some (Some "b101 aaaaa"%string).
Proof. reflexivity. Qed.

(** A value that does not fit the declared width is written as x's. *)
Example uint64_write_overflow :
  option_map (fun r => fst (fst r))
    (value_trace.write (Some EmptyString)
       (bsm_uint64_trace.ctor 17 "n" "aaaaa" 4 bsm_type.BT_VCD
          bsm_trace.BSM_TRIGGER_VAL_BOTH))
  = Some (Some "bx aaaaa"%string).
Proof. reflexivity. Qed.

Example bool_write_vcd :
  option_map (fun r => fst (fst r))
    (value_trace.write (Some EmptyString)
       (bsm_bool_trace.ctor true "b" "aaaaa" bsm_type.BT_VCD
          bsm_trace.BSM_TRIGGER_VAL_BOTH))
  = Some (Some "1aaaaa"%string).
Proof. reflexivity. Qed.

Example interface_write_vcd :
  option_map (fun r => fst (fst r))
    (value_trace.write (Some EmptyString)
       (bsm_interface_trace.ctor "0010" "s" "aaaaa" bsm_type.BT_VCD "b"
          bsm_trace.BSM_TRIGGER_VAL_BOTH))
  = Some (Some "b10 aaaaa"%string).
Proof. reflexivity. Qed.

(** A [write] that returns has recorded the value, and has put the
    formatted text on the stream it was given. *)
Lemma value_write_Some {T} (f : option FILE) (tr : value_trace.t T) f' tr' cs :
  value_trace.write f tr = Some (f', tr', cs) ->
  tr' = value_trace.set_old_value (value_trace.object tr) tr
  /\ cs = [Wrote (bool_decide (is_Some f))]
  /\ match f with
     | Some file =>
         exists text,
           value_trace.format tr (value_trace.base tr) (value_trace.object tr) = Some text
           /\ f' = Some (fputs text file)
     | None => f' = None
     end.
Proof.
  unfold value_trace.write. destruct f as [file|]; intros Hw.
  - apply bind_Some in Hw as (text & Ht & [= <- <- <-]). eauto.
  - injection Hw as <- <- <-. auto.
Qed.

Lemma sc_time_write_Some (f : option FILE) (tr : bsm_sc_time_trace.t) f' tr' cs :
  bsm_sc_time_trace.write f tr = Some (f', tr', cs) ->
  exists s',
    value_trace.write f (bsm_sc_time_trace.super tr) = Some (f', s', cs)
    /\ tr' = {| bsm_sc_time_trace.super := s';
                bsm_sc_time_trace.object := bsm_sc_time_trace.object tr |}.
Proof.
  unfold bsm_sc_time_trace.write. intros Hw.
  apply bind_Some in Hw as ([[f1 s1] cs1] & Hw & [= <- <- <-]). eauto.
Qed.

(** Inversion of a [virtual.write] that returned, for the classes built
    on [value_trace]. *)
Ltac value_write_inv Hw :=
  let f1 := fresh "f" in
  let tr1 := fresh "tr" in
  let cs1 := fresh "cs" in
  apply bind_Some in Hw as ([[f1 tr1] cs1] & Hw & [= <- <- <-]);
  try (apply sc_time_write_Some in Hw as (? & Hw & ->));
  apply value_write_Some in Hw as (-> & -> & Hw).

Example T_trace_write :
  fst (fst (bsm_T_trace.write (Some EmptyString)
              (bsm_T_trace.set_width
                 (bsm_T_trace.ctor "00x1" "v" "aaaaa" bsm_enum.BSM_WIRE bsm_type.BT_VCD
                    bsm_trace.BSM_TRIGGER_VAL_BOTH))))
  = Some "b0x1 aaaaa"%string.
Proof. reflexivity. Qed.

Example print_time_stamp_low_units :
  option_map fp
    (print_time_stamp (mk_inherited false (fun tf => (false, tf)) true 3 (12, 5) 0) 12 5
       (set_fp (Some EmptyString) (ctor bsm_type.BT_VCD)))
  = Some (Some ("#12005" +:+ String newline EmptyString)).
Proof. reflexivity. Qed.

(** ** [obtain_name] *)

Lemma int_to_char_small (x : Z) : -128 <= x < 128 -> int_to_char x = x.
Proof.
  intros H. unfold int_to_char.
  destruct (Z_lt_le_dec x 0) as [Hneg|Hpos].
  - replace (x mod 256) with (x + 256) by (apply Z.mod_unique with (-1); lia).
    destruct (x + 256 <? 128) eqn:E; [apply Z.ltb_lt in E|]; lia.
  - rewrite Z.mod_small by lia.
    destruct (x <? 128) eqn:E; [|apply Z.ltb_ge in E]; lia.
Qed.

Lemma printf_c_code (x : Z) : 0 <= x < 256 -> Z.of_N (N_of_ascii (printf_c x)) = x.
Proof.
  intros H. unfold printf_c. rewrite Z.mod_small by lia.
  rewrite N_ascii_embedding by lia. lia.
Qed.

Lemma printf_c_not_NUL (x : Z) : 0 < x < 256 -> Ascii.eqb (printf_c x) NUL = false.
Proof.
  intros H. apply Ascii.eqb_neq. intros E.
  apply (f_equal (fun c => Z.of_N (N_of_ascii c))) in E.
  rewrite printf_c_code in E by lia. simpl in E. lia.
Qed.

Lemma rem_26_bounds (x : Z) : -26 < Z.rem x 26 < 26.
Proof. pose proof (Z.rem_bound_abs x 26 ltac:(lia)). lia. Qed.

Lemma rem_26_nonneg (x : Z) : 0 <= x -> 0 <= Z.rem x 26 < 26.
Proof. intros H. apply Z.rem_bound_pos; lia. Qed.

Lemma letter_code (d : Z) : -26 < d < 26 -> Z.of_N (N_of_ascii (letter d)) = d + 97.
Proof.
  intros H. unfold letter. rewrite int_to_char_small by lia. apply printf_c_code. lia.
Qed.

Lemma letter_not_NUL (d : Z) : -26 < d < 26 -> Ascii.eqb (letter d) NUL = false.
Proof.
  intros H. unfold letter. rewrite int_to_char_small by lia. apply printf_c_not_NUL. lia.
Qed.

Lemma letter_inj (d e : Z) : -26 < d < 26 -> -26 < e < 26 -> letter d = letter e -> d = e.
Proof.
  intros Hd He E. apply (f_equal (fun c => Z.of_N (N_of_ascii c))) in E.
  rewrite !letter_code in E by assumption. lia.
Qed.

Lemma name_chars_bounds (idx : Z) :
  0 <= idx -> Forall (fun d => -26 < d < 26) (name_chars idx).
Proof.
  intros H. unfold name_chars.
  repeat constructor; try apply rem_26_bounds.
  all: pose proof (Z.mod_pos_bound idx 26 ltac:(lia)); lia.
Qed.

Lemma obtain_name_string (tf : t) :
  0 <= bsm_name_index tf ->
  fst (obtain_name tf) = string_of_list_ascii (map letter (name_chars (bsm_name_index tf))).
Proof.
  intros H. pose proof (name_chars_bounds _ H) as Hb.
  unfold name_chars in *. 
  repeat match goal with
         | Hf : Forall _ (_ :: _) |- _ => apply Forall_cons in Hf as [? Hf]
         end.
  unfold obtain_name. cbn [fst]. 
  change (122 - 97 + 1) with 26.
  cbn [std_string_of_buf map string_of_list_ascii].
  fold (letter (Z.rem (Z.quot (unsigned_to_int (bsm_name_index tf / 26)) 26) 26)).
  fold (letter (Z.rem (unsigned_to_int (bsm_name_index tf / 26)) 26)).
  fold (letter (Z.rem (Z.quot (Z.quot (unsigned_to_int (bsm_name_index tf)) 26) 26) 26)).
  fold (letter (Z.rem (Z.quot (unsigned_to_int (bsm_name_index tf)) 26) 26)).
  fold (letter (bsm_name_index tf mod 26)).
  rewrite !letter_not_NUL by assumption. reflexivity.
Qed.

Lemma obtain_name_index (tf : t) :
  bsm_name_index (snd (obtain_name tf)) = (bsm_name_index tf + 1) mod UINT_MOD.
Proof. reflexivity. Qed.

Lemma unsigned_to_int_small (u : Z) : u < 2 ^ 31 -> unsigned_to_int u = u.
Proof.
  intros H. unfold unsigned_to_int.
  destruct (u <? 2 ^ 31) eqn:E; [reflexivity | apply Z.ltb_ge in E; lia].
Qed.

(** Below [2^31] the five characters are digits of the index in base 26. *)
Lemma name_chars_small (idx : Z) :
  0 <= idx < 2 ^ 31 ->
  name_chars idx =
  [ (idx / 26 / 26) mod 26; (idx / 26) mod 26;
    (idx / 26 / 26) mod 26; (idx / 26) mod 26; idx mod 26 ].
Proof.
  intros H. unfold name_chars.
  assert (H26 : 0 <= idx / 26 < 2 ^ 31).
  { split; [apply Z.div_pos; lia|].
    apply Z.le_lt_trans with idx; [apply Z.div_le_upper_bound|]; lia. }
  assert (H676 : 0 <= idx / 26 / 26) by (apply Z.div_pos; lia).
  rewrite !unsigned_to_int_small by lia.
  rewrite (Z.quot_div_nonneg idx 26) by lia.
  rewrite (Z.quot_div_nonneg (idx / 26) 26) by lia.
  rewrite !Z.rem_mod_nonneg by lia.
  reflexivity.
Qed.

Lemma name_chars_nonneg (idx : Z) :
  0 <= idx < 2 ^ 31 -> Forall (fun d => 0 <= d < 26) (name_chars idx).
Proof.
  intros H. rewrite name_chars_small by assumption.
  repeat constructor; apply Z.mod_pos_bound; lia.
Qed.

Lemma name_of_index_inj (i j : Z) :
  0 <= i < 17576 -> 0 <= j < 17576 -> name_of_index i = name_of_index j -> i = j.
Proof.
  intros Hi Hj E. unfold name_of_index in E.
  apply (f_equal list_ascii_of_string) in E.
  rewrite !list_ascii_of_string_of_list_ascii in E.
  pose proof (name_chars_nonneg i ltac:(lia)) as Bi.
  pose proof (name_chars_nonneg j ltac:(lia)) as Bj.
  rewrite name_chars_small in E, Bi by lia.
  rewrite name_chars_small in E, Bj by lia.
  repeat match goal with
         | Hf : Forall _ (_ :: _) |- _ => apply Forall_cons in Hf as [? Hf]
         end.
  cbn [map] in E. injection E as _ _ E4 E5 E6.
  apply letter_inj in E4, E5, E6; try lia.
  assert (i / 26 / 26 < 26) by (apply Z.div_lt_upper_bound; [lia|];
                                apply Z.div_lt_upper_bound; lia).
  assert (j / 26 / 26 < 26) by (apply Z.div_lt_upper_bound; [lia|];
                                apply Z.div_lt_upper_bound; lia).
  assert (0 <= i / 26 / 26) by (apply Z.div_pos; [apply Z.div_pos|]; lia).
  assert (0 <= j / 26 / 26) by (apply Z.div_pos; [apply Z.div_pos|]; lia).
  rewrite (Z.mod_small (i / 26 / 26)) in E4 by lia.
  rewrite (Z.mod_small (j / 26 / 26)) in E4 by lia.
  rewrite (Z.div_mod i 26) by lia. rewrite (Z.div_mod j 26) by lia.
  rewrite (Z.div_mod (i / 26) 26) by lia. rewrite (Z.div_mod (j / 26) 26) by lia.
  rewrite E4, E5, E6. reflexivity.
Qed.

Lemma obtain_names_elem (n : nat) :
  forall tf x,
    0 <= bsm_name_index tf -> bsm_name_index tf + Z.of_nat n < UINT_MOD ->
    In x (obtain_names n tf) ->
    exists j, bsm_name_index tf <= j < bsm_name_index tf + Z.of_nat n
              /\ x = name_of_index j.
Proof.
  induction n as [|n IH]; intros tf x H0 Hn Hin; [contradiction|].
  cbn [obtain_names] in Hin.
  destruct (obtain_name tf) as [nm tf'] eqn:E.
  assert (Enm : nm = fst (obtain_name tf)) by (rewrite E; reflexivity).
  assert (Etf : tf' = snd (obtain_name tf)) by (rewrite E; reflexivity).
  destruct Hin as [<- | Hin].
  - exists (bsm_name_index tf). split; [lia|].
    rewrite Enm. apply obtain_name_string. assumption.
  - assert (Hidx : bsm_name_index tf' = bsm_name_index tf + 1).
    { rewrite Etf, obtain_name_index. apply Z.mod_small. lia. }
    destruct (IH tf' x) as (j & Hj & ->); [lia | lia | assumption |].
    exists j. split; [lia | reflexivity].
Qed.

Lemma obtain_names_NoDup (n : nat) :
  forall tf,
    0 <= bsm_name_index tf -> bsm_name_index tf + Z.of_nat n <= 17576 ->
    NoDup (obtain_names n tf).
Proof.
  induction n as [|n IH]; intros tf H0 Hn; [constructor|].
  cbn [obtain_names].
  destruct (obtain_name tf) as [nm tf'] eqn:E.
  assert (Enm : nm = fst (obtain_name tf)) by (rewrite E; reflexivity).
  assert (Etf : tf' = snd (obtain_name tf)) by (rewrite E; reflexivity).
  assert (Hidx : bsm_name_index tf' = bsm_name_index tf + 1).
  { rewrite Etf, obtain_name_index. apply Z.mod_small. unfold UINT_MOD. lia. }
  apply NoDup_cons. split.
  - rewrite list_elem_of_In. intros Hin.
    apply obtain_names_elem in Hin as (j & Hj & Ej); [| lia | unfold UINT_MOD; lia].
    rewrite Enm, obtain_name_string in Ej by assumption.
    apply name_of_index_inj in Ej; lia.
  - apply IH; lia.
Qed.

(** C10 (as amended).  Every call of [obtain_name] returns five characters
    and advances the name index by one modulo [2^32]; as long as the
    index is below [2^31] each of the five characters is a lower-case
    letter and the index grows by exactly one; and the names handed out by
    the first 17576 calls on a freshly constructed trace file are pairwise
    distinct. *)
Theorem obtain_name_spec :
  (forall tf, 0 <= bsm_name_index tf < UINT_MOD ->
     String.length (fst (obtain_name tf)) = 5%nat /\
     bsm_name_index (snd (obtain_name tf)) = (bsm_name_index tf + 1) mod UINT_MOD) /\
  (forall tf, 0 <= bsm_name_index tf < 2 ^ 31 ->
     Forall lower_case (list_ascii_of_string (fst (obtain_name tf))) /\
     bsm_name_index (snd (obtain_name tf)) = bsm_name_index tf + 1) /\
  (forall type n, Z.of_nat n <= 17576 -> NoDup (obtain_names n (ctor type))).
Proof.
  split; [|split].
  - intros tf H. split; [|apply obtain_name_index].
    rewrite obtain_name_string by lia. reflexivity.
  - intros tf H. split.
    + rewrite obtain_name_string by lia.
      rewrite list_ascii_of_string_of_list_ascii.
      pose proof (name_chars_nonneg _ H) as Hb.
      induction Hb as [|d l Hd _ IH]; constructor; [|exact IH].
      unfold lower_case. rewrite letter_code by lia. lia.
    + rewrite obtain_name_index. apply Z.mod_small. unfold UINT_MOD. lia.
  - intros type n Hn. apply obtain_names_NoDup; simpl; lia.
Qed.

Lemma obtain_name_spec_witness :
  String.length (fst (obtain_name (with_name_index (2 ^ 31) (ctor bsm_type.BT_SIMPLE)))) = 5%nat
  /\ Forall lower_case
       (list_ascii_of_string
          (fst (obtain_name (with_name_index 27 (ctor bsm_type.BT_SIMPLE)))))
  /\ NoDup (obtain_names 3 (ctor bsm_type.BT_SIMPLE)).
Proof.
  split; [|split].
  - refine (proj1 (proj1 obtain_name_spec
                     (with_name_index (2 ^ 31) (ctor bsm_type.BT_SIMPLE)) _)).
    simpl. unfold UINT_MOD. lia.
  - refine (proj1 (proj1 (proj2 obtain_name_spec)
                     (with_name_index 27 (ctor bsm_type.BT_SIMPLE)) _)).
    simpl. lia.
  - refine (proj2 (proj2 obtain_name_spec) bsm_type.BT_SIMPLE 3%nat _).
    simpl. lia.
Defined.

(** C10 as the specification states it (five lower-case letters and an
    index that grows by one on every call) fails once the index has reached
    [2^31], where the conversion to [int] turns it negative, and at
    [2^32 - 1], where the increment wraps around. *)
Lemma obtain_name_not_always_lower_case :
  fst (obtain_name (with_name_index (2 ^ 31) (ctor bsm_type.BT_SIMPLE))) = "syOIy"%string
  /\ ~ Forall lower_case
       (list_ascii_of_string
          (fst (obtain_name (with_name_index (2 ^ 31) (ctor bsm_type.BT_SIMPLE)))))
  /\ bsm_name_index
       (snd (obtain_name (with_name_index (2 ^ 32 - 1) (ctor bsm_type.BT_SIMPLE))))
     <> (2 ^ 32 - 1) + 1.
Proof.
  split; [reflexivity|]. split.
  - intros H. vm_compute list_ascii_of_string in H.
    apply Forall_cons in H as [_ H]. apply Forall_cons in H as [_ H].
    apply Forall_cons in H as [H _]. unfold lower_case in H. simpl in H. lia.
  - vm_compute. discriminate.
Qed.

(** ** [TRACE_CHANGED_IMPLEMENT] *)

Section TraceChangedImplement.
Context {T : Type} `{CppCompare T}.
Implicit Types tr : value_trace.t T.

Lemma value_write_null tr :
  value_trace.write None tr
  = Some (None, value_trace.set_old_value (value_trace.object tr) tr, [Wrote false]).
Proof. reflexivity. Qed.





End TraceChangedImplement.



(** ** [bsm_sc_event_trace] *)

Lemma reports_app (cs cs' : list call) :
  report_count (cs ++ cs') = (report_count cs + report_count cs')%nat.
Proof.
  induction cs as [|[r|[|]] cs IH]; simpl; rewrite ?IH; reflexivity.
Qed.

Lemma sc_event_changed_iff (tr : bsm_sc_event_trace.t) :
  fst (fst (bsm_sc_event_trace.changed tr)) = true <->
  bsm_sc_event_trace.trigger_stamp tr <> bsm_sc_event_trace.old_trigger_stamp tr.
Proof.
  unfold bsm_sc_event_trace.changed. cbn [fst].
  rewrite negb_true_iff, Z.eqb_neq. reflexivity.
Qed.

Lemma sc_event_write_unchanged (f : option FILE) (tr : bsm_sc_event_trace.t) :
  bsm_sc_event_trace.trigger_stamp tr = bsm_sc_event_trace.old_trigger_stamp tr ->
  bsm_sc_event_trace.write f tr = Some (f, tr, [Changed false; Wrote false]).
Proof.
  intros E. unfold bsm_sc_event_trace.write, bsm_sc_event_trace.changed.
  rewrite E, Z.eqb_refl. reflexivity.
Qed.

Lemma sc_event_write_changed (f : FILE) (tr : bsm_sc_event_trace.t) :
  bsm_sc_event_trace.trigger_stamp tr <> bsm_sc_event_trace.old_trigger_stamp tr ->
  bsm_sc_event_trace.write (Some f) tr
  = Some (Some (fputs ("1" +:+ bsm_trace.bsm_name (bsm_sc_event_trace.base tr)) f),
          {| bsm_sc_event_trace.base := bsm_sc_event_trace.base tr;
             bsm_sc_event_trace.trigger_stamp := bsm_sc_event_trace.trigger_stamp tr;
             bsm_sc_event_trace.old_trigger_stamp := bsm_sc_event_trace.trigger_stamp tr |},
          [Changed true; Wrote true]).
Proof.
  intros E. unfold bsm_sc_event_trace.write, bsm_sc_event_trace.changed.
  apply Z.eqb_neq in E. rewrite E. reflexivity.
Qed.

(** Whatever a [write] that returns did, the stamp then recorded is the
    current one. *)
Lemma sc_event_write_records (f : option FILE) (tr : bsm_sc_event_trace.t) r :
  bsm_sc_event_trace.write f tr = Some r ->
  bsm_sc_event_trace.old_trigger_stamp (snd (fst r)) = bsm_sc_event_trace.trigger_stamp tr
  /\ bsm_sc_event_trace.trigger_stamp (snd (fst r)) = bsm_sc_event_trace.trigger_stamp tr
  /\ bsm_sc_event_trace.base (snd (fst r)) = bsm_sc_event_trace.base tr
  /\ (report_count (snd r) <= 1)%nat
  /\ (report_count (snd r) = 1%nat ->
      bsm_sc_event_trace.trigger_stamp tr <> bsm_sc_event_trace.old_trigger_stamp tr).
Proof.
  destruct (Z.eq_dec (bsm_sc_event_trace.trigger_stamp tr)
                     (bsm_sc_event_trace.old_trigger_stamp tr)) as [E|E].
  - rewrite sc_event_write_unchanged by assumption.
    intros [= <-]. cbn. repeat split; auto; try lia; discriminate.
  - destruct f as [f|].
    + rewrite sc_event_write_changed by assumption.
      intros [= <-]. cbn. repeat split; auto; lia.
    + unfold bsm_sc_event_trace.write, bsm_sc_event_trace.changed.
      apply Z.eqb_neq in E. rewrite E. discriminate.
Qed.

Lemma sc_event_write_total (f : FILE) (tr : bsm_sc_event_trace.t) :
  exists f' tr' cs, bsm_sc_event_trace.write (Some f) tr = Some (Some f', tr', cs).
Proof.
  destruct (Z.eq_dec (bsm_sc_event_trace.trigger_stamp tr)
                     (bsm_sc_event_trace.old_trigger_stamp tr)) as [E|E].
  - rewrite sc_event_write_unchanged by assumption. eauto.
  - rewrite sc_event_write_changed by assumption. eauto.
Qed.

(** Over a whole run on an open stream: the run never faults, and the
    number of reports is bounded by the pending change, if any, plus the
    number of firings that changed the stamp. *)
Lemma event_run_reports (acts : list event_action) :
  forall (f : FILE) (tr : bsm_sc_event_trace.t),
  exists f' tr' cs,
    event_run acts (Some f) tr = Some (Some f', tr', cs) /\
    (report_count cs
     <= (if (bsm_sc_event_trace.trigger_stamp tr
             =? bsm_sc_event_trace.old_trigger_stamp tr)%Z
         then 0 else 1)
        + stamp_changes acts (bsm_sc_event_trace.trigger_stamp tr))%nat.
Proof.
  induction acts as [|[s|] acts IH]; intros f tr.
  - exists f, tr, []. split; [reflexivity | simpl; lia].
  - cbn [event_run stamp_changes].
    destruct (IH f (bsm_sc_event_trace.set_trigger_stamp s tr)) as (f' & tr' & cs & E & Hb).
    exists f', tr', cs. split; [exact E|].
    cbn [bsm_sc_event_trace.set_trigger_stamp bsm_sc_event_trace.trigger_stamp
         bsm_sc_event_trace.old_trigger_stamp] in Hb.
    destruct (s =? bsm_sc_event_trace.old_trigger_stamp tr) eqn:E1;
      destruct (bsm_sc_event_trace.trigger_stamp tr
                =? bsm_sc_event_trace.old_trigger_stamp tr) eqn:E2;
      destruct (s =? bsm_sc_event_trace.trigger_stamp tr) eqn:E3;
      lia.
  - cbn [event_run stamp_changes].
    destruct (sc_event_write_total f tr) as (f1 & tr1 & cs1 & Ew).
    rewrite Ew. cbn.
    destruct (sc_event_write_records _ _ _ Ew) as (Hold & Hst & _ & Hle & Hone).
    cbn [fst snd] in Hold, Hst, Hle, Hone.
    destruct (IH f1 tr1) as (f' & tr' & cs & E & Hb).
    rewrite E. cbn. exists f', tr', (cs1 ++ cs). split; [reflexivity|].
    rewrite reports_app. rewrite Hold, Hst, Z.eqb_refl in Hb.
    destruct (bsm_sc_event_trace.trigger_stamp tr
              =? bsm_sc_event_trace.old_trigger_stamp tr) eqn:E2; [|lia].
    apply Z.eqb_eq in E2.
    assert (report_count cs1 <> 1%nat) by (intros H1; apply Hone in H1; contradiction).
    lia.
Qed.

(** C5.  [changed] of an event trace returns true exactly when the
    trigger stamp of the event differs from the recorded one, which is the
    stamp at construction or at the last [write]; [write] on an open
    stream puts text on it and records the current stamp only when there
    is such a change; after a [write] nothing is pending, so that a second
    [write] is silent, and over any run the number of reports is at most
    the number of firings that changed the stamp. *)
Theorem sc_event_trace_reports_once (tr : bsm_sc_event_trace.t) (f : FILE) :
  (fst (fst (bsm_sc_event_trace.changed tr)) = true <->
   bsm_sc_event_trace.trigger_stamp tr <> bsm_sc_event_trace.old_trigger_stamp tr) /\
  (forall s name_ bsm_name_ print_type_ trigger_type_,
     bsm_sc_event_trace.old_trigger_stamp
       (bsm_sc_event_trace.ctor s name_ bsm_name_ print_type_ trigger_type_) = s) /\
  (bsm_sc_event_trace.trigger_stamp tr = bsm_sc_event_trace.old_trigger_stamp tr ->
   bsm_sc_event_trace.write (Some f) tr = Some (Some f, tr, [Changed false; Wrote false])) /\
  (bsm_sc_event_trace.trigger_stamp tr <> bsm_sc_event_trace.old_trigger_stamp tr ->
   exists tr',
     bsm_sc_event_trace.write (Some f) tr
     = Some (Some (fputs ("1" +:+ bsm_trace.bsm_name (bsm_sc_event_trace.base tr)) f),
             tr', [Changed true; Wrote true]) /\
     bsm_sc_event_trace.old_trigger_stamp tr' = bsm_sc_event_trace.trigger_stamp tr) /\
  (exists f' tr' cs,
     bsm_sc_event_trace.write (Some f) tr = Some (Some f', tr', cs) /\
     fst (fst (bsm_sc_event_trace.changed tr')) = false /\
     bsm_sc_event_trace.write (Some f') tr'
     = Some (Some f', tr', [Changed false; Wrote false])) /\
  (forall acts s name_ bsm_name_ print_type_ trigger_type_,
   exists f' tr' cs,
     event_run acts (Some f)
       (bsm_sc_event_trace.ctor s name_ bsm_name_ print_type_ trigger_type_)
     = Some (Some f', tr', cs) /\
     (report_count cs <= stamp_changes acts s)%nat).
Proof.
  split; [apply sc_event_changed_iff|].
  split; [reflexivity|].
  split; [apply sc_event_write_unchanged|].
  split; [|split].
  - intros E. eexists. split; [apply sc_event_write_changed; assumption | reflexivity].
  - destruct (sc_event_write_total f tr) as (f1 & tr1 & cs1 & Ew).
    destruct (sc_event_write_records _ _ _ Ew) as (Hold & Hst & _).
    cbn [fst snd] in Hold, Hst.
    exists f1, tr1, cs1. split; [exact Ew|]. split.
    + apply not_true_is_false. rewrite sc_event_changed_iff. congruence.
    + apply sc_event_write_unchanged. congruence.
  - intros acts s name_ bsm_name_ print_type_ trigger_type_.
    destruct (event_run_reports acts f
                (bsm_sc_event_trace.ctor s name_ bsm_name_ print_type_ trigger_type_))
      as (f' & tr' & cs & E & Hb).
    exists f', tr', cs. split; [exact E|].
    cbn [bsm_sc_event_trace.ctor bsm_sc_event_trace.trigger_stamp
         bsm_sc_event_trace.old_trigger_stamp] in Hb.
    rewrite Z.eqb_refl in Hb. lia.
Qed.

(** An event trace built at stamp 3 of an event that has fired since:
    the [write] reports it once. *)
Lemma sc_event_trace_reports_once_witness :
  let ev := bsm_sc_event_trace.ctor 3 "ev" "aaaab" bsm_type.BT_SIMPLE
              bsm_trace.BSM_TRIGGER_VAL_BOTH in
  (* nothing is written as long as the event has not fired *)
  bsm_sc_event_trace.write (Some EmptyString) ev
  = Some (Some EmptyString, ev, [Changed false; Wrote false])
  /\ (* once it has fired, the write reports it and records the stamp *)
  exists tr',
    bsm_sc_event_trace.write (Some EmptyString)
      (bsm_sc_event_trace.set_trigger_stamp 4 ev)
    = Some (Some "1aaaab"%string, tr', [Changed true; Wrote true])
    /\ bsm_sc_event_trace.old_trigger_stamp tr' = 4.
Proof.
  intros ev. split.
  - apply (proj1 (proj2 (proj2 (sc_event_trace_reports_once ev EmptyString)))).
    reflexivity.
  - refine (proj1 (proj2 (proj2 (proj2 (sc_event_trace_reports_once
             (bsm_sc_event_trace.set_trigger_stamp 4 ev) EmptyString)))) _).
    simpl. discriminate.
Defined.

(** ** [write] followed by [changed] *)

(** For every trace class whose [write] samples the traced object itself,
    a [write] that returns leaves nothing pending: [changed] evaluated
    next, with the traced object as it was, returns false. *)
Lemma write_then_changed (f : option FILE) (o : trace_object) r :
  samples_traced_object o ->
  virtual.write f o = Some r ->
  fst (fst (virtual.changed (snd (fst r)))) = false.
Proof.
  destruct o as [T C tr | tr | tr | tr | tr]; intros Hs Hw;
    cbn in Hs; unfold virtual.write in Hw.
  - apply bind_Some in Hw as ([[f' tr'] cs] & Hw & [= <-]).
    apply value_write_Some in Hw as (-> & _). cbn.
    unfold value_trace.changed. cbn. rewrite Hs. reflexivity.
  - injection Hw as <-. cbn. rewrite String.eqb_refl. reflexivity.
  - destruct (bsm_sc_event_trace.write f tr) as [[[f' tr'] cs]|] eqn:E; [|discriminate].
    injection Hw as <-. cbn.
    destruct (sc_event_write_records _ _ _ E) as (Hold & Hst & _).
    cbn [fst snd] in Hold, Hst. rewrite Hold, Hst, Z.eqb_refl. reflexivity.
  - injection Hw as <-. cbn.
    unfold bsm_sc_logic_trace.changed. cbn.
    destruct (bsm_sc_logic_trace.object tr); reflexivity.
  - contradiction.
Qed.

(** C6 at its failing input.  A [bsm_sc_time_trace] built while the traced
    [sc_time] held 5; the variable is then assigned 7 and the trace is
    written, as [do_initialize] does for every trace.  [write], inherited
    from [bsm_uint64_trace], reads the shadow copy, which was last
    refreshed by the constructor: it prints 5, records 5 as the old value
    while the traced object holds 7, and [changed] evaluated next with the
    traced object untouched returns true. *)
Theorem sc_time_trace_write_records_stale_value :
  let tr0 := bsm_sc_time_trace.ctor 5 "now" "aaaaa" bsm_type.BT_SIMPLE
               bsm_trace.BSM_TRIGGER_VAL_BOTH in
  let tr1 := bsm_sc_time_trace.set_object 7 tr0 in
  exists tr2,
    option_map (fun r => snd (fst r)) (bsm_sc_time_trace.write (Some EmptyString) tr1)
    = Some tr2 /\
    bsm_sc_time_trace.object tr2 = 7 /\
    value_trace.old_value (bsm_sc_time_trace.super tr2) = 5 /\
    fst (fst (bsm_sc_time_trace.changed tr2)) = true /\
    fst (fst (virtual.changed
                (snd (fst (default (None, Sc_time_trace tr1, [])
                             (virtual.write (Some EmptyString) (Sc_time_trace tr1)))))))
    = true.
Proof. eexists. split; [reflexivity|]. vm_compute. repeat split. Qed.

(** The same through [cycle]: the loop never evaluates [changed] on the
    trace that follows a valid signal, so a time trace in that place is
    written with the value it had at registration, here 5 (binary 101)
    while the traced time is 7. *)
Example sc_time_trace_behind_valid_signal :
  option_map (fun r => (fp (fst (fst r)), snd r))
    (cycle env_timed false tf_valid_time (mk_globals false []))
  = Some (Some ("#10" +:+ String newline ("b101 aaaab" +:+ String newline
                  (String newline EmptyString))),
          Sampled [ (0%nat, Changed true); (0%nat, Wrote false); (1%nat, Wrote true) ]).
Proof. vm_compute. reflexivity. Qed.

(** ** [cycle] *)

Lemma changed_calls_app (cs cs' : list call) :
  changed_calls (cs ++ cs') = (changed_calls cs + changed_calls cs')%nat.
Proof. induction cs as [|[r|e] cs IH]; simpl; rewrite ?IH; reflexivity. Qed.

Lemma changed_count_app (i : nat) (cs cs' : list (nat * call)) :
  changed_count i (cs ++ cs') = (changed_count i cs + changed_count i cs')%nat.
Proof.
  induction cs as [|[j [r|e]] cs IH]; simpl; rewrite ?IH; try reflexivity. lia.
Qed.

Lemma changed_count_tag (i j : nat) (cs : list call) :
  changed_count i (tag j cs) = if Nat.eqb j i then changed_calls cs else O.
Proof.
  induction cs as [|[r|e] cs IH]; simpl; rewrite ?IH;
    destruct (Nat.eqb j i); reflexivity.
Qed.

Lemma changed_count_absent (i : nat) (cs : list (nat * call)) :
  (forall j c, In (j, c) cs -> j <> i) -> changed_count i cs = O.
Proof.
  induction cs as [|[j [r|e]] cs IH]; intros H; simpl; [reflexivity| |].
  - rewrite IH by (intros k c Hin; apply (H k c); right; exact Hin).
    destruct (Nat.eqb j i) eqn:E; [|reflexivity].
    apply Nat.eqb_eq in E. exfalso. apply (H j (Changed r)); [left; reflexivity | exact E].
  - apply IH. intros k c Hin. apply (H k c). right. exact Hin.
Qed.

Lemma in_tag (i j : nat) (c : call) (cs : list call) :
  In (j, c) (tag i cs) <-> j = i /\ In c cs.
Proof.
  unfold tag. rewrite in_map_iff. split.
  - intros (x & [= <- <-] & Hin). split; [reflexivity | exact Hin].
  - intros [-> Hin]. exists c. split; [reflexivity | exact Hin].
Qed.

(** *** What one virtual call does *)

Lemma value_changed_calls {T} `{CppCompare T} (tr : value_trace.t T) :
  let '(r, tr', cs) := value_trace.changed tr in
  value_trace.base tr' = value_trace.base tr /\ changed_calls cs = 1%nat
  /\ ~ In (Wrote true) cs /\ (r = true -> In (Changed true) cs).
Proof.
  unfold value_trace.changed.
  destruct (op_ne _ _); [destruct (_ || _ || _)|]; cbn;
    repeat split; auto; intuition discriminate.
Qed.

Lemma virtual_changed_calls (o : trace_object) :
  let '(r, o', cs) := virtual.changed o in
  kind o' = kind o /\ changed_calls cs = 1%nat
  /\ ~ In (Wrote true) cs /\ (r = true -> In (Changed true) cs).
Proof.
  destruct o as [T C tr | tr | tr | tr | tr]; cbn [virtual.changed].
  - pose proof (value_changed_calls tr) as Hv.
    destruct (value_trace.changed tr) as [[r tr'] cs].
    destruct Hv as (Hb & ? & ? & ?). unfold kind, virtual.get_trace_type. cbn.
    rewrite Hb. auto.
  - cbn. repeat split; auto; [intuition discriminate|].
    intros ->. left. reflexivity.
  - cbn. repeat split; auto; [intuition discriminate|].
    intros ->. left. reflexivity.
  - unfold bsm_sc_logic_trace.changed.
    destruct (negb _); [destruct (_ || _ || _)|]; cbn;
      repeat split; auto; intuition discriminate.
  - unfold bsm_sc_time_trace.changed.
    pose proof (value_changed_calls
                  (value_trace.set_object (bsm_sc_time_trace.object tr)
                     (bsm_sc_time_trace.super tr))) as Hv.
    destruct (value_trace.changed _) as [[r tr'] cs].
    destruct Hv as (Hb & ? & ? & ?). unfold kind, virtual.get_trace_type. cbn.
    rewrite Hb. auto.
Qed.

Lemma virtual_write_calls (f : option FILE) (o : trace_object) f' o' cs :
  virtual.write f o = Some (f', o', cs) ->
  kind o' = kind o
  /\ changed_calls cs = (if is_event_trace o then 1 else 0)%nat
  /\ (f = None -> ~ In (Wrote true) cs).
Proof.
  destruct o as [T C tr | tr | tr | tr | tr]; unfold virtual.write; intros Hw.
  - value_write_inv Hw. cbn. repeat split; auto.
    intros -> [E|[]]. cbn in E. discriminate.
  - injection Hw as <- <- <-. cbn. repeat split; auto.
    intros -> [E|[]]. cbn in E. discriminate.
  - unfold bsm_sc_event_trace.write, bsm_sc_event_trace.changed in Hw.
    destruct (negb (negb _)).
    + injection Hw as <- <- <-. cbn. repeat split; auto. intuition discriminate.
    + destruct f as [file|]; [|discriminate].
      injection Hw as <- <- <-. cbn. repeat split; auto. discriminate.
  - injection Hw as <- <- <-. cbn. repeat split; auto.
    intros -> [E|[]]. cbn in E. discriminate.
  - value_write_inv Hw. cbn. repeat split; auto.
    intros -> [E|[]]. cbn in E. discriminate.
Qed.

(** *** State bookkeeping of the loop *)

Lemma update_kinds (i : nat) (o : trace_object) (cs : list call) (s : sampling) :
  (kind <$> traces (file s)) !! i = Some (kind o) ->
  kind <$> traces (file (update i o cs s)) = kind <$> traces (file s).
Proof.
  intros H. cbn. rewrite list_fmap_insert. apply list_insert_id. exact H.
Qed.

Lemma print_time_stamp_traces env h l tf tf' :
  print_time_stamp env h l tf = Some tf' -> traces tf' = traces tf.
Proof.
  unfold print_time_stamp. destruct (fp tf); cbn; [|discriminate].
  intros [= <-]. reflexivity.
Qed.

Lemma fputc_fp_state c s s' :
  fputc_fp c s = Some s' ->
  calls s' = calls s /\ traces (file s') = traces (file s).
Proof.
  unfold fputc_fp. destruct (fp (file s)); cbn; [|discriminate].
  intros [= <-]. split; reflexivity.
Qed.

(** The calls of one iteration, started at [i] and leaving the index at
    [i']. *)
Lemma one_iteration_ok (kinds : list (bool * Z)) (i : nat) (ki : bool * Z)
      (cs_i : list call) :
  kinds !! i = Some ki ->
  (changed_calls cs_i <= (if fst ki then 2 else 1))%nat ->
  (In (Wrote true) cs_i -> In (Changed true) cs_i) ->
  sampled_ok kinds i (tag i cs_i)
  /\ (forall j c, In (j, c) (tag i cs_i) -> (j < S i)%nat).
Proof.
  intros Hk Hc Hw. split; [split; [|split]|].
  - intros j c Hin. apply in_tag in Hin as [-> _]. lia.
  - intros j. rewrite changed_count_tag.
    destruct (Nat.eqb i j) eqn:E.
    + apply Nat.eqb_eq in E as <-. rewrite Hk. destruct ki as [[|] ty]; cbn in *; lia.
    + unfold changed_bound. destruct (kinds !! j) as [[[|] ?]|]; lia.
  - intros j Hin. apply in_tag in Hin as [-> Hin]. left. apply in_tag. auto.
  - intros j c Hin. apply in_tag in Hin as [-> _]. lia.
Qed.

Lemma two_iterations_ok (kinds : list (bool * Z)) (i : nat) (ki kd : bool * Z)
      (cs_i cs_d : list call) :
  kinds !! i = Some ki -> kinds !! S i = Some kd ->
  snd ki <> bsm_trace.BSM_TRACE_ORIG ->
  In (Changed true) cs_i ->
  (changed_calls cs_i <= (if fst ki then 2 else 1))%nat ->
  (changed_calls cs_d <= (if fst kd then 1 else 0))%nat ->
  sampled_ok kinds i (tag i cs_i ++ tag (S i) cs_d)
  /\ (forall j c, In (j, c) (tag i cs_i ++ tag (S i) cs_d) -> (j < S (S i))%nat).
Proof.
  intros Hk Hkd Hty Hct Hc Hd. split; [split; [|split]|].
  - intros j c Hin. apply in_app_iff in Hin as [Hin|Hin];
      apply in_tag in Hin as [-> _]; lia.
  - intros j. rewrite changed_count_app, !changed_count_tag.
    destruct (Nat.eqb i j) eqn:E; destruct (Nat.eqb (S i) j) eqn:E'.
    + apply Nat.eqb_eq in E, E'. lia.
    + apply Nat.eqb_eq in E as <-. rewrite Hk. destruct ki as [[|] ty]; cbn in *; lia.
    + apply Nat.eqb_eq in E' as <-. rewrite Hkd. destruct kd as [[|] ty]; cbn in *; lia.
    + unfold changed_bound. destruct (kinds !! j) as [[[|] ?]|]; lia.
  - intros j Hin.
    assert (Hi : In (i, Changed true) (tag i cs_i ++ tag (S i) cs_d))
      by (apply in_app_iff; left; apply in_tag; auto).
    apply in_app_iff in Hin as [Hin|Hin]; apply in_tag in Hin as [-> Hin].
    + left. exact Hi.
    + right. exists i, ki. repeat split; auto.
  - intros j c Hin. apply in_app_iff in Hin as [Hin|Hin];
      apply in_tag in Hin as [-> _]; lia.
Qed.

(** The evaluations of [changed] in the calls of one iteration, counted
    from what each virtual call contributes. *)
Ltac count_calls :=
  rewrite ?changed_calls_app;
  repeat match goal with
         | H : changed_calls _ = _ |- _ => rewrite H; clear H
         end;
  repeat match goal with
         | H : is_event_trace _ = is_event_trace _ |- _ => rewrite H; clear H
         end;
  cbn;
  repeat match goal with
         | |- context [is_event_trace ?o] => destruct (is_event_trace o)
         end;
  lia.

Lemma sample_one_ok env h l (i : nat) (tr : trace_object) (s s' : sampling) (i' : nat) :
  traces (file s) !! i = Some tr ->
  sample_one env h l i tr s = Some (s', i') ->
  exists cs,
    calls s' = calls s ++ cs
    /\ kind <$> traces (file s') = kind <$> traces (file s)
    /\ sampled_ok (kind <$> traces (file s)) i cs
    /\ (forall j c, In (j, c) cs -> (j < i')%nat)
    /\ (i < i')%nat.
Proof.
  intros Hlook Hone.
  assert (Hki : (kind <$> traces (file s)) !! i = Some (kind tr))
    by (rewrite list_lookup_fmap, Hlook; reflexivity).
  unfold sample_one in Hone.
  pose proof (virtual_changed_calls tr) as Hch.
  destruct (virtual.changed tr) as [[c tr1] cs1].
  destruct Hch as (Hk1 & Hc1 & Hnw1 & Hct1).
  assert (Hev1 : is_event_trace tr1 = is_event_trace tr) by exact (f_equal fst Hk1).
  set (s1 := update i tr1 cs1 s) in *.
  assert (Hs1 : kind <$> traces (file s1) = kind <$> traces (file s))
    by (apply update_kinds; rewrite Hk1; exact Hki).
  destruct c.
  - specialize (Hct1 eq_refl).
    destruct (negb (bsm_trace_enable (file s1))).
    + (* tracing disabled: the change is consumed by write(NULL) *)
      apply bind_Some in Hone as ([[f2 tr2] cs2] & Hw & Hone).
      injection Hone as <- <-.
      apply virtual_write_calls in Hw as (Hk2 & Hc2 & Hnw2).
      exists (tag i (cs1 ++ cs2)).
      split; [cbn; unfold tag; rewrite map_app, app_assoc; reflexivity|].
      split; [rewrite update_kinds; [exact Hs1 | rewrite Hs1, Hk2, Hk1; exact Hki]|].
      split; [|split; [|lia]];
        apply (one_iteration_ok _ i (kind tr) (cs1 ++ cs2) Hki).
      * count_calls.
      * intros _. apply in_app_iff. left. exact Hct1.
      * count_calls.
      * intros _. apply in_app_iff. left. exact Hct1.
    + apply bind_Some in Hone as (s2 & Hts & Hone).
      assert (Hs2 : calls s2 = calls s1 /\ traces (file s2) = traces (file s1)).
      { destruct (negb (time_printed s1) && _).
        - apply bind_Some in Hts as (tf & Hp & [= <-]).
          apply print_time_stamp_traces in Hp. split; [reflexivity | exact Hp].
        - injection Hts as <-. split; reflexivity. }
      destruct Hs2 as [Hcalls2 Htr2].
      apply bind_Some in Hone as ([s3 i3] & Hbr & Hone).
      apply bind_Some in Hone as (s4 & Hnl & Hone).
      injection Hone as <- <-.
      apply fputc_fp_state in Hnl as [Hcalls4 Htr4].
      rewrite Hcalls4, Htr4. clear Hcalls4 Htr4 s4.
      destruct (virtual.get_trace_type tr1 =? bsm_trace.BSM_TRACE_ORIG) eqn:Ety.
      * (* an original trace: written to the file *)
        apply bind_Some in Hbr as ([[f2 tr2] cs2] & Hw & Hbr).
        injection Hbr as <- <-.
        apply virtual_write_calls in Hw as (Hk2 & Hc2 & Hnw2).
        exists (tag i (cs1 ++ cs2)).
        split; [cbn; rewrite Hcalls2; cbn; unfold tag;
                rewrite map_app, <- !app_assoc; reflexivity|].
        split.
        { cbn. rewrite list_fmap_insert, Htr2, Hs1. apply list_insert_id.
          rewrite Hk2, Hk1. exact Hki. }
        split; [|split; [|lia]];
          apply (one_iteration_ok _ i (kind tr) (cs1 ++ cs2) Hki).
        -- count_calls.
        -- intros _. apply in_app_iff. left. exact Hct1.
        -- count_calls.
        -- intros _. apply in_app_iff. left. exact Hct1.
      * (* a valid signal: consumed, and the next trace is written *)
        apply bind_Some in Hbr as ([[f2 tr2] cs2] & Hw & Hbr).
        apply virtual_write_calls in Hw as (Hk2 & Hc2 & Hnw2).
        apply bind_Some in Hbr as (data & Hdata & Hbr).
        apply bind_Some in Hbr as ([[f3 data3] cs3] & Hwd & Hbr).
        injection Hbr as <- <-.
        apply virtual_write_calls in Hwd as (Hk3 & Hc3 & _).
        assert (Hkd : (kind <$> traces (file s)) !! S i = Some (kind data)).
        { rewrite <- Hs1, <- Htr2.
          cbn in Hdata. rewrite list_lookup_insert_ne in Hdata by lia.
          rewrite list_lookup_fmap, Hdata. reflexivity. }
        exists (tag i (cs1 ++ cs2) ++ tag (S i) cs3).
        split; [cbn; rewrite Hcalls2; cbn; unfold tag;
                rewrite map_app, <- !app_assoc; reflexivity|].
        split.
        { cbn. rewrite !list_fmap_insert, Htr2, Hs1.
          rewrite (list_insert_id _ i) by (rewrite Hk2, Hk1; exact Hki).
          apply list_insert_id. rewrite Hk3. exact Hkd. }
        assert (Hty : snd (kind tr) <> bsm_trace.BSM_TRACE_ORIG).
        { rewrite <- Hk1. cbn. apply Z.eqb_neq. exact Ety. }
        split; [|split; [|lia]];
          apply (two_iterations_ok _ i (kind tr) (kind data) (cs1 ++ cs2) cs3 Hki Hkd Hty).
        -- apply in_app_iff. left. exact Hct1.
        -- count_calls.
        -- rewrite Hc3. cbn. destruct (is_event_trace data); lia.
        -- apply in_app_iff. left. exact Hct1.
        -- count_calls.
        -- rewrite Hc3. cbn. destruct (is_event_trace data); lia.
  - injection Hone as <- <-.
    exists (tag i cs1).
    split; [reflexivity|]. split; [exact Hs1|].
    split; [|split; [|lia]];
      apply (one_iteration_ok _ i (kind tr) cs1 Hki).
    + rewrite Hc1. destruct (fst (kind tr)); lia.
    + intros Hw. contradiction.
    + rewrite Hc1. destruct (fst (kind tr)); lia.
    + intros Hw. contradiction.
Qed.

Lemma sampled_ok_nil (kinds : list (bool * Z)) (i : nat) : sampled_ok kinds i [].
Proof.
  split; [|split].
  - intros j c [].
  - intros j. cbn. unfold changed_bound. destruct (kinds !! j) as [[[|] ?]|]; lia.
  - intros j [].
Qed.

Lemma sampled_ok_app (kinds : list (bool * Z)) (i i' : nat) (cs cs' : list (nat * call)) :
  sampled_ok kinds i cs -> (forall j c, In (j, c) cs -> (j < i')%nat) -> (i <= i')%nat ->
  sampled_ok kinds i' cs' ->
  sampled_ok kinds i (cs ++ cs').
Proof.
  intros (Hlo & Hcnt & Hw) Hhi Hii (Hlo' & Hcnt' & Hw'). split; [|split].
  - intros j c Hin. apply in_app_iff in Hin as [Hin|Hin].
    + eapply Hlo; eassumption.
    + apply Hlo' in Hin. lia.
  - intros j. rewrite changed_count_app.
    destruct (Nat.lt_ge_cases j i') as [Hj|Hj].
    + rewrite (changed_count_absent j cs').
      * specialize (Hcnt j). lia.
      * intros k c Hin. apply Hlo' in Hin. lia.
    + rewrite (changed_count_absent j cs).
      * specialize (Hcnt' j). lia.
      * intros k c Hin. apply Hhi in Hin. lia.
  - intros j Hin. apply in_app_iff in Hin as [Hin|Hin].
    + destruct (Hw j Hin) as [H|(k & ty & -> & Hk & Hty & Hne & H)].
      * left. apply in_app_iff. auto.
      * right. exists k, ty. repeat split; auto. apply in_app_iff. auto.
    + destruct (Hw' j Hin) as [H|(k & ty & -> & Hk & Hty & Hne & H)].
      * left. apply in_app_iff. auto.
      * right. exists k, ty. repeat split; auto; [lia|]. apply in_app_iff. auto.
Qed.

(** The loop as a whole. *)
Lemma sample_ok env h l (fuel : nat) :
  forall (i : nat) (s s' : sampling),
    sample fuel env h l i s = Some s' ->
    exists cs,
      calls s' = calls s ++ cs
      /\ kind <$> traces (file s') = kind <$> traces (file s)
      /\ sampled_ok (kind <$> traces (file s)) i cs.
Proof.
  induction fuel as [|fuel IH]; intros i s s' Hs; cbn [sample] in Hs.
  - injection Hs as <-. exists []. rewrite app_nil_r.
    split; [reflexivity|]. split; [reflexivity | apply sampled_ok_nil].
  - destruct (traces (file s) !! i) as [tr|] eqn:Hlook.
    + apply bind_Some in Hs as ([s1 i1] & Hone & Hs).
      destruct (sample_one_ok _ _ _ _ _ _ _ _ Hlook Hone)
        as (cs1 & Hc1 & Hk1 & Hok1 & Hhi & Hlt).
      destruct (IH _ _ _ Hs) as (cs2 & Hc2 & Hk2 & Hok2).
      exists (cs1 ++ cs2).
      split; [rewrite Hc2, Hc1, app_assoc; reflexivity|].
      split; [rewrite Hk2; exact Hk1|].
      rewrite Hk1 in Hok2.
      eapply sampled_ok_app; eauto. lia.
    + injection Hs as <-. exists []. rewrite app_nil_r.
      split; [reflexivity|]. split; [reflexivity | apply sampled_ok_nil].
Qed.

(** The fuel given to the loop, the number of traces, is enough: more
    fuel does not change the result. *)
Lemma sample_fuel_stable env h l (fuel : nat) :
  forall (fuel' i : nat) (s : sampling),
    (length (traces (file s)) <= i + fuel)%nat -> (fuel <= fuel')%nat ->
    sample fuel' env h l i s = sample fuel env h l i s.
Proof.
  induction fuel as [|fuel IH]; intros fuel' i s Hlen Hle.
  - assert (Hnone : traces (file s) !! i = None) by (apply lookup_ge_None; lia).
    destruct fuel'; cbn [sample]; [reflexivity|]. rewrite Hnone. reflexivity.
  - destruct fuel' as [|fuel']; [lia|]. cbn [sample].
    destruct (traces (file s) !! i) as [tr|] eqn:Hlook; [|reflexivity].
    destruct (sample_one env h l i tr s) as [[s1 i1]|] eqn:Hone; [|reflexivity].
    cbn. apply IH; [|lia].
    destruct (sample_one_ok _ _ _ _ _ _ _ _ Hlook Hone) as (_ & _ & Hk & _ & _ & Hlt).
    apply (f_equal length) in Hk. rewrite !length_fmap in Hk. lia.
Qed.

(** C7 (as amended).  In an invocation of [cycle] that samples the
    traces, [changed] is evaluated at most once on every trace that is not
    an event trace and at most twice on an event trace, whose [write]
    evaluates it again; and text is written for a trace only if its own
    [changed] returned true in this invocation, or if the trace before it
    is a valid-signal trace (its trace type is not [BSM_TRACE_ORIG]) whose
    [changed] returned true in this invocation. *)
Theorem cycle_sampling_calls env (this_is_a_delta_cycle : bool)
        (tf : bsm_trace_file.t) (g : tracing_globals) tf' g' cs :
  cycle env this_is_a_delta_cycle tf g = Some (tf', g', Sampled cs) ->
  let sampled := traces (snd (initialize env tf)) in
  (forall i, (changed_count i cs <= 2)%nat) /\
  (forall i o, sampled !! i = Some o -> is_event_trace o = false ->
               (changed_count i cs <= 1)%nat) /\
  (forall i, In (i, Wrote true) cs ->
     In (i, Changed true) cs \/
     exists k v, i = S k /\ sampled !! k = Some v
                 /\ virtual.get_trace_type v <> bsm_trace.BSM_TRACE_ORIG
                 /\ In (k, Changed true) cs).
Proof.
  intros Hc sampled. unfold cycle in Hc.
  destruct (negb (delta_cycles env) && this_is_a_delta_cycle); [discriminate|].
  destruct (initialize env tf) as [inited tf1] eqn:Ei.
  destruct inited; [discriminate|].
  destruct (get_time_stamp env tf1) as [time_advanced [h l]].
  destruct (_ && _ && _ && _); [discriminate|].
  destruct (delta_cycles env && negb this_is_a_delta_cycle); [discriminate|].
  apply bind_Some in Hc as ([tf2 cs2] & Hp & [= <- <- <-]).
  unfold print_changes in Hp.
  apply bind_Some in Hp as (s1 & Hs & Hp).
  apply bind_Some in Hp as (s2 & Hnl & [= <- <-]).
  assert (Hcalls : calls s2 = calls s1).
  { destruct (time_printed s1).
    - apply fputc_fp_state in Hnl as [H _]. exact H.
    - injection Hnl as <-. reflexivity. }
  apply sample_ok in Hs as (cs & Hcs & _ & Hlo & Hcnt & Hw).
  cbn [calls file app] in Hcs, Hcnt, Hw. rewrite Hcalls, Hcs.
  subst sampled. cbn [snd].
  split; [|split].
  - intros i. specialize (Hcnt i). unfold changed_bound in Hcnt.
    destruct ((kind <$> traces tf1) !! i) as [[[|] ?]|]; lia.
  - intros i o Hlook Hev. specialize (Hcnt i).
    rewrite list_lookup_fmap, Hlook in Hcnt. cbn in Hcnt. rewrite Hev in Hcnt. exact Hcnt.
  - intros i Hin. destruct (Hw i Hin) as [H|(k & ty & -> & _ & Hty & Hne & H)].
    + left. exact H.
    + right. rewrite list_lookup_fmap in Hty.
      destruct (traces tf1 !! k) as [v|] eqn:Hv; [|discriminate].
      injection Hty as <-. exists k, v. repeat split; auto.
Qed.

(** On the small trace file [changed] is evaluated twice on the event
    trace, by the loop and by the [write] of the trace, and the data
    signal is written although [changed] was not evaluated on it: C7 as
    the specification states it does not hold. *)
Lemma cycle_sampling_not_as_claimed :
  (exists tf' g',
     cycle env_timed false tf_midrun (mk_globals false []) = Some (tf', g', Sampled calls_midrun)
     /\ fp tf' = Some ("1aaaaa" +:+ String newline ("0" +:+ String newline EmptyString)))
  /\ ~ sampled_as_claimed calls_midrun
  /\ changed_count 0 calls_midrun = 2%nat
  /\ In (2%nat, Wrote true) calls_midrun
  /\ ~ In (2%nat, Changed true) calls_midrun.
Proof.
  split; [|split; [|split; [|split]]].
  - eexists _, _. split; vm_compute; reflexivity.
  - intros [H _]. specialize (H 0%nat). cbn in H. lia.
  - reflexivity.
  - cbn. auto 10.
  - cbn. intros H. repeat destruct H as [H|H]; try discriminate H. exact H.
Qed.

(** The small trace file is what the registration of the three traces
    and [set_bsm_trace_type] produce, up to the values the traced objects
    have taken since. *)
Example tf_midrun_registration :
  let tf := set_fp (Some EmptyString) (ctor bsm_type.BT_SIMPLE) in
  let tf :=
    trace true
      (fun bsm_name_ print_type_ =>
         Sc_event_trace
           (bsm_sc_event_trace.ctor 0 "ev" bsm_name_ print_type_
              bsm_trace.BSM_TRIGGER_VAL_BOTH)) tf in
  let tf :=
    trace true
      (fun bsm_name_ print_type_ =>
         Value_trace bool _
           (bsm_bool_trace.ctor false "valid" bsm_name_ print_type_
              bsm_trace.BSM_TRIGGER_VAL_BOTH)) tf in
  let tf :=
    trace true
      (fun bsm_name_ print_type_ =>
         Value_trace bool _
           (bsm_bool_trace.ctor false "data" bsm_name_ print_type_
              bsm_trace.BSM_TRIGGER_VAL_BOTH)) tf in
  set_bsm_trace_type 1 bsm_trace.BSM_TRIGGER_VAL_BOTH bsm_trace.BSM_TRACE_VAL tf
  = Some (set_traces
            [ Sc_event_trace ev_registered;
              as_valid_signal (Value_trace bool _ valid_registered);
              Value_trace bool _ data_registered ]
            tf_midrun).
Proof. reflexivity. Qed.

Lemma cycle_sampling_calls_witness :
  (changed_count 2 calls_midrun <= 1)%nat /\
  (In (2%nat, Changed true) calls_midrun \/
   exists k v, 2%nat = S k /\ traces tf_midrun !! k = Some v
               /\ virtual.get_trace_type v <> bsm_trace.BSM_TRACE_ORIG
               /\ In (k, Changed true) calls_midrun).
Proof.
  assert (Hc : exists tf' g',
             cycle env_timed false tf_midrun (mk_globals false [])
             = Some (tf', g', Sampled calls_midrun))
    by (eexists _, _; vm_compute; reflexivity).
  destruct Hc as (tf' & g' & Hc).
  destruct (cycle_sampling_calls _ _ _ _ _ _ _ Hc) as (_ & H1 & H2).
  split.
  - eapply H1; reflexivity.
  - apply H2. cbn. auto 10.
Defined.

(** ** [sc_spawn] *)

Section SpawnFacts.
Context {W K E context handle T : Type}.
Context {api : sc_simcontext_api W K E context handle} {callable : Callable W T unit}.

Lemma sc_spawn_object_execute (object : T) (w : W) :
  execute SC_MAKE_FUNC_PTR_semantics (sc_spawn_object.new object) w
  = let '(_, object', w') := operator_call object w in
    Some (sc_spawn_object.new object', w').
Proof.
  unfold execute, SC_MAKE_FUNC_PTR_semantics, sc_spawn_object.new,
    sc_spawn_object.semantics. cbn.
  destruct (operator_call object w) as [[u object'] w']. reflexivity.
Qed.

(** C1.  [sc_spawn(object, name_p, opt_p)] registers the callable as a
    thread process when [opt_p] is null or [opt_p->is_method()] is false
    and as a method process when [opt_p->is_method()] is true; in both
    cases the body of the created process, its [semantics], invokes the
    call operator of the callable. *)
Theorem sc_spawn_registers (object : T) (name_p : option string)
        (opt_p : option sc_spawn_options) (k : K) :
  (opt_p = None \/ (exists opt, opt_p = Some opt /\ is_method opt = false) ->
   sc_spawn object name_p opt_p k
   = match sc_get_curr_simcontext k with
     | inl e => inl e
     | inr context_p =>
         create_thread_process context_p name_p true SC_MAKE_FUNC_PTR_semantics
           (sc_spawn_object.new object) opt_p k
     end) /\
  (forall opt, opt_p = Some opt -> is_method opt = true ->
   sc_spawn object name_p opt_p k
   = match sc_get_curr_simcontext k with
     | inl e => inl e
     | inr context_p =>
         create_method_process context_p name_p true SC_MAKE_FUNC_PTR_semantics
           (sc_spawn_object.new object) opt_p k
     end) /\
  (forall w : W,
   execute SC_MAKE_FUNC_PTR_semantics (sc_spawn_object.new object) w
   = let '(_, object', w') := operator_call object w in
     Some (sc_spawn_object.new object', w')).
Proof.
  split; [|split].
  - intros [-> | (opt & -> & Hm)]; unfold sc_spawn, spawns_thread;
      rewrite ?Hm; reflexivity.
  - intros opt -> Hm. unfold sc_spawn, spawns_thread. rewrite Hm. reflexivity.
  - apply sc_spawn_object_execute.
Qed.

End SpawnFacts.

Lemma sc_spawn_registers_witness :
  (* with the method option: a method process *)
  sc_spawn (api := scheduler.api (W := memory Z unit)) tt (Some "eraser"%string)
    (Some (mk_options true 0 false false))
    (scheduler.mk true [] [] [])
  = inr (0%nat,
         scheduler.mk true [] [([], "eraser"%string)]
           [scheduler.mk_process (Some "eraser"%string) scheduler.method_process
              SC_MAKE_FUNC_PTR_semantics (sc_spawn_object.new tt)
              (Some (mk_options true 0 false false))])
  /\ (* without options: a thread process *)
  sc_spawn (api := scheduler.api (W := memory Z unit)) tt None None
    (scheduler.mk true [] [] [])
  = inr (0%nat,
         scheduler.mk true [] []
           [scheduler.mk_process None scheduler.thread_process
              SC_MAKE_FUNC_PTR_semantics (sc_spawn_object.new tt) None]).
Proof.
  split.
  - rewrite (proj1 (proj2 (sc_spawn_registers (api := scheduler.api (W := memory Z unit)) tt
                             (Some "eraser"%string)
                             (Some (mk_options true 0 false false))
                             (scheduler.mk true [] [] [])))
               (mk_options true 0 false false) eq_refl eq_refl).
    reflexivity.
  - rewrite (proj1 (sc_spawn_registers (api := scheduler.api (W := memory Z unit)) tt
                      None None (scheduler.mk true [] [] []))
               (or_introl eq_refl)).
    reflexivity.
Defined.

Section SpawnValueFacts.
Context {R G K E context handle T : Type}.
Context {api : sc_simcontext_api (memory R G) K E context handle}.
Context {callable : Callable (memory R G) T R}.

Lemma store_load (p : pointer) (v : R) (w : memory R G) :
  p <> null ->
  exists w', store p v w = Some w'
             /\ load p w' = Some v
             /\ (forall q, q <> p -> load q w' = load q w)
             /\ globals w' = globals w.
Proof.
  intros Hp. unfold store. apply N.eqb_neq in Hp. rewrite Hp.
  eexists. split; [reflexivity|]. unfold load. cbn.
  split; [apply lookup_insert_eq|]. split; [|reflexivity].
  intros q Hq. apply lookup_insert_ne. congruence.
Qed.

(** One execution of the body of a process spawned with a result slot. *)
Lemma sc_spawn_object_v_execute (r_p : pointer) (object : T) (w : memory R G) :
  r_p <> null ->
  let '(result, object', w') := operator_call object w in
  exists w'',
    execute SC_MAKE_FUNC_PTR_semantics (sc_spawn_object_v.new r_p object) w
    = Some (sc_spawn_object_v.new r_p object', w'')
    /\ store r_p result w' = Some w''
    /\ load r_p w'' = Some result.
Proof.
  intros Hp.
  destruct (operator_call object w) as [[result object'] w'] eqn:Ecall.
  destruct (store_load r_p result w' Hp) as (w'' & Hst & Hld & _).
  exists w''. split; [|split; assumption].
  unfold execute, SC_MAKE_FUNC_PTR_semantics, sc_spawn_object_v.new,
    sc_spawn_object_v.semantics. cbn.
  rewrite Ecall. cbn. rewrite Hst. reflexivity.
Qed.

(** Any number of executions leaves a host of the same class, with the
    same result slot. *)
Lemma sc_spawn_object_v_execute_times (r_p : pointer) (n : nat) :
  r_p <> null ->
  forall (object : T) (w : memory R G),
  exists object_n w_n,
    execute_times n SC_MAKE_FUNC_PTR_semantics (sc_spawn_object_v.new r_p object) w
    = Some (sc_spawn_object_v.new r_p object_n, w_n).
Proof.
  intros Hp. induction n as [|n IH]; intros object w.
  - exists object, w. reflexivity.
  - cbn [execute_times].
    pose proof (sc_spawn_object_v_execute r_p object w Hp) as Hex.
    destruct (operator_call object w) as [[result object'] w'].
    destruct Hex as (w'' & Hex & _). rewrite Hex. cbn.
    apply IH.
Qed.

(** C4.  The overload of [sc_spawn] with a result slot selects thread or
    method as the overload without one does, and the body of the process
    it creates evaluates [object()] and stores the returned value at
    [*r_p], on the first execution and on every later one. *)
Theorem sc_spawn_v_stores_result (r_p : pointer) (object : T)
        (name_p : option string) (opt_p : option sc_spawn_options) (k : K) :
  r_p <> null ->
  (sc_spawn_v r_p object name_p opt_p k
   = match sc_get_curr_simcontext k with
     | inl e => inl e
     | inr context_p =>
         (if spawns_thread opt_p then create_thread_process else create_method_process)
           context_p name_p true SC_MAKE_FUNC_PTR_semantics
           (sc_spawn_object_v.new r_p object) opt_p k
     end) /\
  (spawns_thread opt_p = true <->
   opt_p = None \/ exists opt, opt_p = Some opt /\ is_method opt = false) /\
  (forall (n : nat) (w : memory R G),
   exists object_n w_n,
     execute_times n SC_MAKE_FUNC_PTR_semantics (sc_spawn_object_v.new r_p object) w
     = Some (sc_spawn_object_v.new r_p object_n, w_n)
     /\ let '(result, object', w') := operator_call object_n w_n in
        exists w'',
          execute SC_MAKE_FUNC_PTR_semantics (sc_spawn_object_v.new r_p object_n) w_n
          = Some (sc_spawn_object_v.new r_p object', w'')
          /\ store r_p result w' = Some w''
          /\ load r_p w'' = Some result).
Proof.
  intros Hp. split; [|split].
  - unfold sc_spawn_v. destruct (sc_get_curr_simcontext k); [reflexivity|].
    destruct (spawns_thread opt_p); reflexivity.
  - unfold spawns_thread. destruct opt_p as [opt|].
    + rewrite negb_true_iff. split.
      * intros Hm. right. exists opt. auto.
      * intros [Hn | (opt' & [= <-] & Hm)]; [discriminate | exact Hm].
    + split; auto.
  - intros n w.
    destruct (sc_spawn_object_v_execute_times r_p n Hp object w) as (object_n & w_n & Hn).
    exists object_n, w_n. split; [exact Hn|].
    apply sc_spawn_object_v_execute. exact Hp.
Qed.

End SpawnValueFacts.

(** The counter spawned with the result slot at address 8: the third
    execution stores 2 there. *)
Lemma sc_spawn_v_stores_result_witness :
  exists object_n w_n,
    execute_times 2 SC_MAKE_FUNC_PTR_semantics (sc_spawn_object_v.new 8%N 0)
      (mk_memory (∅ : gmap N Z) tt)
    = Some (sc_spawn_object_v.new 8%N object_n, w_n)
    /\ let '(result, object', w') := operator_call object_n w_n in
       exists w'',
         execute SC_MAKE_FUNC_PTR_semantics (sc_spawn_object_v.new 8%N object_n) w_n
         = Some (sc_spawn_object_v.new 8%N object', w'')
         /\ store 8%N result w' = Some w''
         /\ load 8%N w'' = Some result.
Proof.
  assert (Hp : 8%N <> null) by discriminate.
  exact (proj2 (proj2 (sc_spawn_v_stores_result (api := scheduler.api) 8%N 0
                         None None (scheduler.mk true [] [] []) Hp))
           2%nat (mk_memory ∅ tt)).
Defined.

(** ** [sc_spawn] against the scheduler context of the specification *)

(** The name is in use: the decision goes the failing way. *)
Ltac name_taken :=
  match goal with
  | |- context [decide ?P] => destruct (decide P); [reflexivity | contradiction]
  end.

(** The name is free, or there is none: the process ends up at the end of
    the table. *)
Ltac registered :=
  try match goal with
      | |- context [decide ?P] => destruct (decide P); [contradiction|]
      end;
  eexists _, _; (split; [reflexivity|]); cbn;
  apply list_lookup_middle; reflexivity.

Section SpawnFailures.
Context {W T : Type} {callable : Callable W T unit}.
Context {R G T' : Type} {callable_v : Callable (memory R G) T' R}.

(** C3.  [sc_spawn] fails with [InvalidContext] when it is called outside
    an active scheduler context, fails with [DuplicateName] when it is
    called inside one with a name that is already in use in the current
    hierarchical scope, and returns a handle in every other case, the
    handle of a process of the kind the options ask for whose body is the
    [semantics] of the spawn object.  This holds for both overloads. *)
Theorem sc_spawn_failures (object : T) (r_p : pointer) (object_v : T')
        (name_p : option string) (opt_p : option sc_spawn_options)
        (k : scheduler.t W) (k_v : scheduler.t (memory R G)) :
  (scheduler.active k = false ->
   sc_spawn (api := scheduler.api) object name_p opt_p k = inl scheduler.InvalidContext) /\
  (scheduler.active k_v = false ->
   sc_spawn_v (api := scheduler.api) r_p object_v name_p opt_p k_v = inl scheduler.InvalidContext) /\
  (forall n, scheduler.active k = true -> name_p = Some n ->
             (scheduler.current_scope k, n) ∈ scheduler.names k ->
   sc_spawn (api := scheduler.api) object name_p opt_p k = inl scheduler.DuplicateName) /\
  (forall n, scheduler.active k_v = true -> name_p = Some n ->
             (scheduler.current_scope k_v, n) ∈ scheduler.names k_v ->
   sc_spawn_v (api := scheduler.api) r_p object_v name_p opt_p k_v = inl scheduler.DuplicateName) /\
  (scheduler.active k = true ->
   (forall n, name_p = Some n -> (scheduler.current_scope k, n) ∉ scheduler.names k) ->
   exists h k',
     sc_spawn (api := scheduler.api) object name_p opt_p k = inr (h, k')
     /\ scheduler.processes k' !! h
        = Some (scheduler.mk_process name_p
                  (if spawns_thread opt_p then scheduler.thread_process
                   else scheduler.method_process)
                  SC_MAKE_FUNC_PTR_semantics (sc_spawn_object.new object) opt_p)) /\
  (scheduler.active k_v = true ->
   (forall n, name_p = Some n -> (scheduler.current_scope k_v, n) ∉ scheduler.names k_v) ->
   exists h k',
     sc_spawn_v (api := scheduler.api) r_p object_v name_p opt_p k_v = inr (h, k')
     /\ scheduler.processes k' !! h
        = Some (scheduler.mk_process name_p
                  (if spawns_thread opt_p then scheduler.thread_process
                   else scheduler.method_process)
                  SC_MAKE_FUNC_PTR_semantics (sc_spawn_object_v.new r_p object_v) opt_p)).
Proof.
  unfold sc_spawn, sc_spawn_v. cbn.
  unfold scheduler.get_curr_simcontext, scheduler.create_process.
  repeat split.
  - intros ->. reflexivity.
  - intros ->. reflexivity.
  - intros n -> -> Hin. destruct (spawns_thread opt_p); name_taken.
  - intros n -> -> Hin. destruct (spawns_thread opt_p); name_taken.
  - intros -> Hfree. destruct name_p as [n|];
      [specialize (Hfree n eq_refl)|]; destruct (spawns_thread opt_p); registered.
  - intros -> Hfree. destruct name_p as [n|];
      [specialize (Hfree n eq_refl)|]; destruct (spawns_thread opt_p); registered.
Qed.

End SpawnFailures.

Lemma sc_spawn_failures_witness :
  sc_spawn (api := scheduler.api (W := memory Z unit)) tt (Some "p"%string) None
    (scheduler.mk false [] [] [])
  = inl scheduler.InvalidContext
  /\ sc_spawn (api := scheduler.api (W := memory Z unit)) tt (Some "p"%string) None
       (scheduler.mk true ["top"%string] [(["top"%string], "p"%string)] [])
     = inl scheduler.DuplicateName
  /\ exists h k',
       sc_spawn_v (api := scheduler.api (W := memory Z unit)) 8%N 0 (Some "p"%string) None
         (scheduler.mk true ["top"%string] [(["other"%string], "p"%string)] [])
       = inr (h, k').
Proof.
  pose proof (sc_spawn_failures (W := memory Z unit) (R := Z) (G := unit) tt 8%N 0
                (Some "p"%string) None (scheduler.mk false [] [] [])
                (scheduler.mk false [] [] [])) as (H1 & _).
  pose proof (sc_spawn_failures (W := memory Z unit) (R := Z) (G := unit) tt 8%N 0
                (Some "p"%string) None
                (scheduler.mk true ["top"%string] [(["top"%string], "p"%string)] [])
                (scheduler.mk true ["top"%string] [(["other"%string], "p"%string)] []))
    as (_ & _ & H3 & _ & _ & H6).
  split; [|split].
  - apply H1. reflexivity.
  - apply (H3 "p"%string); [reflexivity | reflexivity |].
    apply list_elem_of_In. left. reflexivity.
  - destruct H6 as (h & k' & Hs & _).
    + reflexivity.
    + intros n [= <-] Hin. apply list_elem_of_In in Hin.
      destruct Hin as [Hin | []]. discriminate Hin.
    + exists h, k'. exact Hs.
Defined.

(** ** Simulated time and [get_time_stamp] *)

Lemma time_le_iff (a b : SimulationTime) :
  time_le a b = true <-> fst a < fst b \/ (fst a = fst b /\ snd a <= snd b).
Proof.
  unfold time_le, time_compare.
  destruct (Z.compare_spec (fst a) (fst b)); [destruct (Z.compare_spec (snd a) (snd b))| |];
    split; intros; try reflexivity; try discriminate; lia.
Qed.

Lemma time_lt_iff (a b : SimulationTime) :
  time_lt a b = true <-> fst a < fst b \/ (fst a = fst b /\ snd a < snd b).
Proof.
  unfold time_lt, time_compare.
  destruct (Z.compare_spec (fst a) (fst b)); [destruct (Z.compare_spec (snd a) (snd b))| |];
    split; intros; try reflexivity; try discriminate; lia.
Qed.

Lemma time_eqb_iff (a b : SimulationTime) : time_eqb a b = true <-> a = b.
Proof.
  unfold time_eqb, time_compare. destruct a as [ah al], b as [bh bl]. cbn.
  destruct (Z.compare_spec ah bh); [destruct (Z.compare_spec al bl)| |];
    split; intros H'; try reflexivity; try discriminate; try congruence;
    injection H' as ? ?; lia.
Qed.

Lemma time_le_refl (a : SimulationTime) : time_le a a = true.
Proof. apply time_le_iff. lia. Qed.

Lemma time_le_trans (a b c : SimulationTime) :
  time_le a b = true -> time_le b c = true -> time_le a c = true.
Proof. rewrite !time_le_iff. lia. Qed.

Lemma time_le_total (a b : SimulationTime) : time_le a b = false -> time_le b a = true.
Proof.
  intros H. apply time_le_iff.
  destruct (time_le a b) eqn:E; [discriminate|].
  assert (Hn : ~ (fst a < fst b \/ (fst a = fst b /\ snd a <= snd b)))
    by (rewrite <- time_le_iff; congruence).
  lia.
Qed.

Lemma time_lt_le (a b : SimulationTime) : time_lt a b = true -> time_le a b = true.
Proof. rewrite time_lt_iff, time_le_iff. lia. Qed.

(** [get_time_stamp] compares lexicographically. *)
Lemma get_time_stamp_lt (env : inherited) (tf : bsm_trace_file.t) :
  fst (get_time_stamp env tf)
  = time_lt (previous_time_units tf) (timestamp_in_trace_units env)
  /\ snd (get_time_stamp env tf) = timestamp_in_trace_units env.
Proof.
  unfold get_time_stamp, previous_time_units.
  destruct (timestamp_in_trace_units env) as [h l]. cbn [fst snd]. split; [|reflexivity].
  apply eq_true_iff_eq. rewrite time_lt_iff. cbn [fst snd].
  rewrite orb_true_iff, andb_true_iff, !Z.ltb_lt, Z.eqb_eq. lia.
Qed.

(** *** The kernel of the specification never goes back in time *)

Lemma peek_minimum_spec (q : list (SimulationTime * nat)) (m : SimulationTime) :
  sim_kernel.peek_minimum q = Some m ->
  (exists e, In (m, e) q) /\ Forall (fun n => time_le m (fst n) = true) q.
Proof.
  revert m. induction q as [|[t e] q IH]; intros m Hm; [discriminate|].
  cbn [sim_kernel.peek_minimum] in Hm.
  destruct (sim_kernel.peek_minimum q) as [m'|] eqn:E.
  - destruct (IH m' eq_refl) as [[e' Hin] Hall].
    injection Hm as <-. destruct (time_le t m') eqn:Hle.
    + split; [exists e; left; reflexivity|].
      constructor; [apply time_le_refl|].
      eapply Forall_impl; [exact Hall|]. cbn. intros n Hn.
      eapply time_le_trans; eassumption.
    + split; [exists e'; right; exact Hin|].
      constructor; [apply time_le_total; exact Hle | exact Hall].
  - injection Hm as <-. destruct q as [|[t' e'] q]; [|cbn in E; destruct (sim_kernel.peek_minimum q); discriminate].
    split; [exists e; left; reflexivity|].
    constructor; [apply time_le_refl | constructor].
Qed.

Lemma notify_requests (requests : list (SimulationTime * nat)) (k : sim_kernel.t) :
  sim_kernel.well_formed k ->
  sim_kernel.now (fold_right sim_kernel.notify_at k requests) = sim_kernel.now k
  /\ sim_kernel.well_formed (fold_right sim_kernel.notify_at k requests).
Proof.
  intros Hwf. induction requests as [|n requests [IHnow IHwf]]; [split; [reflexivity | exact Hwf]|].
  cbn [fold_right]. unfold sim_kernel.notify_at.
  destruct (time_le _ (fst n)) eqn:Hle.
  - split; [exact IHnow|]. unfold sim_kernel.well_formed. cbn.
    constructor; [exact Hle | exact IHwf].
  - split; assumption.
Qed.

Lemma step_monotone (p : sim_kernel.phase) (k : sim_kernel.t) :
  sim_kernel.well_formed k ->
  time_le (sim_kernel.now k) (sim_kernel.now (sim_kernel.step p k)) = true
  /\ sim_kernel.well_formed (sim_kernel.step p k).
Proof.
  intros Hwf. destruct p as [requests|]; cbn [sim_kernel.step].
  - destruct (notify_requests requests k Hwf) as [Hnow Hwf'].
    cbn. rewrite Hnow. split; [apply time_le_refl|].
    unfold sim_kernel.well_formed in Hwf' |- *. cbn. rewrite <- Hnow. exact Hwf'.
  - destruct (sim_kernel.peek_minimum (sim_kernel.timed k)) as [m|] eqn:E.
    + destruct (peek_minimum_spec _ _ E) as [[e Hin] Hall]. cbn. split.
      * unfold sim_kernel.well_formed in Hwf. rewrite Forall_forall in Hwf.
        apply (Hwf (m, e)). apply list_elem_of_In. exact Hin.
      * unfold sim_kernel.well_formed, sim_kernel.pop_all_equal. cbn.
        rewrite Forall_forall in Hall |- *. intros n Hn.
        apply Hall. apply list_elem_of_In in Hn. apply filter_In in Hn as [Hn _].
        apply list_elem_of_In. exact Hn.
    + split; [apply time_le_refl | exact Hwf].
Qed.

Lemma nondecreasing_cons (a b : SimulationTime) (l : list SimulationTime) :
  time_le a b = true -> nondecreasing (b :: l) -> nondecreasing (a :: b :: l).
Proof.
  intros Hab Hl [|i] x y Hx Hy.
  - cbn in Hx, Hy. congruence.
  - cbn in Hx, Hy. eapply (Hl i); eassumption.
Qed.

Lemma run_nondecreasing (phases : list sim_kernel.phase) :
  forall k, sim_kernel.well_formed k ->
            nondecreasing (sim_kernel.now k :: sim_kernel.run phases k).
Proof.
  induction phases as [|p phases IH]; intros k Hwf.
  - intros [|i] a b Ha Hb; cbn in Hb; discriminate.
  - cbn [sim_kernel.run]. destruct (step_monotone p k Hwf) as [Hle Hwf'].
    apply nondecreasing_cons; [exact Hle | apply IH; exact Hwf'].
Qed.

(** *** What [cycle] records *)

Lemma sample_one_previous env h l (i : nat) (tr : trace_object) (s s' : sampling) (i' : nat) :
  sample_one env h l i tr s = Some (s', i') ->
  previous_time_units (file s') = previous_time_units (file s).
Proof.
  unfold sample_one, fputc_fp, print_time_stamp. intros H.
  repeat (case_match; simplify_option_eq); reflexivity.
Qed.

Lemma sample_previous env h l (fuel : nat) :
  forall (i : nat) (s s' : sampling),
    sample fuel env h l i s = Some s' ->
    previous_time_units (file s') = previous_time_units (file s).
Proof.
  induction fuel as [|fuel IH]; intros i s s' Hs; cbn [sample] in Hs.
  - injection Hs as <-. reflexivity.
  - destruct (traces (file s) !! i) as [tr|]; [|injection Hs as <-; reflexivity].
    apply bind_Some in Hs as ([s1 i1] & Hone & Hs).
    apply IH in Hs. apply sample_one_previous in Hone. congruence.
Qed.

Lemma print_changes_previous env h l (tf tf' : bsm_trace_file.t) cs :
  print_changes env h l tf = Some (tf', cs) ->
  previous_time_units tf' = previous_time_units tf.
Proof.
  unfold print_changes. intros H.
  apply bind_Some in H as (s1 & Hs & H).
  apply bind_Some in H as (s2 & Hnl & [= <- <-]).
  apply sample_previous in Hs. cbn in Hs. rewrite <- Hs.
  destruct (time_printed s1); [|injection Hnl as <-; reflexivity].
  unfold fputc_fp in Hnl. destruct (fp (file s1)); cbn in Hnl; [|discriminate].
  injection Hnl as <-. reflexivity.
Qed.

(** The pair recorded after a call of [cycle] is the one recorded by the
    inherited [initialize] or the current time. *)
Lemma cycle_previous env (d : bool) (tf : bsm_trace_file.t) (g : tracing_globals) tf' g' o :
  cycle env d tf g = Some (tf', g', o) ->
  previous_time_units tf' = previous_time_units tf
  \/ previous_time_units tf' = previous_time_units (snd (initialize env tf))
  \/ previous_time_units tf' = timestamp_in_trace_units env.
Proof.
  unfold cycle. intros H.
  destruct (negb (delta_cycles env) && d); [injection H as <- <- <-; auto|].
  destruct (initialize env tf) as [inited tf1] eqn:Ei. cbn [snd].
  destruct inited; [injection H as <- <- <-; auto|].
  pose proof (get_time_stamp_lt env tf1) as [_ Hnow].
  destruct (get_time_stamp env tf1) as [time_advanced [h l]]. cbn [snd] in Hnow.
  destruct (_ && _ && _ && _); [injection H as <- <- <-; auto|].
  destruct (delta_cycles env && negb d).
  - injection H as <- <- <-. destruct time_advanced; [|auto].
    right. right. rewrite <- Hnow. reflexivity.
  - apply bind_Some in H as ([tf2 cs2] & Hp & [= <- <- <-]).
    apply print_changes_previous in Hp. auto.
Qed.

Lemma observations_ordered (cfg : tracer) (phases : list sim_kernel.phase) :
  initialize_records_now cfg ->
  forall (k : sim_kernel.t) (tf : bsm_trace_file.t) (g : tracing_globals),
    sim_kernel.well_formed k ->
    time_le (previous_time_units tf) (sim_kernel.now k) = true ->
    Forall (fun o => time_le (fst o) (snd o) = true) (observations cfg phases k tf g).
Proof.
  intros Hinit. induction phases as [|p phases IH]; intros k tf g Hwf Hprev; [constructor|].
  cbn [observations].
  destruct (step_monotone p k Hwf) as [Hle Hwf'].
  assert (Hprev' : time_le (previous_time_units tf) (sim_kernel.now (sim_kernel.step p k)) = true)
    by (eapply time_le_trans; eassumption).
  constructor; [exact Hprev'|].
  destruct (cycle _ _ tf g) as [[[tf' g'] o]|] eqn:Ec; [|constructor].
  apply IH; [exact Hwf'|].
  apply cycle_previous in Ec. cbn [inherited_at initialize timestamp_in_trace_units] in Ec.
  destruct Ec as [-> | [-> | ->]]; [exact Hprev' | | apply time_le_refl].
  destruct (Hinit (sim_kernel.now (sim_kernel.step p k)) tf) as [-> | ->];
    [exact Hprev' | apply time_le_refl].
Qed.

(** C2.  Along every run of the kernel the simulated time, a (high, low)
    pair compared lexicographically with the high part first, is
    non-decreasing; at every call of [cycle] in the run the current pair
    is greater than or equal to the pair recorded in the trace file; and
    [get_time_stamp] returns true exactly when the current pair is
    strictly greater than the recorded one. *)
Theorem simulation_time_nondecreasing (cfg : tracer) (phases : list sim_kernel.phase)
        (k : sim_kernel.t) (tf : bsm_trace_file.t) (g : tracing_globals) :
  sim_kernel.well_formed k ->
  initialize_records_now cfg ->
  time_le (previous_time_units tf) (sim_kernel.now k) = true ->
  nondecreasing (sim_kernel.now k :: sim_kernel.run phases k) /\
  Forall (fun o => time_le (fst o) (snd o) = true) (observations cfg phases k tf g) /\
  (forall (env : inherited) (tf0 : bsm_trace_file.t),
     (fst (get_time_stamp env tf0) = true <->
      time_lt (previous_time_units tf0) (timestamp_in_trace_units env) = true)
     /\ snd (get_time_stamp env tf0) = timestamp_in_trace_units env).
Proof.
  intros Hwf Hinit Hprev. split; [|split].
  - apply run_nondecreasing. exact Hwf.
  - apply observations_ordered; assumption.
  - intros env tf0. destruct (get_time_stamp_lt env tf0) as [H1 H2].
    rewrite H1. split; [reflexivity | exact H2].
Qed.

Lemma simulation_time_nondecreasing_witness :
  nondecreasing (sim_kernel.now kernel_start :: sim_kernel.run short_run kernel_start) /\
  Forall (fun o => time_le (fst o) (snd o) = true)
    (observations tracer_initialized short_run kernel_start tf_midrun (mk_globals false [])).
Proof.
  assert (Hwf : sim_kernel.well_formed kernel_start) by constructor.
  assert (Hinit : initialize_records_now tracer_initialized)
    by (intros now tf; left; reflexivity).
  assert (Hprev : time_le (previous_time_units tf_midrun) (sim_kernel.now kernel_start) = true)
    by reflexivity.
  destruct (simulation_time_nondecreasing tracer_initialized short_run kernel_start
              tf_midrun (mk_globals false []) Hwf Hinit Hprev) as (H1 & H2 & _).
  split; [exact H1 | exact H2].
Defined.

Example short_run_observations :
  observations tracer_initialized short_run kernel_start tf_midrun (mk_globals false [])
  = [ ((0, 0), (0, 0)); ((0, 0), (10, 0)); ((10, 0), (10, 0)) ].
Proof. vm_compute. reflexivity. Qed.

(* ===================================================================== *)
(** * Part IV: the rest of the trace file                                 *)
(* ===================================================================== *)

(** ** Strings *)

Lemma string_app_cons (x : ascii) (a b : string) : String x a +:+ b = String x (a +:+ b).
Proof. reflexivity. Qed.

Lemma string_app_assoc (a b c : string) : (a +:+ b) +:+ c = a +:+ (b +:+ c).
Proof.
  induction a as [|x a IH]; [reflexivity|].
  rewrite !string_app_cons, IH. reflexivity.
Qed.

Lemma string_app_nil_r (a : string) : a +:+ EmptyString = a.
Proof.
  induction a as [|x a IH]; [reflexivity|].
  rewrite string_app_cons, IH. reflexivity.
Qed.

Lemma string_app_length (a b : string) :
  String.length (a +:+ b) = (String.length a + String.length b)%nat.
Proof.
  induction a as [|x a IH]; [reflexivity|].
  rewrite string_app_cons. simpl. rewrite IH. reflexivity.
Qed.

Lemma string_of_list_ascii_length (l : list ascii) :
  String.length (string_of_list_ascii l) = length l.
Proof. induction l as [|x l IH]; simpl; [reflexivity | f_equal; exact IH]. Qed.

Lemma list_ascii_of_string_length (s : string) :
  length (list_ascii_of_string s) = String.length s.
Proof. induction s as [|x s IH]; simpl; [reflexivity | f_equal; exact IH]. Qed.

Lemma string_of_list_ascii_app (l l' : list ascii) :
  string_of_list_ascii (l ++ l') = string_of_list_ascii l +:+ string_of_list_ascii l'.
Proof.
  induction l as [|x l IH]; [reflexivity|].
  simpl. rewrite string_app_cons, IH. reflexivity.
Qed.

Lemma list_ascii_of_string_app (a b : string) :
  list_ascii_of_string (a +:+ b) = list_ascii_of_string a ++ list_ascii_of_string b.
Proof.
  induction a as [|x a IH]; [reflexivity|].
  rewrite string_app_cons. simpl. rewrite IH. reflexivity.
Qed.

Lemma snprintf_length (size : nat) (s : string) :
  (String.length (snprintf size s) <= size - 1)%nat.
Proof.
  unfold snprintf. rewrite string_of_list_ascii_length, length_take. lia.
Qed.

Lemma snprintf_short (size : nat) (s : string) :
  (String.length s < size)%nat -> snprintf size s = s.
Proof.
  intros H. unfold snprintf. rewrite take_ge.
  - apply string_of_list_ascii_of_string.
  - rewrite list_ascii_of_string_length. lia.
Qed.

(** ** [remove_bsm_name_problems] *)

Lemma replace_braces_spec (name : list ascii) (flag : bool) :
  replace_braces name flag = (map without_bracket name, flag || existsb is_bracket name).
Proof.
  revert flag. induction name as [|c name IH]; intros flag; cbn [replace_braces map existsb].
  - rewrite orb_false_r. reflexivity.
  - unfold without_bracket, is_bracket.
    destruct (Ascii.eqb c "[") eqn:E1; [|destruct (Ascii.eqb c "]") eqn:E2];
      rewrite IH; cbn; rewrite ?orb_true_r; reflexivity.
Qed.

Lemma remove_bsm_name_problems_name (name : string) (con : console) :
  fst (remove_bsm_name_problems name con)
  = string_of_list_ascii (map without_bracket (list_ascii_of_string name)).
Proof.
  unfold remove_bsm_name_problems. rewrite replace_braces_spec. reflexivity.
Qed.

Lemma without_bracket_clean (c : ascii) : is_bracket (without_bracket c) = false.
Proof.
  unfold without_bracket, is_bracket.
  destruct (Ascii.eqb c "[") eqn:E1; [reflexivity|].
  destruct (Ascii.eqb c "]") eqn:E2; [reflexivity|].
  rewrite E1, E2. reflexivity.
Qed.

Lemma without_bracket_id (c : ascii) : is_bracket c = false -> without_bracket c = c.
Proof.
  unfold without_bracket, is_bracket. intros H.
  apply orb_false_iff in H as [-> ->]. reflexivity.
Qed.

(** X1.  [remove_bsm_name_problems] keeps the length of the name and every
    character that is not a bracket, puts '(' in the place of every '['
    and ')' in the place of every ']', so that no bracket is left; a name
    without brackets comes back as it is, and with it the console; and
    applying the function to its own result changes nothing. *)
Theorem remove_bsm_name_problems_brackets (name : string) (con : console) :
  let cleaned := fst (remove_bsm_name_problems name con) in
  String.length cleaned = String.length name
  /\ (forall (i : nat) (c : ascii),
        list_ascii_of_string name !! i = Some c ->
        list_ascii_of_string cleaned !! i
        = Some (if Ascii.eqb c "[" then "("%char
                else if Ascii.eqb c "]" then ")"%char else c))
  /\ has_bracket cleaned = false
  /\ (has_bracket name = false -> remove_bsm_name_problems name con = (name, con))
  /\ (forall con', fst (remove_bsm_name_problems cleaned con') = cleaned).
Proof.
  cbn zeta. rewrite remove_bsm_name_problems_name.
  assert (Hclean : forall l, existsb is_bracket (map without_bracket l) = false).
  { induction l as [|c l IH]; cbn; [reflexivity|].
    rewrite without_bracket_clean, IH. reflexivity. }
  assert (Hid : forall l, existsb is_bracket l = false -> map without_bracket l = l).
  { induction l as [|c l IH]; cbn; [reflexivity|].
    intros H. apply orb_false_iff in H as [Hc Hl].
    rewrite (without_bracket_id _ Hc), (IH Hl). reflexivity. }
  split; [|split; [|split; [|split]]].
  - rewrite string_of_list_ascii_length, length_map. apply list_ascii_of_string_length.
  - intros i c Hi. rewrite list_ascii_of_string_of_list_ascii.
    rewrite list_lookup_fmap, Hi. reflexivity.
  - unfold has_bracket. rewrite list_ascii_of_string_of_list_ascii. apply Hclean.
  - unfold has_bracket. intros Hno.
    unfold remove_bsm_name_problems. rewrite replace_braces_spec, Hno.
    rewrite (Hid _ Hno), string_of_list_ascii_of_string. reflexivity.
  - intros con'. rewrite remove_bsm_name_problems_name.
    rewrite list_ascii_of_string_of_list_ascii.
    rewrite (Hid _ (Hclean _)). reflexivity.
Qed.

Lemma remove_bsm_name_problems_console (name : string) (con : console) :
  snd (remove_bsm_name_problems name con)
  = if has_bracket name && negb (name_problems_warned con)
    then {| cout := cout con +:+ name_problems_warning; name_problems_warned := true |}
    else con.
Proof.
  unfold remove_bsm_name_problems, has_bracket. rewrite replace_braces_spec.
  cbn [snd orb]. destruct (_ && _); reflexivity.
Qed.

(** X2.  The warning about brackets is given once per program run: after
    any sequence of names has gone through [remove_bsm_name_problems],
    [std::cout] holds the warning exactly once more than before if the
    flag was not set and one of the names has a bracket, and is unchanged
    otherwise; the flag is set from the first such name on. *)
Theorem remove_bsm_name_problems_warns_once (names : list string) (con : console) :
  let con' := remove_all_name_problems names con in
  cout con'
  = cout con +:+ (if existsb has_bracket names && negb (name_problems_warned con)
                  then name_problems_warning else EmptyString)
  /\ name_problems_warned con' = name_problems_warned con || existsb has_bracket names.
Proof.
  cbn zeta. revert con. induction names as [|name names IH]; intros con.
  - cbn. rewrite string_app_nil_r, orb_false_r. split; reflexivity.
  - cbn [remove_all_name_problems existsb].
    destruct (IH (snd (remove_bsm_name_problems name con))) as [IHc IHw].
    rewrite IHc, IHw, remove_bsm_name_problems_console.
    destruct (has_bracket name); cbn [andb orb];
      destruct (name_problems_warned con) eqn:Ew; cbn [negb cout name_problems_warned];
      rewrite ?Ew; destruct (existsb has_bracket names); cbn;
      rewrite ?string_app_nil_r; split; reflexivity.
Qed.

(** ** [compose_data_line] and [compose_line] *)

(** X3.  The source calls [compose_line] "same as above but not that
    ugly".  The two agree whenever the bit width is not 1, and for a bit
    width of 1 when the data is a single character; for a bit width of 1
    and longer data they differ, since [compose_data_line] keeps the first
    character only and [compose_line] all of them. *)
Theorem compose_line_compose_data_line (b : bsm_trace.t) (rawdata : list ascii) :
  (bsm_trace.bit_width b <> 1 ->
   bsm_trace.compose_line b (string_of_list_ascii rawdata)
   = bsm_trace.compose_data_line b rawdata)
  /\ (bsm_trace.bit_width b = 1 ->
      (forall c, c <> NUL -> rawdata = [c] ->
         bsm_trace.compose_line b (string_of_list_ascii rawdata)
         = bsm_trace.compose_data_line b rawdata)
      /\ ((2 <= length rawdata)%nat ->
          bsm_trace.compose_line b (string_of_list_ascii rawdata)
          <> bsm_trace.compose_data_line b rawdata)).
Proof.
  unfold bsm_trace.compose_line, bsm_trace.compose_data_line. split.
  - intros Hw. destruct (bsm_trace.bit_width b =? 0); [reflexivity|].
    apply Z.eqb_neq in Hw. rewrite Hw.
    rewrite list_ascii_of_string_of_list_ascii. reflexivity.
  - intros ->. change (1 =? 0) with false. change (1 =? 1) with true. cbv iota. split.
    + intros c Hc ->. apply Ascii.eqb_neq in Hc. unfold deref. cbn [lookup list_lookup default].
      cbn. rewrite Hc. reflexivity.
    + intros Hlen Heq. apply (f_equal String.length) in Heq.
      rewrite string_app_length, string_of_list_ascii_length in Heq.
      destruct (Ascii.eqb (deref rawdata 0) NUL); cbn in Heq; lia.
Qed.

Lemma compose_line_compose_data_line_witness :
  (bsm_trace.compose_line
     (bsm_trace.set_bit_width 4 (bsm_trace.ctor "s" "aaaaa" 0 2)) "0010"
   = bsm_trace.compose_data_line
       (bsm_trace.set_bit_width 4 (bsm_trace.ctor "s" "aaaaa" 0 2))
       (list_ascii_of_string "0010"))
  /\ (bsm_trace.compose_line
        (bsm_trace.set_bit_width 1 (bsm_trace.ctor "s" "aaaaa" 0 2)) "1"
      = bsm_trace.compose_data_line
          (bsm_trace.set_bit_width 1 (bsm_trace.ctor "s" "aaaaa" 0 2)) ["1"%char])
  /\ (bsm_trace.compose_line
        (bsm_trace.set_bit_width 1 (bsm_trace.ctor "s" "aaaaa" 0 2)) "10"
      <> bsm_trace.compose_data_line
           (bsm_trace.set_bit_width 1 (bsm_trace.ctor "s" "aaaaa" 0 2))
           (list_ascii_of_string "10")).
Proof.
  split; [|split].
  - apply (proj1 (compose_line_compose_data_line
                    (bsm_trace.set_bit_width 4 (bsm_trace.ctor "s" "aaaaa" 0 2))
                    (list_ascii_of_string "0010"))).
    cbn. discriminate.
  - refine (proj1 (proj2 (compose_line_compose_data_line
                    (bsm_trace.set_bit_width 1 (bsm_trace.ctor "s" "aaaaa" 0 2))
                    ["1"%char]) _) "1"%char _ _).
    + reflexivity.
    + discriminate.
    + reflexivity.
  - refine (proj2 (proj2 (compose_line_compose_data_line
                    (bsm_trace.set_bit_width 1 (bsm_trace.ctor "s" "aaaaa" 0 2))
                    (list_ascii_of_string "10")) _) _).
    + reflexivity.
    + cbn. lia.
Defined.

(** ** The digits written for an integer *)

Lemma bits_length (n : nat) (object bit_mask : Z) :
  length (bsm_uint64_trace.bits n object bit_mask) = n.
Proof.
  revert bit_mask. induction n as [|n IH]; intros bit_mask; cbn; [reflexivity|].
  rewrite IH. reflexivity.
Qed.

Lemma bits_digits (n : nat) (object bit_mask : Z) :
  Forall binary_digit (bsm_uint64_trace.bits n object bit_mask).
Proof.
  revert bit_mask. induction n as [|n IH]; intros bit_mask; cbn; constructor.
  - destruct (_ =? 0); [left | right]; reflexivity.
  - apply IH.
Qed.

Lemma land_pow2 (u n : Z) :
  0 <= n -> Z.land u (2 ^ n) = if Z.testbit u n then 2 ^ n else 0.
Proof.
  intros Hn. apply Z.bits_inj'. intros m Hm.
  rewrite Z.land_spec, Z.pow2_bits_eqb by assumption.
  destruct (Z.eqb_spec n m) as [<-|Hne].
  - rewrite andb_true_r. destruct (Z.testbit u n) eqn:E.
    + rewrite Z.pow2_bits_true; auto.
    + rewrite Z.bits_0. reflexivity.
  - rewrite andb_false_r. destruct (Z.testbit u n).
    + rewrite Z.pow2_bits_false; auto.
    + rewrite Z.bits_0. reflexivity.
Qed.

Lemma mod_pow2_succ (u n : Z) :
  0 <= n -> u mod 2 ^ (n + 1) = Z.b2z (Z.testbit u n) * 2 ^ n + u mod 2 ^ n.
Proof.
  intros Hn. rewrite Z.pow_add_r, Z.pow_1_r by lia.
  rewrite Z.rem_mul_r by lia. rewrite Z.testbit_spec' by assumption. lia.
Qed.

Lemma binary_value_from_bits (n : nat) (u : Z) :
  forall acc,
    binary_value_from acc (bsm_uint64_trace.bits n u (2 ^ (Z.of_nat n - 1)))
    = Some (acc * 2 ^ Z.of_nat n + u mod 2 ^ Z.of_nat n).
Proof.
  induction n as [|n IH]; intros acc.
  - cbn. rewrite Z.mod_1_r. f_equal. lia.
  - cbn [bsm_uint64_trace.bits binary_value_from].
    replace (Z.of_nat (S n) - 1) with (Z.of_nat n) by lia.
    replace (Z.shiftr (2 ^ Z.of_nat n) 1) with (2 ^ (Z.of_nat n - 1)).
    2:{ rewrite Z.shiftr_div_pow2 by lia. rewrite Z.pow_1_r.
        destruct n as [|n]; [reflexivity|].
        replace (Z.of_nat (S n)) with (Z.of_nat n + 1) by lia.
        rewrite Z.pow_add_r, Z.pow_1_r by lia.
        replace (Z.of_nat n + 1 - 1) with (Z.of_nat n) by lia.
        rewrite Z.div_mul by lia. reflexivity. }
    rewrite land_pow2 by lia.
    assert (Hpos : 0 < 2 ^ Z.of_nat n) by (apply Z.pow_pos_nonneg; lia).
    replace (Z.of_nat (S n)) with (Z.of_nat n + 1) by lia.
    rewrite mod_pow2_succ by lia.
    destruct (Z.testbit u (Z.of_nat n)).
    + replace (2 ^ Z.of_nat n =? 0) with false by (symmetry; apply Z.eqb_neq; lia).
      cbn [digit_value Ascii.eqb]. cbn. rewrite IH. f_equal.
      rewrite Z.pow_add_r, Z.pow_1_r by lia. cbn [Z.b2z]. lia.
    + cbn. rewrite IH. f_equal.
      rewrite Z.pow_add_r, Z.pow_1_r by lia. cbn [Z.b2z]. lia.
Qed.

Lemma binary_value_bits (w u : Z) :
  1 <= w -> 0 <= u < 2 ^ w ->
  binary_value (bsm_uint64_trace.bits (Z.to_nat w) u (2 ^ (w - 1))) = Some u.
Proof.
  intros Hw Hu. unfold binary_value.
  pose proof (binary_value_from_bits (Z.to_nat w) u 0) as H.
  rewrite Z2Nat.id in H by lia. rewrite H. f_equal.
  rewrite Z.mod_small by lia. lia.
Qed.

(** The masks. *)
Lemma uint64_make_mask (w : Z) :
  0 <= w -> bsm_uint64_trace.make_mask w = Z.ones (Z.min w 64).
Proof.
  intros Hw. unfold bsm_uint64_trace.make_mask, UINT64_MOD.
  destruct (Z.ltb_spec w 64) as [Hlt|Hge].
  - rewrite Z.min_l by lia.
    assert (H : forallb (fun n => Z.lxor (Z.shiftl (2 ^ 64 - 1) (Z.of_nat n) mod 2 ^ 64)
                                         (2 ^ 64 - 1) =? Z.ones (Z.of_nat n))
                        (seq 0 64) = true) by (vm_compute; reflexivity).
    rewrite forallb_forall in H.
    specialize (H (Z.to_nat w)). rewrite Z2Nat.id in H by lia.
    apply Z.eqb_eq, H, in_seq. lia.
  - rewrite Z.min_r by lia. reflexivity.
Qed.

Lemma uint_make_mask (w : Z) :
  0 <= w -> bsm_unsigned_int_trace.make_mask w = Z.ones (Z.min w 32).
Proof.
  intros Hw. unfold bsm_unsigned_int_trace.make_mask, UINT_MOD.
  destruct (Z.ltb_spec w 32) as [Hlt|Hge].
  - rewrite Z.min_l by lia.
    rewrite Z.shiftl_mul_pow2 by lia. rewrite Z.lnot_eq_pred_opp, Z.ones_equiv.
    assert (0 < 2 ^ w) by (apply Z.pow_pos_nonneg; lia).
    assert (2 ^ w < 2 ^ 32) by (apply Z.pow_lt_mono_r; lia).
    rewrite Z.mod_small; lia.
  - rewrite Z.min_r by lia. reflexivity.
Qed.

(** The overflow check and the digits of the [write] members, for a type
    of [B] bits. *)
Lemma rawdata_spec (B w u : Z) :
  1 <= w <= B -> 0 <= u < 2 ^ B ->
  let rawdata :=
    if negb (Z.land u (Z.ones (Z.min w B)) =? u)
    then replicate (Z.to_nat w) "x"%char
    else bsm_uint64_trace.bits (Z.to_nat w) u (Z.shiftl 1 (w - 1) mod 2 ^ B) in
  length rawdata = Z.to_nat w
  /\ (u < 2 ^ w -> binary_value rawdata = Some u /\ Forall binary_digit rawdata)
  /\ (2 ^ w <= u -> rawdata = replicate (Z.to_nat w) "x"%char).
Proof.
  intros Hw Hu. cbn zeta.
  rewrite Z.min_l by lia. rewrite Z.land_ones by lia.
  assert (Hp : 0 < 2 ^ w) by (apply Z.pow_pos_nonneg; lia).
  assert (Hm : Z.shiftl 1 (w - 1) mod 2 ^ B = 2 ^ (w - 1)).
  { rewrite Z.shiftl_mul_pow2 by lia. rewrite Z.mul_1_l.
    apply Z.mod_small. split; [apply Z.pow_nonneg; lia|].
    apply Z.pow_lt_mono_r; lia. }
  rewrite Hm.
  destruct (Z.eqb_spec (u mod 2 ^ w) u) as [He|Hne]; cbn [negb].
  - assert (u < 2 ^ w) by (rewrite <- He; apply Z.mod_pos_bound; lia).
    split; [apply bits_length|]. split; [|lia].
    intros _. split; [apply binary_value_bits; lia | apply bits_digits].
  - split; [apply length_replicate|]. split; [|reflexivity].
    intros Hlt. rewrite Z.mod_small in Hne by lia. contradiction.
Qed.

(** [strip_leading_bits] on a run followed by something else. *)
Lemma strip_leading_bits_other (s : list ascii) :
  (forall c, s !! 0%nat = Some c -> c <> "0"%char /\ c <> "x"%char /\ c <> "z"%char) ->
  strip_leading_bits s = s.
Proof.
  intros Hfirst. unfold strip_leading_bits, strip_leading_bits_pos, c_str_at, strlen.
  destruct (length s <? 2)%nat; [reflexivity|].
  unfold deref. destruct (s !! 0%nat) as [c|] eqn:E; simpl.
  - destruct (Hfirst c eq_refl) as (H0 & Hx & Hz).
    apply Ascii.eqb_neq in H0, Hx, Hz. rewrite H0, Hx, Hz. reflexivity.
  - reflexivity.
Qed.

Lemma strip_leading_bits_run (c : ascii) (k : nat) (rest : list ascii) :
  c = "0"%char \/ c = "x"%char \/ c = "z"%char ->
  (1 <= k)%nat -> (2 <= k + length rest)%nat -> head rest <> Some c ->
  strip_leading_bits (replicate k c ++ rest)
  = if Ascii.eqb c "0" && bool_decide (head rest = Some "1"%char)
    then rest else c :: rest.
Proof.
  intros Hc Hk Hlen Hhd.
  assert (Hnul : c <> NUL) by (destruct Hc as [->| [->| ->]]; discriminate).
  set (s := replicate k c ++ rest).
  assert (Hrun : forall i, (i < k)%nat -> s !! i = Some c).
  { intros i Hi. unfold s. rewrite lookup_app_l by (rewrite length_replicate; lia).
    apply lookup_replicate_2. exact Hi. }
  assert (Hk' : s !! k = head rest).
  { unfold s. rewrite lookup_app_r by (rewrite length_replicate; lia).
    rewrite length_replicate, Nat.sub_diag. destruct rest; reflexivity. }
  assert (Hend : s !! k <> Some c) by (rewrite Hk'; exact Hhd).
  assert (Hslen : length s = (k + length rest)%nat)
    by (unfold s; rewrite length_app, length_replicate; reflexivity).
  unfold strip_leading_bits, strip_leading_bits_pos, c_str_at, strlen.
  assert (Hlt : (length s <? 2)%nat = false) by (apply Nat.ltb_ge; lia).
  rewrite Hlt.
  assert (Hd0 : deref s 0 = c) by (unfold deref; rewrite (Hrun 0%nat) by lia; reflexivity).
  rewrite Hd0.
  assert (Hguard : negb (Ascii.eqb c "z") && negb (Ascii.eqb c "x")
                   && negb (Ascii.eqb c "0") = false)
    by (destruct Hc as [->| [->| ->]]; reflexivity).
  rewrite Hguard. simpl orb. cbv iota.
  rewrite (skip_first_char_stops c s k Hnul Hrun Hend) by lia.
  assert (Hd1 : Ascii.eqb (deref s k) "1" = bool_decide (head rest = Some "1"%char)).
  { unfold deref. rewrite Hk'. destruct (head rest) as [d|]; cbn.
    - destruct (Ascii.eqb_spec d "1") as [->|Hne].
      + rewrite bool_decide_eq_true_2; reflexivity.
      + rewrite bool_decide_eq_false_2; [reflexivity | congruence].
    - rewrite bool_decide_eq_false_2; [reflexivity | discriminate]. }
  rewrite Hd1.
  destruct (Ascii.eqb c "0" && bool_decide (head rest = Some "1"%char)).
  - unfold s. rewrite drop_app_length'; [reflexivity | rewrite length_replicate; reflexivity].
  - unfold s. destruct k as [|k]; [lia|].
    replace (S k - 1)%nat with k by lia.
    rewrite drop_app_le by (rewrite length_replicate; lia).
    rewrite drop_replicate. replace (S k - k)%nat with 1%nat by lia. reflexivity.
Qed.

Lemma binary_value_from_zeros (k : nat) (rest : list ascii) :
  binary_value_from 0 (replicate k "0"%char ++ rest) = binary_value_from 0 rest.
Proof. induction k as [|k IH]; [reflexivity | exact IH]. Qed.

Lemma binary_leading_zeros (ds : list ascii) :
  Forall binary_digit ds ->
  exists k rest, ds = replicate k "0"%char ++ rest
                 /\ (rest = [] \/ head rest = Some "1"%char).
Proof.
  induction 1 as [|c ds Hc _ IH].
  - exists 0%nat, []. split; [reflexivity | left; reflexivity].
  - destruct Hc as [->| ->].
    + destruct IH as (k & rest & -> & Hrest). exists (S k), rest. split; [reflexivity | exact Hrest].
    + exists 0%nat, ("1"%char :: ds). split; [reflexivity | right; reflexivity].
Qed.

(** On binary digits, [strip_leading_bits] keeps the value and leaves no
    leading zero. *)
Lemma strip_leading_bits_binary (ds : list ascii) :
  Forall binary_digit ds -> (2 <= length ds)%nat ->
  binary_value (strip_leading_bits ds) = binary_value ds
  /\ minimal_binary (strip_leading_bits ds).
Proof.
  intros Hds Hlen. destruct (binary_leading_zeros ds Hds) as (k & rest & -> & Hrest).
  rewrite length_app, length_replicate in Hlen.
  destruct k as [|k].
  - cbn [replicate app] in *. destruct Hrest as [->|Hhd]; [cbn in Hlen; lia|].
    rewrite strip_leading_bits_other.
    + split; [reflexivity | right; exact Hhd].
    + intros c Hc. destruct rest as [|d rest]; [discriminate|].
      cbn in Hhd, Hc. injection Hhd as ->. injection Hc as <-.
      repeat split; discriminate.
  - rewrite strip_leading_bits_run; [|left; reflexivity|lia|lia|].
    + unfold binary_value. rewrite binary_value_from_zeros.
      destruct Hrest as [->|Hhd].
      * cbn. split; [reflexivity | left; reflexivity].
      * rewrite Hhd. cbn [Ascii.eqb andb].
        rewrite bool_decide_eq_true_2 by reflexivity.
        change (Ascii.eqb "0" "0") with true. cbn [andb].
        split; [reflexivity | right; exact Hhd].
    + destruct Hrest as [->|Hhd]; [discriminate|]. rewrite Hhd. discriminate.
Qed.

Lemma strip_leading_bits_overflow (n : nat) :
  (2 <= n)%nat -> strip_leading_bits (replicate n "x"%char) = ["x"%char].
Proof.
  intros Hn. rewrite <- (app_nil_r (replicate n "x"%char)).
  rewrite strip_leading_bits_run; [reflexivity | auto | lia | cbn; lia | discriminate].
Qed.

Lemma vcd_flag (name_ bsm_name_ : string) (w p trig : Z) :
  bsm_trace.is_print_vcd (bsm_trace.set_bit_width w (bsm_trace.ctor name_ bsm_name_ p trig))
  = (p =? bsm_type.BT_VCD).
Proof. reflexivity. Qed.

Lemma strip_leading_bits_length (s : list ascii) :
  (length (strip_leading_bits s) <= length s)%nat.
Proof. unfold strip_leading_bits, c_str_at. rewrite length_drop. lia. Qed.

Lemma option_if_Some {A} (c : bool) (x y : A) :
  (if c then Some x else Some y) = Some (if c then x else y).
Proof. destruct c; reflexivity. Qed.

(** The guards of a [format] whose bit width [w] is between 1 and the
    number [B] of bits of the type. *)
Ltac width_in_range B :=
  match goal with
  | |- context [(?w <? 0) || (1000 <=? ?w)] =>
      replace ((w <? 0) || (1000 <=? w)) with false
        by (symmetry; apply orb_false_iff; split; [apply Z.ltb_ge | apply Z.leb_gt]; lia);
      replace ((1 <=? w) && (w <=? B)) with true
        by (symmetry; apply andb_true_iff; split; apply Z.leb_le; lia)
  end;
  cbv zeta iota; rewrite option_if_Some; cbn [mbind option_bind].

(** X4.  In the simple print mode a [bsm_uint64_trace] of bit
    width [w] between 1 and 64 writes exactly [w] characters and records
    the value: the binary digits of the value, the most significant
    first, when the value is below [2 ^ w], and [w] times 'x' when it is
    not. *)
Theorem uint64_trace_writes_digits (object_ v : Z) (name_ bsm_name_ : string)
        (w trigger_type_ : Z) (file : FILE) :
  1 <= w <= 64 -> 0 <= v < UINT64_MOD ->
  let tr := value_trace.set_object v
              (bsm_uint64_trace.ctor object_ name_ bsm_name_ w
                 bsm_type.BT_SIMPLE trigger_type_) in
  exists ds,
    value_trace.write (Some file) tr
    = Some (Some (file +:+ string_of_list_ascii ds), value_trace.set_old_value v tr,
       [Wrote true])
    /\ length ds = Z.to_nat w
    /\ (v < 2 ^ w -> binary_value ds = Some v)
    /\ (2 ^ w <= v -> ds = replicate (Z.to_nat w) "x"%char).
Proof.
  intros Hw Hv tr.
  pose proof (rawdata_spec 64 w v Hw Hv) as H. cbn zeta in H.
  destruct H as (Hlen & Hfit & Hover).
  eexists. split; [|split; [exact Hlen | split; [intros Hlt; apply (Hfit Hlt) | exact Hover]]].
  unfold value_trace.write, tr. cbn [value_trace.format value_trace.set_object
    bsm_uint64_trace.ctor value_trace.base value_trace.object].
  unfold bsm_uint64_trace.format. rewrite vcd_flag. 
  change (bsm_type.BT_SIMPLE =? bsm_type.BT_VCD) with false. cbv iota.
  cbn [bsm_trace.bit_width bsm_trace.set_bit_width].
  width_in_range 64. rewrite uint64_make_mask by lia. unfold fputs, UINT64_MOD. reflexivity.
Qed.

Lemma uint64_trace_writes_digits_witness :
  let tr := value_trace.set_object 5
              (bsm_uint64_trace.ctor 0 "count" "aaaaa" 4
                 bsm_type.BT_SIMPLE bsm_trace.BSM_TRIGGER_VAL_BOTH) in
  exists ds,
    value_trace.write (Some "#3"%string) tr
    = Some (Some ("#3" +:+ string_of_list_ascii ds), value_trace.set_old_value 5 tr,
       [Wrote true])
    /\ length ds = Z.to_nat 4
    /\ (5 < 2 ^ 4 -> binary_value ds = Some 5)
    /\ (2 ^ 4 <= 5 -> ds = replicate (Z.to_nat 4) "x"%char).
Proof.
  apply (uint64_trace_writes_digits 0 5 "count" "aaaaa" 4
           bsm_trace.BSM_TRIGGER_VAL_BOTH "#3"); unfold UINT64_MOD; lia.
Defined.

Example uint64_trace_writes_0101 :
  option_map (fun r => fst (fst r))
    (value_trace.write (Some EmptyString)
           (value_trace.set_object 5
              (bsm_uint64_trace.ctor 0 "count" "aaaaa" 4
                 bsm_type.BT_SIMPLE bsm_trace.BSM_TRIGGER_VAL_BOTH)))
  = Some (Some "0101"%string).
Proof. reflexivity. Qed.

(** X5.  In the VCD print mode a [bsm_uint64_trace] of bit width
    between 2 and 64 writes "b", a binary numeral, a blank and the BSM
    name, when the BSM name has at most 933 characters, so that the line
    fits into [compdata] (the names [obtain_name] hands out have five).
    When the value is below [2 ^ w] the numeral denotes the value
    and has no leading zero (it is "0" for the value 0):
    [compose_data_line] passes the digits through [strip_leading_bits].
    When the value does not fit, the numeral is a single 'x'. *)
Theorem uint64_trace_vcd_line (object_ v : Z) (name_ bsm_name_ : string)
        (w trigger_type_ : Z) (file : FILE) :
  2 <= w <= 64 -> 0 <= v < UINT64_MOD -> (String.length bsm_name_ <= 933)%nat ->
  let tr := value_trace.set_object v
              (bsm_uint64_trace.ctor object_ name_ bsm_name_ w
                 bsm_type.BT_VCD trigger_type_) in
  exists ds,
    value_trace.write (Some file) tr
    = Some (Some (file +:+ "b" +:+ string_of_list_ascii ds +:+ " " +:+ bsm_name_),
       value_trace.set_old_value v tr, [Wrote true])
    /\ (v < 2 ^ w -> binary_value ds = Some v /\ minimal_binary ds)
    /\ (2 ^ w <= v -> ds = ["x"%char]).
Proof.
  intros Hw Hv Hname tr.
  assert (Hw1 : 1 <= w <= 64) by lia.
  pose proof (rawdata_spec 64 w v Hw1 Hv) as H. cbn zeta in H.
  destruct H as (Hlen & Hfit & Hover).
  eexists. split; [|split].
  2:{ intros Hlt. destruct (Hfit Hlt) as [Hval Hdig].
      destruct (strip_leading_bits_binary _ Hdig) as [Hsv Hmin]; [rewrite Hlen; lia|].
      split; [rewrite Hsv; exact Hval | exact Hmin]. }
  2:{ intros Hge. rewrite (Hover Hge). apply strip_leading_bits_overflow. lia. }
  unfold value_trace.write, tr. cbn [value_trace.format value_trace.set_object
    bsm_uint64_trace.ctor value_trace.base value_trace.object].
  unfold bsm_uint64_trace.format. rewrite vcd_flag.
  change (bsm_type.BT_VCD =? bsm_type.BT_VCD) with true. cbv iota.
  unfold bsm_trace.compose_data_line.
  cbn [bsm_trace.bit_width bsm_trace.set_bit_width bsm_trace.bsm_name bsm_trace.ctor].
  replace (w =? 0) with false by (symmetry; apply Z.eqb_neq; lia).
  replace (w =? 1) with false by (symmetry; apply Z.eqb_neq; lia).
  width_in_range 64. rewrite uint64_make_mask by lia.
  match goal with
  | |- context [(String.length ?c <? 1000)%nat] =>
      assert (Hfits : (String.length c <? 1000)%nat = true)
  end.
  { apply Nat.ltb_lt.
    rewrite string_app_length, string_app_length, string_app_length,
      string_of_list_ascii_length.
    match goal with
    | |- context [length (strip_leading_bits ?r)] =>
        pose proof (strip_leading_bits_length r) as Hs
    end.
    unfold UINT64_MOD in Hs |- *. rewrite Hlen in Hs. cbn [String.length]. lia. }
  rewrite Hfits. cbn [mbind option_bind]. unfold fputs, UINT64_MOD. reflexivity.
Qed.

Lemma uint64_trace_vcd_line_witness :
  let tr := value_trace.set_object 5
              (bsm_uint64_trace.ctor 0 "count" "aaaaa" 8
                 bsm_type.BT_VCD bsm_trace.BSM_TRIGGER_VAL_BOTH) in
  exists ds,
    value_trace.write (Some EmptyString) tr
    = Some (Some (EmptyString +:+ "b" +:+ string_of_list_ascii ds +:+ " " +:+ "aaaaa"),
       value_trace.set_old_value 5 tr, [Wrote true])
    /\ (5 < 2 ^ 8 -> binary_value ds = Some 5 /\ minimal_binary ds)
    /\ (2 ^ 8 <= 5 -> ds = ["x"%char]).
Proof.
  apply (uint64_trace_vcd_line 0 5 "count" "aaaaa" 8
           bsm_trace.BSM_TRIGGER_VAL_BOTH EmptyString); unfold UINT64_MOD; cbn; lia.
Defined.

Example uint64_trace_vcd_b101 :
  option_map (fun r => fst (fst r))
    (value_trace.write (Some EmptyString)
           (value_trace.set_object 5
              (bsm_uint64_trace.ctor 0 "count" "aaaaa" 8
                 bsm_type.BT_VCD bsm_trace.BSM_TRIGGER_VAL_BOTH)))
  = Some (Some "b101 aaaaa"%string).
Proof. reflexivity. Qed.

Lemma sint_make_mask (w : Z) :
  0 <= w -> bsm_signed_int_trace.make_mask w = Z.ones (Z.min w 32).
Proof. exact (uint_make_mask w). Qed.

Lemma int64_make_mask (w : Z) :
  0 <= w -> bsm_int64_trace.make_mask w = Z.ones (Z.min w 64).
Proof. exact (uint64_make_mask w). Qed.

(** X6.  The same for a [bsm_unsigned_int_trace], whose mask
    and bit mask are computed in 32 bits: for a bit width [w] between 1
    and 32 it writes the [w] binary digits of a value below [2 ^ w], and
    [w] times 'x' for a value that does not fit. *)
Theorem unsigned_int_trace_writes_digits (object_ v : Z) (name_ bsm_name_ : string)
        (w trigger_type_ : Z) (file : FILE) :
  1 <= w <= 32 -> 0 <= v < UINT_MOD ->
  let tr := value_trace.set_object v
              (bsm_unsigned_int_trace.ctor object_ name_ bsm_name_ w
                 bsm_type.BT_SIMPLE trigger_type_) in
  exists ds,
    value_trace.write (Some file) tr
    = Some (Some (file +:+ string_of_list_ascii ds), value_trace.set_old_value v tr,
       [Wrote true])
    /\ length ds = Z.to_nat w
    /\ (v < 2 ^ w -> binary_value ds = Some v)
    /\ (2 ^ w <= v -> ds = replicate (Z.to_nat w) "x"%char).
Proof.
  intros Hw Hv tr.
  pose proof (rawdata_spec 32 w v Hw Hv) as H. cbn zeta in H.
  destruct H as (Hlen & Hfit & Hover).
  eexists. split; [|split; [exact Hlen | split; [intros Hlt; apply (Hfit Hlt) | exact Hover]]].
  unfold value_trace.write, tr. cbn [value_trace.format value_trace.set_object
    bsm_unsigned_int_trace.ctor value_trace.base value_trace.object].
  unfold bsm_unsigned_int_trace.format. rewrite vcd_flag.
  change (bsm_type.BT_SIMPLE =? bsm_type.BT_VCD) with false. cbv iota.
  cbn [bsm_trace.bit_width bsm_trace.set_bit_width].
  width_in_range 32. rewrite uint_make_mask by lia. unfold fputs, UINT_MOD. reflexivity.
Qed.

Lemma unsigned_int_trace_writes_digits_witness :
  let tr := value_trace.set_object 9
              (bsm_unsigned_int_trace.ctor 0 "count" "aaaaa" 3
                 bsm_type.BT_SIMPLE bsm_trace.BSM_TRIGGER_VAL_BOTH) in
  exists ds,
    value_trace.write (Some EmptyString) tr
    = Some (Some (EmptyString +:+ string_of_list_ascii ds), value_trace.set_old_value 9 tr,
       [Wrote true])
    /\ length ds = Z.to_nat 3
    /\ (9 < 2 ^ 3 -> binary_value ds = Some 9)
    /\ (2 ^ 3 <= 9 -> ds = replicate (Z.to_nat 3) "x"%char).
Proof.
  apply (unsigned_int_trace_writes_digits 0 9 "count" "aaaaa" 3
           bsm_trace.BSM_TRIGGER_VAL_BOTH EmptyString); unfold UINT_MOD; lia.
Defined.

Example unsigned_int_trace_writes_xxx :
  option_map (fun r => fst (fst r))
    (value_trace.write (Some EmptyString)
           (value_trace.set_object 9
              (bsm_unsigned_int_trace.ctor 0 "count" "aaaaa" 3
                 bsm_type.BT_SIMPLE bsm_trace.BSM_TRIGGER_VAL_BOTH)))
  = Some (Some "xxx"%string).
Proof. reflexivity. Qed.

(** The digits of a signed value [v] of a type of [B] bits. *)
Lemma signed_rawdata_spec (B w v : Z) :
  1 <= w <= B -> - 2 ^ (B - 1) <= v < 2 ^ (B - 1) ->
  let u := v mod 2 ^ B in
  let rawdata :=
    if negb (Z.land u (Z.ones (Z.min w B)) =? u)
    then replicate (Z.to_nat w) "x"%char
    else bsm_uint64_trace.bits (Z.to_nat w) u (Z.shiftl 1 (w - 1) mod 2 ^ B) in
  length rawdata = Z.to_nat w
  /\ (0 <= v < 2 ^ w -> binary_value rawdata = Some v)
  /\ (2 ^ w <= v -> rawdata = replicate (Z.to_nat w) "x"%char)
  /\ (v < 0 -> w < B -> rawdata = replicate (Z.to_nat w) "x"%char)
  /\ (v < 0 -> w = B -> binary_value rawdata = Some (v + 2 ^ B)).
Proof.
  intros Hw Hv u.
  assert (HB : 2 ^ B = 2 * 2 ^ (B - 1)).
  { replace B with (B - 1 + 1) at 1 by lia. rewrite Z.pow_add_r by lia. lia. }
  assert (Hpos : 0 < 2 ^ (B - 1)) by (apply Z.pow_pos_nonneg; lia).
  assert (Hu : u = if v <? 0 then v + 2 ^ B else v).
  { unfold u. destruct (Z.ltb_spec v 0).
    - symmetry. apply (Z.mod_unique v (2 ^ B) (-1)); lia.
    - apply Z.mod_small. lia. }
  assert (Hur : 0 <= u < 2 ^ B) by (apply Z.mod_pos_bound; lia).
  pose proof (rawdata_spec B w u Hw Hur) as H. cbn zeta in H |- *.
  destruct H as (Hlen & Hfit & Hover).
  split; [exact Hlen|]. split; [|split; [|split]].
  - intros Hv'. destruct (Z.ltb_spec v 0); [lia|]. subst u. rewrite Hu.
    rewrite Hu in Hfit. apply Hfit. lia.
  - intros Hge. apply Hover. destruct (Z.ltb_spec v 0); lia.
  - intros Hneg Hlt. apply Hover. destruct (Z.ltb_spec v 0); [|lia].
    assert (2 ^ w <= 2 ^ (B - 1)) by (apply Z.pow_le_mono_r; lia). lia.
  - intros Hneg ->. destruct (Z.ltb_spec v 0); [|lia].
    replace (v + 2 ^ B) with u by lia. apply Hfit. lia.
Qed.

(** X7.  The traces of the signed types convert the value to the
    unsigned type before the overflow check.  A [bsm_signed_int_trace] of
    bit width [w] between 1 and 32 writes the binary digits of a value
    between 0 and [2 ^ w - 1]; a negative value is written as [w] times
    'x' when [w] is below 32, and in two's complement (the digits of the
    value plus [2 ^ 32]) when [w] is 32; a value of [2 ^ w] or more is
    written as [w] times 'x'.  The same holds for [bsm_int64_trace] with
    64 in the place of 32. *)
Theorem signed_traces_write_digits (object_ v : Z) (name_ bsm_name_ : string)
        (w trigger_type_ : Z) (file : FILE) :
  (1 <= w <= 32 -> - 2 ^ 31 <= v < 2 ^ 31 ->
   let tr := value_trace.set_object v
               (bsm_signed_int_trace.ctor object_ name_ bsm_name_ w
                  bsm_type.BT_SIMPLE trigger_type_) in
   exists ds,
     value_trace.write (Some file) tr
     = Some (Some (file +:+ string_of_list_ascii ds), value_trace.set_old_value v tr,
        [Wrote true])
     /\ length ds = Z.to_nat w
     /\ (0 <= v < 2 ^ w -> binary_value ds = Some v)
     /\ (2 ^ w <= v -> ds = replicate (Z.to_nat w) "x"%char)
     /\ (v < 0 -> w < 32 -> ds = replicate (Z.to_nat w) "x"%char)
     /\ (v < 0 -> w = 32 -> binary_value ds = Some (v + 2 ^ 32)))
  /\ (1 <= w <= 64 -> - 2 ^ 63 <= v < 2 ^ 63 ->
      let tr := value_trace.set_object v
                  (bsm_int64_trace.ctor object_ name_ bsm_name_ w
                     bsm_type.BT_SIMPLE trigger_type_) in
      exists ds,
        value_trace.write (Some file) tr
        = Some (Some (file +:+ string_of_list_ascii ds), value_trace.set_old_value v tr,
           [Wrote true])
        /\ length ds = Z.to_nat w
        /\ (0 <= v < 2 ^ w -> binary_value ds = Some v)
        /\ (2 ^ w <= v -> ds = replicate (Z.to_nat w) "x"%char)
        /\ (v < 0 -> w < 64 -> ds = replicate (Z.to_nat w) "x"%char)
        /\ (v < 0 -> w = 64 -> binary_value ds = Some (v + 2 ^ 64))).
Proof.
  split.
  - intros Hw Hv tr.
    pose proof (signed_rawdata_spec 32 w v Hw Hv) as H. cbn zeta in H.
    eexists. split; [|exact H].
    unfold value_trace.write, tr. cbn [value_trace.format value_trace.set_object
      bsm_signed_int_trace.ctor value_trace.base value_trace.object].
    unfold bsm_signed_int_trace.format. rewrite vcd_flag.
    change (bsm_type.BT_SIMPLE =? bsm_type.BT_VCD) with false. cbv iota.
    cbn [bsm_trace.bit_width bsm_trace.set_bit_width].
    width_in_range 32. rewrite sint_make_mask by lia.
    unfold fputs, bsm_signed_int_trace.to_unsigned, UINT_MOD. reflexivity.
  - intros Hw Hv tr.
    pose proof (signed_rawdata_spec 64 w v Hw Hv) as H. cbn zeta in H.
    eexists. split; [|exact H].
    unfold value_trace.write, tr. cbn [value_trace.format value_trace.set_object
      bsm_int64_trace.ctor value_trace.base value_trace.object].
    unfold bsm_int64_trace.format. rewrite vcd_flag.
    change (bsm_type.BT_SIMPLE =? bsm_type.BT_VCD) with false. cbv iota.
    cbn [bsm_trace.bit_width bsm_trace.set_bit_width].
    width_in_range 64. rewrite int64_make_mask by lia.
    unfold fputs, bsm_int64_trace.to_unsigned, UINT64_MOD. reflexivity.
Qed.

Lemma signed_traces_write_digits_witness :
  (let tr := value_trace.set_object (-1)
               (bsm_signed_int_trace.ctor 0 "delta" "aaaaa" 8
                  bsm_type.BT_SIMPLE bsm_trace.BSM_TRIGGER_VAL_BOTH) in
   exists ds,
     value_trace.write (Some EmptyString) tr
     = Some (Some (EmptyString +:+ string_of_list_ascii ds), value_trace.set_old_value (-1) tr,
        [Wrote true])
     /\ length ds = Z.to_nat 8
     /\ (0 <= -1 < 2 ^ 8 -> binary_value ds = Some (-1))
     /\ (2 ^ 8 <= -1 -> ds = replicate (Z.to_nat 8) "x"%char)
     /\ (-1 < 0 -> 8 < 32 -> ds = replicate (Z.to_nat 8) "x"%char)
     /\ (-1 < 0 -> 8 = 32 -> binary_value ds = Some (-1 + 2 ^ 32)))
  /\ (let tr := value_trace.set_object (-1)
                  (bsm_int64_trace.ctor 0 "delta" "aaaaa" 64
                     bsm_type.BT_SIMPLE bsm_trace.BSM_TRIGGER_VAL_BOTH) in
      exists ds,
        value_trace.write (Some EmptyString) tr
        = Some (Some (EmptyString +:+ string_of_list_ascii ds),
           value_trace.set_old_value (-1) tr, [Wrote true])
        /\ length ds = Z.to_nat 64
        /\ (0 <= -1 < 2 ^ 64 -> binary_value ds = Some (-1))
        /\ (2 ^ 64 <= -1 -> ds = replicate (Z.to_nat 64) "x"%char)
        /\ (-1 < 0 -> 64 < 64 -> ds = replicate (Z.to_nat 64) "x"%char)
        /\ (-1 < 0 -> 64 = 64 -> binary_value ds = Some (-1 + 2 ^ 64))).
Proof.
  split.
  - apply (proj1 (signed_traces_write_digits 0 (-1) "delta" "aaaaa" 8
                    bsm_trace.BSM_TRIGGER_VAL_BOTH EmptyString)); lia.
  - apply (proj2 (signed_traces_write_digits 0 (-1) "delta" "aaaaa" 64
                    bsm_trace.BSM_TRIGGER_VAL_BOTH EmptyString)); lia.
Defined.

Example signed_int_trace_negative :
  option_map (fun r => fst (fst r))
    (value_trace.write (Some EmptyString)
           (value_trace.set_object (-1)
              (bsm_signed_int_trace.ctor 0 "delta" "aaaaa" 8
                 bsm_type.BT_SIMPLE bsm_trace.BSM_TRIGGER_VAL_BOTH)))
  = Some (Some "xxxxxxxx"%string).
Proof. reflexivity. Qed.

(** ** [bsm_enum_trace] *)

Lemma count_bits_spec (fuel : nat) :
  forall x acc, 0 <= x < 2 ^ Z.of_nat fuel ->
    let w := bsm_enum_trace.count_bits fuel x acc - acc in
    0 <= w <= Z.of_nat fuel /\ x < 2 ^ w /\ (x <> 0 -> 2 ^ (w - 1) <= x).
Proof.
  induction fuel as [|fuel IH]; intros x acc Hx; cbn zeta.
  - cbn in *. assert (x = 0) by lia. subst. rewrite Z.sub_diag. cbn. lia.
  - cbn [bsm_enum_trace.count_bits].
    destruct (Z.eqb_spec x 0) as [->|Hne]; cbn [negb].
    + rewrite Z.sub_diag. cbn. lia.
    + rewrite Z.shiftr_div_pow2, Z.pow_1_r by lia.
      assert (Hx2 : 0 <= x / 2 < 2 ^ Z.of_nat fuel).
      { replace (Z.of_nat (S fuel)) with (Z.of_nat fuel + 1) in Hx by lia.
        rewrite Z.pow_add_r, Z.pow_1_r in Hx by lia.
        split; [apply Z.div_pos; lia | apply Z.div_lt_upper_bound; lia]. }
      specialize (IH (x / 2) (acc + 1) Hx2). cbn zeta in IH.
      set (r := bsm_enum_trace.count_bits fuel (x / 2) (acc + 1)) in *.
      destruct IH as (Hr & Hhi & Hlo).
      replace (r - acc) with ((r - (acc + 1)) + 1) by lia.
      set (k := r - (acc + 1)) in *.
      rewrite Z.pow_add_r, Z.pow_1_r by lia.
      replace (k + 1 - 1) with k by lia.
      pose proof (Z.div_mod x 2 ltac:(lia)) as Hdm.
      pose proof (Z.mod_pos_bound x 2 ltac:(lia)) as Hmb.
      split; [lia|]. split; [lia|]. intros _.
      destruct (Z.eq_dec (x / 2) 0) as [Hz|Hnz].
      * assert (k = 0).
        { destruct (Z.eq_dec k 0) as [|Hk]; [assumption|exfalso].
          unfold k, r in Hk. rewrite Hz in Hk.
          destruct fuel; cbn in Hk; lia. }
        subst k. rewrite H. cbn. lia.
      * specialize (Hlo Hnz).
        destruct (Z.eq_dec k 0) as [Hk|Hk].
        -- rewrite Hk in *. cbn in *. lia.
        -- replace k with (k - 1 + 1) by lia. rewrite Z.pow_add_r, Z.pow_1_r by lia. lia.
Qed.

(** X8.  The constructor of [bsm_enum_trace] gives the trace the
    least bit width in which every index of a literal fits: for [n]
    literals, [n] between 1 and [2 ^ 32 - 1], the width [w] satisfies
    [n <= 2 ^ w], and [2 ^ (w - 1) < n] when there are two literals or
    more; a single literal gives the width 0.  With two literals or more
    every value below [n] is written with its [w] binary digits, never as
    an overflow. *)
Theorem enum_trace_width (object_ v : Z) (name_ bsm_name_ : string)
        (enum_literals_ : list string) (trigger_type_ : Z) (file : FILE) :
  let nliterals := Z.of_nat (length enum_literals_) in
  let w := bsm_enum_trace.width_of enum_literals_ in
  1 <= nliterals < UINT_MOD ->
  0 <= w <= 32
  /\ nliterals <= 2 ^ w
  /\ (nliterals = 1 -> w = 0)
  /\ (2 <= nliterals -> 2 ^ (w - 1) < nliterals)
  /\ (2 <= nliterals -> 0 <= v < nliterals ->
      let tr := value_trace.set_object v
                  (bsm_enum_trace.ctor object_ name_ bsm_name_ enum_literals_
                     bsm_type.BT_SIMPLE trigger_type_) in
      exists ds,
        value_trace.write (Some file) tr
        = Some (Some (file +:+ string_of_list_ascii ds), value_trace.set_old_value v tr,
           [Wrote true])
        /\ length ds = Z.to_nat w
        /\ binary_value ds = Some v).
Proof.
  intros nliterals w Hn.
  assert (Hw : w = bsm_enum_trace.count_bits 32 (nliterals - 1) 0 - 0).
  { unfold w, bsm_enum_trace.width_of. fold nliterals. unfold UINT_MOD in *.
    rewrite (Z.mod_small nliterals) by lia.
    rewrite (Z.mod_small (nliterals - 1)) by lia. lia. }
  pose proof (count_bits_spec 32 (nliterals - 1) 0) as H. cbn zeta in H.
  rewrite <- Hw in H. unfold UINT_MOD in Hn.
  destruct H as (Hr & Hhi & Hlo); [change (Z.of_nat 32) with 32; lia|].
  change (Z.of_nat 32) with 32 in Hr.
  split; [exact Hr|]. split; [lia|]. split; [|split].
  - intros H1. rewrite Hw, H1. reflexivity.
  - intros H2. specialize (Hlo ltac:(lia)). lia.
  - intros H2 Hv tr.
    assert (Hw1 : 1 <= w <= 32).
    { split; [|lia]. destruct (Z.eq_dec w 0) as [Hz|]; [|lia].
      rewrite Hz in Hhi. cbn in Hhi. lia. }
    pose proof (rawdata_spec 32 w v Hw1 ltac:(lia)) as H. cbn zeta in H.
    destruct H as (Hlen & Hfit & _).
    eexists. split; [|split; [exact Hlen | apply Hfit; lia]].
    unfold value_trace.write, tr. cbn [value_trace.format value_trace.set_object
      bsm_enum_trace.ctor value_trace.base value_trace.object].
    unfold bsm_enum_trace.format. rewrite vcd_flag.
    change (bsm_type.BT_SIMPLE =? bsm_type.BT_VCD) with false. cbv iota.
    cbn [bsm_trace.bit_width bsm_trace.set_bit_width]. fold w.
    width_in_range 32.
    replace (bsm_enum_trace.make_mask w) with (Z.ones (Z.min w 32))
      by (symmetry; apply (uint_make_mask w); lia).
    unfold fputs, UINT_MOD. reflexivity.
Qed.

Lemma enum_trace_width_witness :
  let literals := ["idle"; "run"; "done"]%string in
  let w := bsm_enum_trace.width_of literals in
  0 <= w <= 32
  /\ 3 <= 2 ^ w
  /\ (3 = 1 -> w = 0)
  /\ (2 <= 3 -> 2 ^ (w - 1) < 3)
  /\ (2 <= 3 -> 0 <= 2 < 3 ->
      let tr := value_trace.set_object 2
                  (bsm_enum_trace.ctor 0 "state" "aaaaa" literals
                     bsm_type.BT_SIMPLE bsm_trace.BSM_TRIGGER_VAL_BOTH) in
      exists ds,
        value_trace.write (Some EmptyString) tr
        = Some (Some (EmptyString +:+ string_of_list_ascii ds), value_trace.set_old_value 2 tr,
           [Wrote true])
        /\ length ds = Z.to_nat w
        /\ binary_value ds = Some 2).
Proof.
  apply (enum_trace_width 0 2 "state" "aaaaa" ["idle"; "run"; "done"]%string
           bsm_trace.BSM_TRIGGER_VAL_BOTH EmptyString).
  unfold UINT_MOD. cbn. lia.
Defined.

Example enum_trace_three_literals :
  bsm_enum_trace.width_of ["idle"; "run"; "done"]%string = 2
  /\ bsm_enum_trace.width_of ["only"]%string = 0
  /\ bsm_enum_trace.width_of [] = 32.
Proof. repeat split. Qed.

(** ** [cycle] *)

Lemma sample_one_inv env h l (i : nat) (tr : trace_object) (s s' : sampling) (i' : nat) :
  sample_one env h l i tr s = Some (s', i') ->
  exists c tr1 cs1,
    virtual.changed tr = (c, tr1, cs1)
    /\ settings (file s') = settings (file s)
    /\ ((c = false /\ i' = S i
         /\ traces (file s') = <[i := tr1]> (traces (file s))
         /\ fp (file s') = fp (file s) /\ time_printed s' = time_printed s
         /\ calls s' = calls s ++ tag i cs1)
        \/ (c = true /\ bsm_trace_enable (file s) = false
            /\ exists f2 tr2 cs2,
                 virtual.write None tr1 = Some (f2, tr2, cs2) /\ i' = S i
                 /\ traces (file s') = <[i := tr2]> (<[i := tr1]> (traces (file s)))
                 /\ fp (file s') = fp (file s) /\ time_printed s' = time_printed s
                 /\ calls s' = calls s ++ tag i cs1 ++ tag i cs2)
        \/ (c = true /\ bsm_trace_enable (file s) = true
            /\ virtual.get_trace_type tr1 = bsm_trace.BSM_TRACE_ORIG
            /\ exists f0 file2 tr2 cs2,
                 stamped env h l s = Some (f0, time_printed s')
                 /\ virtual.write f0 tr1 = Some (Some file2, tr2, cs2) /\ i' = S i
                 /\ traces (file s') = <[i := tr2]> (<[i := tr1]> (traces (file s)))
                 /\ fp (file s') = Some (fputc newline file2)
                 /\ calls s' = calls s ++ tag i cs1 ++ tag i cs2)
        \/ (c = true /\ bsm_trace_enable (file s) = true
            /\ virtual.get_trace_type tr1 <> bsm_trace.BSM_TRACE_ORIG
            /\ exists f0 f2 tr2 cs2 data file3 data3 cs3,
                 stamped env h l s = Some (f0, time_printed s')
                 /\ virtual.write None tr1 = Some (f2, tr2, cs2)
                 /\ <[i := tr2]> (<[i := tr1]> (traces (file s))) !! S i = Some data
                 /\ virtual.write f0 data = Some (Some file3, data3, cs3)
                 /\ i' = S (S i)
                 /\ traces (file s')
                    = <[S i := data3]> (<[i := tr2]> (<[i := tr1]> (traces (file s))))
                 /\ fp (file s') = Some (fputc newline file3)
                 /\ calls s' = calls s ++ tag i cs1 ++ tag i cs2 ++ tag (S i) cs3)).
Proof.
  unfold sample_one. intros H.
  destruct (virtual.changed tr) as [[c tr1] cs1].
  exists c, tr1, cs1. split; [reflexivity|].
  destruct c.
  2:{ injection H as <- <-. split; [reflexivity|]. left. repeat split; reflexivity. }
  cbn [file update bsm_trace_enable set_traces] in H.
  destruct (bsm_trace_enable (file s)) eqn:Een; cbn [negb] in H.
  - apply bind_Some in H as (s1 & Hst & H).
    apply bind_Some in H as ([s2 i2] & Hw & H).
    apply bind_Some in H as (s3 & Hnl & [= <- <-]).
    unfold fputc_fp in Hnl. apply bind_Some in Hnl as (file2 & Hfp2 & [= <-]).
    assert (Hs1 : settings (file s1) = settings (file s)
                  /\ traces (file s1) = <[i := tr1]> (traces (file s))
                  /\ calls s1 = calls s ++ tag i cs1
                  /\ stamped env h l s = Some (fp (file s1), time_printed s1)).
    { unfold stamped. cbn [time_printed update file bsm_print_type set_traces] in Hst.
      destruct (negb (time_printed s) && (bsm_print_type (file s) =? bsm_type.BT_VCD)).
      - apply bind_Some in Hst as (tf & Hts & [= <-]).
        unfold print_time_stamp in Hts |- *. cbn [fp set_traces] in Hts.
        destruct (fp (file s)) as [f|]; cbn in Hts |- *; [|discriminate].
        injection Hts as <-. repeat split; reflexivity.
      - injection Hst as <-. repeat split; reflexivity. }
    destruct Hs1 as (Hset1 & Htr1 & Hc1 & Hstamp).
    rewrite Hstamp. clear Hst.
    destruct (virtual.get_trace_type tr1 =? bsm_trace.BSM_TRACE_ORIG) eqn:Ety.
    + apply Z.eqb_eq in Ety.
      apply bind_Some in Hw as ([[f2 tr2] cs2] & Hw & [= <- <-]).
      cbn [fp update_fp update file set_fp] in Hfp2. subst f2.
      split; [exact Hset1|]. right. right. left.
      split; [reflexivity|]. split; [reflexivity|]. split; [exact Ety|].
      exists (fp (file s1)), file2, tr2, cs2.
      cbn. rewrite Htr1, Hc1, <- app_assoc. repeat split; auto.
    + apply Z.eqb_neq in Ety.
      apply bind_Some in Hw as ([[f2 tr2] cs2] & Hw & Hw2).
      apply bind_Some in Hw2 as (data & Hd & Hw2).
      apply bind_Some in Hw2 as ([[f3 data3] cs3] & Hw3 & [= <- <-]).
      cbn [fp update_fp update file set_fp set_traces traces] in Hfp2, Hd, Hw3. subst f3.
      split; [exact Hset1|]. right. right. right.
      split; [reflexivity|]. split; [reflexivity|]. split; [exact Ety|].
      exists (fp (file s1)), f2, tr2, cs2, data, file2, data3, cs3.
      rewrite Htr1 in Hd. cbn. rewrite Htr1, Hc1, <- !app_assoc. repeat split; auto.
  - apply bind_Some in H as ([[f2 tr2] cs2] & Hw & [= <- <-]).
    split; [reflexivity|]. right. left.
    split; [reflexivity|]. split; [reflexivity|].
    exists f2, tr2, cs2. cbn. rewrite <- app_assoc. repeat split; auto.
Qed.

(** ** What the virtual members leave alone *)

Lemma value_changed_base {T} `{CppCompare T} (tr : value_trace.t T) :
  value_trace.base (snd (fst (value_trace.changed tr))) = value_trace.base tr.
Proof.
  unfold value_trace.changed.
  destruct (op_ne _ _); [destruct (_ || _ || _)|]; reflexivity.
Qed.

Lemma virtual_changed_same (o : trace_object) :
  let o' := snd (fst (virtual.changed o)) in
  virtual.base o' = virtual.base o
  /\ is_time_trace o' = is_time_trace o
  /\ is_event_trace o' = is_event_trace o
  /\ (compares_reflexively o -> compares_reflexively o').
Proof.
  destruct o as [T C tr | tr | tr | tr | tr]; cbn [virtual.changed].
  - pose proof (value_changed_base tr) as Hb.
    destruct (value_trace.changed tr) as [[r tr'] cs]. cbn in *. auto.
  - cbn. auto.
  - cbn. auto.
  - unfold bsm_sc_logic_trace.changed.
    destruct (negb _); [destruct (_ || _ || _)|]; cbn; auto.
  - unfold bsm_sc_time_trace.changed.
    pose proof (value_changed_base
                  (value_trace.set_object (bsm_sc_time_trace.object tr)
                     (bsm_sc_time_trace.super tr))) as Hb.
    destruct (value_trace.changed _) as [[r tr'] cs]. cbn in *. auto.
Qed.

Lemma virtual_write_same (f : option FILE) (o : trace_object) f' o' cs :
  virtual.write f o = Some (f', o', cs) ->
  virtual.base o' = virtual.base o
  /\ is_time_trace o' = is_time_trace o
  /\ is_event_trace o' = is_event_trace o
  /\ (compares_reflexively o -> compares_reflexively o').
Proof.
  destruct o as [T C tr | tr | tr | tr | tr]; unfold virtual.write; intros Hw.
  - value_write_inv Hw. cbn. auto.
  - injection Hw as <- <- <-. cbn. auto.
  - unfold bsm_sc_event_trace.write, bsm_sc_event_trace.changed in Hw.
    destruct (negb (negb _)).
    + injection Hw as <- <- <-. cbn. auto.
    + destruct f as [file|]; [|discriminate].
      injection Hw as <- <- <-. cbn. auto.
  - injection Hw as <- <- <-. cbn. auto.
  - value_write_inv Hw. cbn. auto.
Qed.


(** *** Nothing pending *)

Lemma value_changed_false_quiet {T} `{CppCompare T} (tr tr' : value_trace.t T) cs :
  (forall v : T, op_ne v v = false) ->
  value_trace.changed tr = (false, tr', cs) ->
  fst (fst (value_trace.changed tr')) = false
  /\ value_trace.object tr' = value_trace.object tr.
Proof.
  intros Hrefl Hc. unfold value_trace.changed in Hc.
  destruct (op_ne (value_trace.object tr) (value_trace.old_value tr)) eqn:E.
  - destruct (_ || _ || _); [discriminate|]. cbn in Hc. injection Hc as <- _.
    unfold value_trace.changed. cbn. rewrite Hrefl. split; reflexivity.
  - injection Hc as <- _. unfold value_trace.changed. rewrite E. split; reflexivity.
Qed.

(** When [changed] returns false the trace is left with nothing pending:
    evaluating [changed] again returns false. *)
Lemma changed_false_quiet (o o' : trace_object) cs :
  compares_reflexively o -> virtual.changed o = (false, o', cs) -> quiet o'.
Proof.
  unfold quiet.
  destruct o as [T C tr | tr | tr | tr | tr]; cbn [virtual.changed compares_reflexively]; intros Hr Hc.
  - destruct (value_trace.changed tr) as [[r tr'] cs0] eqn:E.
    injection Hc as -> <- _.
    destruct (value_changed_false_quiet _ _ _ Hr E) as [Hq _].
    cbn. destruct (value_trace.changed tr') as [[r' tr''] cs']. exact Hq.
  - cbn in Hc. injection Hc as Hc <- _. cbn. exact Hc.
  - cbn in Hc. injection Hc as Hc <- _. cbn. exact Hc.
  - unfold bsm_sc_logic_trace.changed in Hc.
    destruct (negb (sc_logic_eqb (bsm_sc_logic_trace.object tr)
                      (bsm_sc_logic_trace.old_value tr))) eqn:E.
    + destruct (_ || _ || _); cbn in Hc; [discriminate|]. injection Hc as <- _.
      cbn. unfold bsm_sc_logic_trace.changed. cbn.
      destruct (bsm_sc_logic_trace.object tr); reflexivity.
    + injection Hc as <- _. cbn. unfold bsm_sc_logic_trace.changed. rewrite E. reflexivity.
  - unfold bsm_sc_time_trace.changed in Hc.
    destruct (value_trace.changed
                (value_trace.set_object (bsm_sc_time_trace.object tr)
                   (bsm_sc_time_trace.super tr))) as [[r tr'] cs0] eqn:Es.
    injection Hc as -> <- _.
    assert (Hz : forall v : Z, op_ne v v = false)
      by (intros v; cbn; rewrite Z.eqb_refl; reflexivity).
    destruct (value_changed_false_quiet _ _ _ Hz Es) as [Hq Hobj].
    cbn in Hobj. cbn. unfold bsm_sc_time_trace.changed. cbn.
    replace (value_trace.set_object (bsm_sc_time_trace.object tr) tr') with tr'.
    + destruct (value_trace.changed tr') as [[r' tr''] cs']. exact Hq.
    + rewrite <- Hobj. destruct tr'. reflexivity.
Qed.

Lemma samples_traced_object_iff (o : trace_object) :
  samples_traced_object o <-> compares_reflexively o /\ is_time_trace o = false.
Proof.
  destruct o; cbn; intuition discriminate.
Qed.

Lemma value_changed_object {T} `{CppCompare T} (tr : value_trace.t T) :
  value_trace.object (snd (fst (value_trace.changed tr))) = value_trace.object tr.
Proof.
  unfold value_trace.changed.
  destruct (op_ne _ _); [destruct (_ || _ || _)|]; reflexivity.
Qed.

(** A [write] that follows an evaluation of [changed] leaves nothing
    pending, also for a time trace: [changed] has refreshed the shadow
    copy. *)
Lemma changed_write_quiet (o o1 : trace_object) c cs (f : option FILE) r :
  compares_reflexively o -> virtual.changed o = (c, o1, cs) -> virtual.write f o1 = Some r ->
  quiet (snd (fst r)).
Proof.
  intros Hr Hc Hw.
  destruct (is_time_trace o) eqn:Et.
  - destruct o as [| | | |tr]; try discriminate. clear Et Hr.
    cbn [virtual.changed] in Hc. unfold bsm_sc_time_trace.changed in Hc.
    pose proof (value_changed_object
                  (value_trace.set_object (bsm_sc_time_trace.object tr)
                     (bsm_sc_time_trace.super tr))) as Hobj.
    destruct (value_trace.changed _) as [[r0 tr'] cs0].
    injection Hc as _ <- _. cbn in Hobj.
    destruct r as [[f2 o2] cs2]. unfold virtual.write in Hw. value_write_inv Hw.
    unfold quiet. cbn.
    unfold bsm_sc_time_trace.changed, value_trace.changed. cbn.
    rewrite Hobj, Z.eqb_refl. reflexivity.
  - pose proof (virtual_changed_same o) as Hs. rewrite Hc in Hs. cbn in Hs.
    destruct Hs as (_ & Ht & _ & Hr1).
    apply (write_then_changed f o1 r); [|exact Hw].
    apply samples_traced_object_iff. split; [auto | congruence].
Qed.

(** ** The loop of [cycle], step by step *)

Lemma sample_one_progress env h l (i : nat) (tr : trace_object) (s s' : sampling) (i' : nat) :
  traces (file s) !! i = Some tr ->
  sample_one env h l i tr s = Some (s', i') ->
  length (traces (file s')) = length (traces (file s)) /\ (i < i')%nat.
Proof.
  intros Hlook Hone.
  destruct (sample_one_ok _ _ _ _ _ _ _ _ Hlook Hone) as (_ & _ & Hk & _ & _ & Hlt).
  apply (f_equal length) in Hk. rewrite !length_fmap in Hk. auto.
Qed.

(** A property that every iteration keeps holds when the loop is left,
    and the loop is left behind the last trace. *)
Lemma sample_steps (P : nat -> sampling -> Prop) env h l :
  (forall i tr s s' i',
     traces (file s) !! i = Some tr -> P i s ->
     sample_one env h l i tr s = Some (s', i') -> P i' s') ->
  forall (fuel i : nat) (s s' : sampling),
    (length (traces (file s)) <= i + fuel)%nat -> P i s ->
    sample fuel env h l i s = Some s' ->
    exists i', P i' s' /\ (length (traces (file s')) <= i')%nat.
Proof.
  intros Hstep. induction fuel as [|fuel IH]; intros i s s' Hlen HP Hs; cbn [sample] in Hs.
  - injection Hs as <-. exists i. split; [exact HP | lia].
  - destruct (traces (file s) !! i) as [tr|] eqn:Hlook.
    + apply bind_Some in Hs as ([s1 i1] & Hone & Hs).
      destruct (sample_one_progress _ _ _ _ _ _ _ _ Hlook Hone) as [Hl Hlt].
      apply (IH i1 s1 s'); [lia | eapply Hstep; eauto | exact Hs].
    + injection Hs as <-. exists i. split; [exact HP|].
      apply lookup_ge_None in Hlook. exact Hlook.
Qed.

Lemma cycle_sampled env (d : bool) (tf : t) (g : tracing_globals) tf' g' cs :
  initialize env tf = (false, tf) ->
  cycle env d tf g = Some (tf', g', Sampled cs) ->
  exists h l s1,
    sample (length (traces tf)) env h l 0
      {| file := tf; time_printed := false; calls := [] |} = Some s1
    /\ traces tf' = traces (file s1) /\ cs = calls s1
    /\ settings tf' = settings (file s1)
    /\ fp tf' = (if time_printed s1 then option_map (fputc newline) (fp (file s1))
                 else fp (file s1)).
Proof.
  intros Hi Hc. unfold cycle in Hc. rewrite Hi in Hc.
  destruct (negb (delta_cycles env) && d); [discriminate|].
  destruct (get_time_stamp env tf) as [time_advanced [h l]].
  destruct (_ && _ && _ && _); [discriminate|].
  destruct (delta_cycles env && negb d); [discriminate|].
  apply bind_Some in Hc as ([tf2 cs2] & Hp & [= <- <- <-]).
  unfold print_changes in Hp.
  apply bind_Some in Hp as (s1 & Hs & Hp).
  apply bind_Some in Hp as (s2 & Hnl & [= <- <-]).
  exists h, l, s1. split; [exact Hs|].
  destruct (time_printed s1).
  - unfold fputc_fp in Hnl. apply bind_Some in Hnl as (f & Hf & [= <-]).
    cbn. rewrite Hf. repeat split; reflexivity.
  - injection Hnl as <-. repeat split; reflexivity.
Qed.

(** Every way [cycle] returns without sampling leaves the stream alone. *)
Lemma cycle_returns env (d : bool) (tf : t) (g : tracing_globals) :
  initialize env tf = (false, tf) ->
  (exists tf' g', cycle env d tf g = Some (tf', g', Skipped) /\ fp tf' = fp tf)
  \/ (exists h l,
        forall s1,
          sample (length (traces tf)) env h l 0
            {| file := tf; time_printed := false; calls := [] |} = Some s1 ->
          time_printed s1 = false ->
          exists g', cycle env d tf g = Some (file s1, g', Sampled (calls s1))).
Proof.
  intros Hi. unfold cycle. rewrite Hi.
  destruct (negb (delta_cycles env) && d); [left; eauto|].
  destruct (get_time_stamp env tf) as [time_advanced [h l]].
  destruct (_ && _ && _ && _); [left; eauto|].
  destruct (delta_cycles env && negb d).
  - left. destruct time_advanced; eauto.
  - right. exists h, l. intros s1 Hs Htp. unfold print_changes.
    rewrite Hs. cbn. rewrite Htp. cbn. eauto.
Qed.

(** *** No trace has changed *)

Lemma sample_quiet env h l (fuel : nat) :
  forall (i : nat) (s : sampling),
    (forall j o, (i <= j)%nat -> traces (file s) !! j = Some o -> quiet o) ->
    exists s',
      sample fuel env h l i s = Some s'
      /\ fp (file s') = fp (file s) /\ time_printed s' = time_printed s
      /\ (forall j c, In (j, c) (calls s') -> In (j, c) (calls s) \/ c <> Wrote true).
Proof.
  induction fuel as [|fuel IH]; intros i s Hq; cbn [sample].
  - exists s. repeat split; auto.
  - destruct (traces (file s) !! i) as [tr|] eqn:Hlook; [|exists s; repeat split; auto].
    pose proof (Hq i tr (Nat.le_refl i) Hlook) as Hqi. unfold quiet in Hqi.
    pose proof (virtual_changed_calls tr) as Hcalls.
    unfold sample_one.
    destruct (virtual.changed tr) as [[c tr1] cs1]. cbn in Hqi. subst c.
    destruct Hcalls as (_ & _ & Hnw & _).
    cbn [mbind option_bind].
    destruct (IH (S i) (update i tr1 cs1 s)) as (s' & Hs & Hfp & Htp & Hcs).
    { intros j o Hj Ho. cbn in Ho.
      rewrite list_lookup_insert_ne in Ho by lia. apply (Hq j o); [lia | exact Ho]. }
    exists s'. split; [exact Hs|]. split; [exact Hfp|]. split; [exact Htp|].
    intros j c Hin. destruct (Hcs j c Hin) as [Hin'|Hne]; [|auto].
    cbn in Hin'. apply in_app_iff in Hin' as [Hin'|Hin']; [auto|].
    right. intros ->. apply in_tag in Hin' as [_ Hin']. contradiction.
Qed.

Lemma cycle_quiet env (d : bool) (tf : t) (g : tracing_globals) :
  initialize env tf = (false, tf) ->
  Forall quiet (traces tf) ->
  exists tf' g' o,
    cycle env d tf g = Some (tf', g', o)
    /\ fp tf' = fp tf
    /\ (forall cs i, o = Sampled cs -> ~ In (i, Wrote true) cs).
Proof.
  intros Hi Hq.
  destruct (cycle_returns env d tf g Hi) as [(tf' & g' & Hc & Hfp)|(h & l & Hs)].
  - exists tf', g', Skipped. split; [exact Hc|]. split; [exact Hfp|]. discriminate.
  - destruct (sample_quiet env h l (length (traces tf)) 0
                {| file := tf; time_printed := false; calls := [] |})
      as (s1 & Hs1 & Hfp & Htp & Hcs).
    { intros j o _ Ho. cbn in Ho. rewrite Forall_lookup in Hq. exact (Hq j o Ho). }
    destruct (Hs s1 Hs1 Htp) as (g' & Hc).
    exists (file s1), g', (Sampled (calls s1)).
    split; [exact Hc|]. split; [exact Hfp|].
    intros cs i [= <-] Hin. destruct (Hcs i _ Hin) as [[]|Hne]. congruence.
Qed.



(** *** Tracing disabled *)





(** *** Nothing is pending after the traces were sampled *)

Lemma insert_class (ts : list trace_object) (i : nat) (o o' : trace_object) :
  ts !! i = Some o -> trace_class o' = trace_class o ->
  trace_class <$> <[i := o']> ts = trace_class <$> ts.
Proof.
  intros Hl Hc. rewrite list_fmap_insert. apply list_insert_id.
  rewrite list_lookup_fmap, Hl, Hc. reflexivity.
Qed.

Lemma changed_class (o : trace_object) c o1 cs :
  virtual.changed o = (c, o1, cs) -> trace_class o1 = trace_class o /\ (compares_reflexively o -> compares_reflexively o1).
Proof.
  intros Hc. pose proof (virtual_changed_same o) as H. rewrite Hc in H. cbn in H.
  destruct H as (Hb & Ht & _ & Hr). unfold trace_class, virtual.get_trace_type.
  rewrite Hb, Ht. auto.
Qed.

Lemma write_class (f : option FILE) (o : trace_object) f' o' cs :
  virtual.write f o = Some (f', o', cs) ->
  trace_class o' = trace_class o /\ (compares_reflexively o -> compares_reflexively o').
Proof.
  intros Hw. apply virtual_write_same in Hw as (Hb & Ht & _ & Hr).
  unfold trace_class, virtual.get_trace_type. rewrite Hb, Ht. auto.
Qed.

Lemma sample_one_pending env h l (cl : list (bool * Z)) (i : nat) (tr : trace_object)
      (s s' : sampling) (i' : nat) :
  (forall j p o, cl !! j = Some p -> cl !! S j = Some o -> fst o = true ->
                 snd p = bsm_trace.BSM_TRACE_ORIG) ->
  traces (file s) !! i = Some tr ->
  trace_class <$> traces (file s) = cl ->
  Forall compares_reflexively (traces (file s)) ->
  (forall j o, (j < i)%nat -> traces (file s) !! j = Some o -> quiet o) ->
  sample_one env h l i tr s = Some (s', i') ->
  trace_class <$> traces (file s') = cl
  /\ Forall compares_reflexively (traces (file s'))
  /\ (forall j o, (j < i')%nat -> traces (file s') !! j = Some o -> quiet o).
Proof.
  intros Hcl Hlook Hclass Hrefl Hq Hone.
  assert (Hrtr : compares_reflexively tr) by (rewrite Forall_lookup in Hrefl; exact (Hrefl i tr Hlook)).
  assert (Hi : (i < length (traces (file s)))%nat) by (eapply lookup_lt_Some; eauto).
  destruct (sample_one_inv _ _ _ _ _ _ _ _ Hone) as (c & tr1 & cs1 & Hc & _ & Hcase).
  destruct (changed_class _ _ _ _ Hc) as [Hc1 Hr1]. specialize (Hr1 Hrtr).
  assert (Hone_ins : forall o,
             trace_class o = trace_class tr -> compares_reflexively o -> quiet o ->
             trace_class <$> <[i := o]> (traces (file s)) = cl
             /\ Forall compares_reflexively (<[i := o]> (traces (file s)))
             /\ (forall j o', (j < S i)%nat -> <[i := o]> (traces (file s)) !! j = Some o' ->
                              quiet o')).
  { intros o Hco Hro Hqo. split; [|split].
    - rewrite (insert_class _ _ tr); auto.
    - apply Forall_insert; assumption.
    - intros j o' Hj Ho'. destruct (decide (j = i)) as [->|Hne].
      + rewrite list_lookup_insert_eq in Ho' by exact Hi. injection Ho' as <-. exact Hqo.
      + rewrite list_lookup_insert_ne in Ho' by auto. apply (Hq j); [lia | exact Ho']. }
  destruct Hcase as [(-> & -> & Htr & _)
                    |[(-> & _ & f2 & tr2 & cs2 & Hw & -> & Htr & _)
                     |[(-> & _ & _ & f0 & file2 & tr2 & cs2 & _ & Hw & -> & Htr & _)
                      |(-> & _ & Hty & f0 & f2 & tr2 & cs2 & data & file3 & data3 & cs3
                        & _ & Hw & Hd & Hw3 & -> & Htr & _)]]];
    rewrite Htr.
  - apply Hone_ins; auto. exact (changed_false_quiet tr tr1 cs1 Hrtr Hc).
  - rewrite list_insert_insert_eq.
    destruct (write_class _ _ _ _ _ Hw) as [Hc2 Hr2].
    apply Hone_ins; [congruence | auto |].
    exact (changed_write_quiet _ _ _ _ _ _ Hrtr Hc Hw).
  - rewrite list_insert_insert_eq.
    destruct (write_class _ _ _ _ _ Hw) as [Hc2 Hr2].
    apply Hone_ins; [congruence | auto |].
    exact (changed_write_quiet _ _ _ _ _ _ Hrtr Hc Hw).
  - rewrite list_insert_insert_eq in Hd |- *.
    destruct (write_class _ _ _ _ _ Hw) as [Hc2 Hr2].
    destruct (Hone_ins tr2) as (Hcl2 & Hrf2 & Hq2); [congruence | auto | |].
    { exact (changed_write_quiet _ _ _ _ _ _ Hrtr Hc Hw). }
    destruct (write_class _ _ _ _ _ Hw3) as [Hc3 Hr3].
    assert (Hrd : compares_reflexively data) by (rewrite Forall_lookup in Hrf2; exact (Hrf2 _ _ Hd)).
    assert (Htd : is_time_trace data = false).
    { destruct (is_time_trace data) eqn:E; [exfalso|reflexivity].
      apply Hty. apply (f_equal snd) in Hc1. cbn in Hc1. rewrite Hc1.
      assert (H1 : cl !! i = Some (trace_class tr))
        by (rewrite <- Hclass, list_lookup_fmap, Hlook; reflexivity).
      assert (H2 : cl !! S i = Some (trace_class data))
        by (rewrite <- Hcl2, list_lookup_fmap, Hd; reflexivity).
      exact (Hcl i _ _ H1 H2 E). }
    assert (Hsi : (S i < length (<[i := tr2]> (traces (file s))))%nat)
      by (eapply lookup_lt_Some; eauto).
    split; [|split].
    + rewrite (insert_class _ _ data); auto.
    + apply Forall_insert; auto.
    + intros j o' Hj Ho'. destruct (decide (j = S i)) as [->|Hne].
      * rewrite list_lookup_insert_eq in Ho' by exact Hsi. injection Ho' as <-.
        apply (write_then_changed f0 data (Some file3, data3, cs3)); [|exact Hw3].
        apply samples_traced_object_iff. auto.
      * rewrite list_lookup_insert_ne in Ho' by auto. apply (Hq2 j); [lia | exact Ho'].
Qed.

(** X11.  A call of [cycle] that samples the traces leaves no change
    pending: afterwards [changed] returns false for every trace, so that a
    second call without a new value in between, at any time, returns and
    writes nothing.  This needs that no traced type tells a value from
    itself and that no [sc_time] trace stands right behind a valid
    signal. *)
Theorem cycle_leaves_nothing_pending env (d : bool) (tf : t) (g : tracing_globals) tf' g' cs :
  initialize env tf = (false, tf) ->
  Forall compares_reflexively (traces tf) -> time_not_after_valid (traces tf) ->
  cycle env d tf g = Some (tf', g', Sampled cs) ->
  Forall (fun o => fst (fst (virtual.changed o)) = false) (traces tf')
  /\ (forall env2 (d2 : bool) (g2 : tracing_globals),
        initialize env2 tf' = (false, tf') ->
        exists tf'' g'' o,
          cycle env2 d2 tf' g2 = Some (tf'', g'', o) /\ fp tf'' = fp tf').
Proof.
  intros Hi Hrefl Htime Hc.
  assert (Hq : Forall quiet (traces tf')).
  { destruct (cycle_sampled _ _ _ _ _ _ _ Hi Hc) as (h & l & s1 & Hs & Htr & _).
    destruct (sample_steps
                (fun i s => trace_class <$> traces (file s) = trace_class <$> traces tf
                            /\ Forall compares_reflexively (traces (file s))
                            /\ (forall j o, (j < i)%nat -> traces (file s) !! j = Some o ->
                                            quiet o))
                env h l) with (fuel := length (traces tf)) (i := 0%nat)
                (s := {| file := tf; time_printed := false; calls := [] |}) (s' := s1)
      as (i' & (_ & _ & Hall) & Hlen).
    - intros i tr s s' i' Hlook (Hcl & Hr & Hqs) Hone.
      apply (sample_one_pending env h l (trace_class <$> traces tf) i tr s s' i'); auto.
      intros j p o Hp Ho Hto.
      rewrite list_lookup_fmap in Hp, Ho.
      destruct (traces tf !! j) as [p0|] eqn:Ep; [|discriminate].
      destruct (traces tf !! S j) as [o0|] eqn:Eo; [|discriminate].
      injection Hp as <-. injection Ho as <-. cbn in Hto |- *.
      exact (Htime j p0 o0 Ep Eo Hto).
    - cbn. lia.
    - cbn. split; [reflexivity|]. split; [exact Hrefl|]. intros j o Hj. lia.
    - exact Hs.
    - rewrite Htr. apply Forall_lookup. intros j o Ho.
      apply (Hall j o); [|exact Ho]. apply lookup_lt_Some in Ho. lia. }
  split; [exact Hq|].
  intros env2 d2 g2 Hi2.
  destruct (cycle_quiet env2 d2 tf' g2 Hi2 Hq) as (tf'' & g'' & o & Hc2 & Hfp & _).
  eauto.
Qed.

Lemma cycle_leaves_nothing_pending_witness :
  exists tf' g',
    cycle env_timed false tf_midrun (mk_globals false [])
    = Some (tf', g', Sampled calls_midrun)
    /\ Forall (fun o => fst (fst (virtual.changed o)) = false) (traces tf')
    /\ exists tf'' g'' o,
         cycle env_timed false tf' (mk_globals false []) = Some (tf'', g'', o)
         /\ fp tf'' = fp tf'.
Proof.
  assert (Hc : exists tf' g',
             cycle env_timed false tf_midrun (mk_globals false [])
             = Some (tf', g', Sampled calls_midrun))
    by (eexists _, _; vm_compute; reflexivity).
  destruct Hc as (tf' & g' & Hc).
  exists tf', g'. split; [exact Hc|].
  destruct (cycle_leaves_nothing_pending env_timed false tf_midrun (mk_globals false [])
              tf' g' calls_midrun) as [Hq Hnext].
  - reflexivity.
  - repeat constructor; intros []; reflexivity.
  - intros j p o Hp Ho Ht.
    destruct j as [|[|[|j]]]; cbn in Ho; try discriminate;
      injection Ho as <-; discriminate.
  - exact Hc.
  - split; [exact Hq|]. apply Hnext. reflexivity.
Defined.

(** *** A valid signal in the last place *)

Lemma sample_one_types env h l (i : nat) (tr : trace_object) (s s' : sampling) (i' : nat) :
  traces (file s) !! i = Some tr ->
  sample_one env h l i tr s = Some (s', i') ->
  virtual.base <$> traces (file s') = virtual.base <$> traces (file s).
Proof.
  intros Hlook Hone.
  assert (Hins : forall (ts : list trace_object) (j : nat) o o',
                   ts !! j = Some o -> virtual.base o' = virtual.base o ->
                   virtual.base <$> <[j := o']> ts = virtual.base <$> ts).
  { intros ts j o o' Hl Hb. rewrite list_fmap_insert. apply list_insert_id.
    rewrite list_lookup_fmap, Hl, Hb. reflexivity. }
  destruct (sample_one_inv _ _ _ _ _ _ _ _ Hone) as (c & tr1 & cs1 & Hc & _ & Hcase).
  pose proof (virtual_changed_same tr) as Hs1. rewrite Hc in Hs1. cbn in Hs1.
  destruct Hs1 as (Hb1 & _).
  destruct Hcase as [(-> & -> & Htr & _)
                    |[(-> & _ & f2 & tr2 & cs2 & Hw & -> & Htr & _)
                     |[(-> & _ & _ & f0 & file2 & tr2 & cs2 & _ & Hw & -> & Htr & _)
                      |(-> & _ & Hty & f0 & f2 & tr2 & cs2 & data & file3 & data3 & cs3
                        & _ & Hw & Hd & Hw3 & -> & Htr & _)]]];
    rewrite Htr.
  - apply (Hins _ _ tr); auto.
  - rewrite list_insert_insert_eq. apply virtual_write_same in Hw as (Hb2 & _).
    apply (Hins _ _ tr); [auto | congruence].
  - rewrite list_insert_insert_eq. apply virtual_write_same in Hw as (Hb2 & _).
    apply (Hins _ _ tr); [auto | congruence].
  - rewrite list_insert_insert_eq in Hd |- *.
    apply virtual_write_same in Hw as (Hb2 & _).
    apply virtual_write_same in Hw3 as (Hb3 & _).
    rewrite (Hins _ _ data); [|exact Hd|exact Hb3].
    apply (Hins _ _ tr); [auto | congruence].
Qed.

Lemma sample_types env h l (fuel : nat) :
  forall (i : nat) (s s' : sampling),
    sample fuel env h l i s = Some s' ->
    virtual.base <$> traces (file s') = virtual.base <$> traces (file s)
    /\ settings (file s') = settings (file s).
Proof.
  induction fuel as [|fuel IH]; intros i s s' Hs; cbn [sample] in Hs.
  - injection Hs as <-. auto.
  - destruct (traces (file s) !! i) as [tr|] eqn:Hlook; [|injection Hs as <-; auto].
    apply bind_Some in Hs as ([s1 i1] & Hone & Hs).
    destruct (IH _ _ _ Hs) as [Hb Hset].
    pose proof (sample_one_types _ _ _ _ _ _ _ _ Hlook Hone) as Hb1.
    destruct (sample_one_inv _ _ _ _ _ _ _ _ Hone) as (_ & _ & _ & _ & Hset1 & _).
    split; congruence.
Qed.

Lemma cycle_trailing_valid_never_sampled env (d : bool) (tf : t) (g : tracing_globals)
      (pre : list trace_object) (v : trace_object) :
  initialize env tf = (false, tf) ->
  bsm_trace_enable tf = true ->
  traces tf = pre ++ [v] ->
  Forall (fun o => virtual.get_trace_type o = bsm_trace.BSM_TRACE_ORIG) pre ->
  virtual.get_trace_type v <> bsm_trace.BSM_TRACE_ORIG ->
  fst (fst (virtual.changed v)) = true ->
  forall tf' g' cs, cycle env d tf g <> Some (tf', g', Sampled cs).
Proof.
  intros Hi Hen Htr Hpre Hv Hcv.
  intros tf' g' cs Hc.
  destruct (cycle_sampled _ _ _ _ _ _ _ Hi Hc) as (h & l & s1 & Hs & _).
  set (n := length pre).
  assert (Hlen : length (traces tf) = S n)
    by (rewrite Htr, length_app; cbn; unfold n; lia).
  destruct (sample_steps
              (fun i s => (i <= n)%nat
                          /\ virtual.base <$> traces (file s) = virtual.base <$> traces tf
                          /\ traces (file s) !! n = Some v
                          /\ bsm_trace_enable (file s) = true)
              env h l) with (fuel := length (traces tf)) (i := 0%nat)
              (s := {| file := tf; time_printed := false; calls := [] |}) (s' := s1)
    as (i' & (Hi' & Hb' & _) & Hlen').
  - intros i tr s s' i' Hlook (Hin & Hb & Hvn & He) Hone.
    pose proof (sample_one_types _ _ _ _ _ _ _ _ Hlook Hone) as Hb1.
    assert (Hls : length (traces (file s)) = S n).
    { apply (f_equal length) in Hb. rewrite !length_fmap in Hb. lia. }
    assert (Hty : virtual.get_trace_type tr = bsm_trace.BSM_TRACE_ORIG <-> (i < n)%nat).
    { assert (Hbi : (virtual.base <$> traces tf) !! i = Some (virtual.base tr))
        by (rewrite <- Hb, list_lookup_fmap, Hlook; reflexivity).
      rewrite list_lookup_fmap, Htr in Hbi.
      destruct (decide (i < n)%nat) as [Hlt|Hge].
      - rewrite lookup_app_l in Hbi by exact Hlt.
        destruct (pre !! i) as [p|] eqn:Ep; [|discriminate]. injection Hbi as Hbi.
        rewrite Forall_lookup in Hpre. specialize (Hpre i p Ep).
        unfold virtual.get_trace_type in *. rewrite <- Hbi. tauto.
      - assert (i = n) by lia. subst i.
        rewrite Hvn in Hlook. injection Hlook as <-. split; [contradiction | lia]. }
    destruct (sample_one_inv _ _ _ _ _ _ _ _ Hone) as (c & tr1 & cs1 & Hc1 & Hset & Hcase).
    pose proof (virtual_changed_same tr) as Hs1. rewrite Hc1 in Hs1. cbn in Hs1.
    destruct Hs1 as (Hbt & _).
    assert (Hty1 : virtual.get_trace_type tr1 = virtual.get_trace_type tr)
      by (unfold virtual.get_trace_type; rewrite Hbt; reflexivity).
    assert (He' : bsm_trace_enable (file s') = true).
    { unfold settings in Hset. injection Hset as _ _ _ _ ->. exact He. }
    assert (Hcv' : i = n -> c = true).
    { intros ->. rewrite Hvn in Hlook. injection Hlook as <-.
      rewrite Hc1 in Hcv. exact Hcv. }
    destruct Hcase as [(-> & -> & Htr' & _)
                      |[(-> & Hdis & _)
                       |[(-> & _ & Ho & f0 & file2 & tr2 & cs2 & _ & Hw & -> & Htr' & _)
                        |(-> & _ & Ho & f0 & f2 & tr2 & cs2 & data & file3 & data3 & cs3
                          & _ & Hw & Hd & Hw3 & -> & Htr' & _)]]].
    + assert (i <> n) by (intros E; specialize (Hcv' E); discriminate).
      split; [lia|]. split; [congruence|]. split; [|exact He'].
      rewrite Htr', list_lookup_insert_ne by auto. exact Hvn.
    + congruence.
    + rewrite Hty1 in Ho. apply Hty in Ho.
      split; [lia|]. split; [congruence|]. split; [|exact He'].
      rewrite Htr', !list_lookup_insert_ne by lia. exact Hvn.
    + rewrite Hty1 in Ho.
      assert (i = n) by (destruct (decide (i < n)%nat) as [Hlt|]; [apply Hty in Hlt; contradiction | lia]).
      subst i. apply lookup_lt_Some in Hd. rewrite !length_insert in Hd. lia.
  - cbn. lia.
  - cbn. split; [lia|]. split; [reflexivity|]. split; [|exact Hen].
    rewrite Htr. apply list_lookup_middle. reflexivity.
  - exact Hs.
  - apply (f_equal length) in Hb'. rewrite !length_fmap in Hb'. lia.
Qed.

(** X12.  A valid signal must have its data signal registered behind it.
    When the last trace of an initialized, enabled file is a valid signal
    whose [changed] returns true, and no trace before it is one, no call
    of [cycle] gets through the sampling of the traces: the loop steps
    behind the last trace and the assertion [i < traces.size()] stops the
    program.  Without delta-cycle tracing every call outside a delta
    cycle ends so. *)
Theorem cycle_aborts_on_trailing_valid_signal env (d : bool) (tf : t) (g : tracing_globals)
        (pre : list trace_object) (v : trace_object) :
  initialize env tf = (false, tf) ->
  bsm_trace_enable tf = true ->
  traces tf = pre ++ [v] ->
  Forall (fun o => virtual.get_trace_type o = bsm_trace.BSM_TRACE_ORIG) pre ->
  virtual.get_trace_type v <> bsm_trace.BSM_TRACE_ORIG ->
  fst (fst (virtual.changed v)) = true ->
  (forall tf' g' cs, cycle env d tf g <> Some (tf', g', Sampled cs))
  /\ (delta_cycles env = false -> d = false -> cycle env d tf g = None).
Proof.
  intros Hi Hen Htr Hpre Hv Hcv.
  pose proof (cycle_trailing_valid_never_sampled env d tf g pre v Hi Hen Htr Hpre Hv Hcv)
    as Hnot.
  split; [exact Hnot|].
  intros Hdc Hd. subst d.
  destruct (cycle env false tf g) as [[[tf' g'] o]|] eqn:Ec; [exfalso | reflexivity].
  destruct o as [|cs]; [|exact (Hnot tf' g' cs eq_refl)].
  unfold cycle in Ec. rewrite Hi, Hdc in Ec. cbn in Ec.
  destruct (get_time_stamp env tf) as [time_advanced [h l]].
  apply bind_Some in Ec as ([tf2 cs2] & _ & [=]).
Qed.

Lemma cycle_aborts_on_trailing_valid_signal_witness :
  cycle env_timed false tf_trailing_valid (mk_globals false []) = None.
Proof.
  apply (cycle_aborts_on_trailing_valid_signal env_timed false tf_trailing_valid
           (mk_globals false []) [Value_trace bool _ data_registered]
           (as_valid_signal
              (Value_trace bool _ (value_trace.set_object true valid_registered))));
    try reflexivity.
  - repeat constructor.
  - discriminate.
Defined.

(** *** What [cycle] never touches *)

Lemma cycle_configuration env (d : bool) (tf : t) (g : tracing_globals) tf' g' o :
  initialize env tf = (false, tf) ->
  cycle env d tf g = Some (tf', g', o) ->
  virtual.base <$> traces tf' = virtual.base <$> traces tf
  /\ bsm_name_index tf' = bsm_name_index tf
  /\ bsm_print_type tf' = bsm_print_type tf
  /\ bsm_trace_enable tf' = bsm_trace_enable tf
  /\ (forall cs, o = Sampled cs ->
        previous_time_units_high tf' = previous_time_units_high tf
        /\ previous_time_units_low tf' = previous_time_units_low tf).
Proof.
  intros Hi Hc. destruct o as [|cs].
  - assert (Hsk : traces tf' = traces tf /\ bsm_name_index tf' = bsm_name_index tf
                  /\ bsm_print_type tf' = bsm_print_type tf
                  /\ bsm_trace_enable tf' = bsm_trace_enable tf).
    { unfold cycle in Hc. rewrite Hi in Hc.
      destruct (negb (delta_cycles env) && d); [injection Hc as <- _; auto|].
      destruct (get_time_stamp env tf) as [time_advanced [h' l']].
      destruct (_ && _ && _ && _); [injection Hc as <- _; auto|].
      destruct (delta_cycles env && negb d).
      - injection Hc as <- _. destruct time_advanced; auto.
      - apply bind_Some in Hc as ([tf2 cs2] & _ & [=]). }
    destruct Hsk as (-> & -> & -> & ->). repeat split; auto; discriminate.
  - destruct (cycle_sampled _ _ _ _ _ _ _ Hi Hc) as (h & l & s1 & Hs & Htr & _ & Hset & _).
    apply sample_types in Hs as [Hb Hset1]. cbn in Hb, Hset1.
    rewrite Hset1 in Hset. unfold settings in Hset.
    injection Hset as -> -> -> -> ->. rewrite Htr. repeat split; auto.
Qed.

Lemma sample_initialized env h l (fuel : nat) :
  forall (i : nat) (s : sampling),
    sample fuel (initialized env) h l i s = sample fuel env h l i s.
Proof.
  induction fuel as [|fuel IH]; intros i s; cbn [sample]; [reflexivity|].
  destruct (traces (file s) !! i) as [tr|]; [|reflexivity].
  change (sample_one (initialized env) h l i tr s) with (sample_one env h l i tr s).
  destruct (sample_one env h l i tr s) as [[s1 i1]|]; [|reflexivity].
  cbn [mbind option_bind]. apply IH.
Qed.

(** Once [initialize] has returned false, the call goes on as a call on
    an initialized file. *)
Lemma cycle_after_initialize env (d : bool) (tf tf1 : t) (g : tracing_globals) :
  negb (delta_cycles env) && d = false ->
  initialize env tf = (false, tf1) ->
  cycle env d tf g = cycle (initialized env) d tf1 g.
Proof.
  intros Hd Hi. unfold cycle. rewrite Hi.
  cbn [initialized delta_cycles initialize has_low_units sc_delta_count_at_current_time].
  rewrite Hd.
  change (get_time_stamp (initialized env) tf1) with (get_time_stamp env tf1).
  destruct (get_time_stamp env tf1) as [time_advanced [h l]].
  destruct (_ && _ && _ && _); [reflexivity|].
  destruct (delta_cycles env && negb d); [reflexivity|].
  unfold print_changes. rewrite sample_initialized. reflexivity.
Qed.

(** X13.  [cycle] itself never changes how the file is set up.  What
    changes is what the inherited [initialize] changes when the call
    reaches it (on the first call it runs [do_initialize], which sets the
    width of the vectors): compared with the file [initialize] leaves, the
    traces keep their order, and each its names, bit width, trace type,
    trigger type and print type, and the counter of the BSM names, the
    print type of the file and the enable flag stay.  A call that samples
    the traces leaves the recorded time alone as well: [cycle] records the
    time only on the timed notification of a file that traces delta
    cycles. *)
Theorem cycle_keeps_configuration env (d : bool) (tf : t) (g : tracing_globals) tf' g' o :
  cycle env d tf g = Some (tf', g', o) ->
  let tf0 := after_initialize env d tf in
  virtual.base <$> traces tf' = virtual.base <$> traces tf0
  /\ bsm_name_index tf' = bsm_name_index tf0
  /\ bsm_print_type tf' = bsm_print_type tf0
  /\ bsm_trace_enable tf' = bsm_trace_enable tf0
  /\ (forall cs, o = Sampled cs ->
        fst (initialize env tf) = false
        /\ previous_time_units_high tf' = previous_time_units_high tf0
        /\ previous_time_units_low tf' = previous_time_units_low tf0).
Proof.
  intros Hc. unfold after_initialize. cbn zeta.
  destruct (negb (delta_cycles env) && d) eqn:Hd.
  - unfold cycle in Hc. rewrite Hd in Hc. injection Hc as <- _ <-.
    repeat split; auto; discriminate.
  - destruct (initialize env tf) as [b tf1] eqn:Hi. cbn [fst snd].
    destruct b.
    + unfold cycle in Hc. rewrite Hd, Hi in Hc. injection Hc as <- _ <-.
      repeat split; auto; discriminate.
    + rewrite (cycle_after_initialize env d tf tf1 g Hd Hi) in Hc.
      destruct (cycle_configuration (initialized env) d tf1 g tf' g' o eq_refl Hc)
        as (Hb & Hn & Hp & He & Ht).
      split; [exact Hb|]. split; [exact Hn|]. split; [exact Hp|].
      split; [exact He|].
      intros cs Hcs. split; [reflexivity|]. exact (Ht cs Hcs).
Qed.

Lemma cycle_keeps_configuration_witness :
  (exists tf' g',
     cycle env_timed false tf_midrun (mk_globals false [])
     = Some (tf', g', Sampled calls_midrun)
     /\ virtual.base <$> traces tf' = virtual.base <$> traces tf_midrun
     /\ bsm_name_index tf' = 3
     /\ previous_time_units_high tf' = 0)
  /\ (exists tf' g',
        cycle env_first_call false tf_midrun (mk_globals false [])
        = Some (tf', g', Skipped)
        /\ virtual.base <$> traces tf'
           = virtual.base <$> (set_width <$> traces tf_midrun)).
Proof.
  split.
  - assert (Hc : exists tf' g',
               cycle env_timed false tf_midrun (mk_globals false [])
               = Some (tf', g', Sampled calls_midrun))
      by (eexists _, _; vm_compute; reflexivity).
    destruct Hc as (tf' & g' & Hc).
    exists tf', g'. split; [exact Hc|].
    destruct (cycle_keeps_configuration env_timed false tf_midrun (mk_globals false [])
                tf' g' (Sampled calls_midrun) Hc) as (Hb & Hi & _ & _ & Ht).
    destruct (Ht calls_midrun eq_refl) as (_ & Hh & _).
    split; [exact Hb|]. split; [exact Hi | exact Hh].
  - assert (Hc : exists tf' g',
               cycle env_first_call false tf_midrun (mk_globals false [])
               = Some (tf', g', Skipped))
      by (eexists _, _; reflexivity).
    destruct Hc as (tf' & g' & Hc).
    exists tf', g'. split; [exact Hc|].
    exact (proj1 (cycle_keeps_configuration env_first_call false tf_midrun
                    (mk_globals false []) tf' g' Skipped Hc)).
Defined.

(** ** [set_bsm_trace_type] *)

Lemma base_map_base (f : bsm_trace.t -> bsm_trace.t) (o : trace_object) :
  virtual.base (map_base f o) = f (virtual.base o).
Proof. destruct o; reflexivity. Qed.

Lemma changed_map_base (f : bsm_trace.t -> bsm_trace.t) (o : trace_object) :
  (forall b, bsm_trace.bsm_trigger_type (f b) = bsm_trace.bsm_trigger_type b) ->
  fst (fst (virtual.changed (map_base f o))) = fst (fst (virtual.changed o)).
Proof.
  intros Hf. destruct o as [T C tr | tr | tr | tr | tr]; cbn [map_base virtual.changed].
  - unfold value_trace.changed. cbn. rewrite Hf.
    destruct (op_ne _ _); [destruct (_ || _ || _)|]; reflexivity.
  - reflexivity.
  - reflexivity.
  - unfold bsm_sc_logic_trace.changed. cbn. rewrite Hf.
    destruct (negb _); [destruct (_ || _ || _)|]; reflexivity.
  - unfold bsm_sc_time_trace.changed, value_trace.changed. cbn. rewrite Hf.
    destruct (negb _); [destruct (_ || _ || _)|]; reflexivity.
Qed.

(** X14.  [set_bsm_trace_type] selects the trace by its index, [-1]
    standing for the trace registered last.  An index out of range, or
    [-1] on a file without traces, stops the program at the assertion.
    Otherwise the selected trace gets the trace type and the trigger type,
    and nothing else changes: its names, bit width and print type, the
    other traces, the stream and the other members of the file stay. *)
Theorem set_bsm_trace_type_index (index nTrigger nTrace : Z) (tf : t) :
  let n := Z.of_nat (length (traces tf)) in
  let i := if index =? -1 then n - 1 else index in
  (~ 0 <= i < n -> set_bsm_trace_type index nTrigger nTrace tf = None)
  /\ (0 <= i < n ->
      exists tf' o o',
        set_bsm_trace_type index nTrigger nTrace tf = Some tf'
        /\ traces tf !! Z.to_nat i = Some o
        /\ traces tf' !! Z.to_nat i = Some o'
        /\ virtual.get_trace_type o' = nTrace
        /\ bsm_trace.get_trigger_type (virtual.base o') = nTrigger
        /\ bsm_trace.name (virtual.base o') = bsm_trace.name (virtual.base o)
        /\ bsm_trace.bsm_name (virtual.base o') = bsm_trace.bsm_name (virtual.base o)
        /\ bsm_trace.bit_width (virtual.base o') = bsm_trace.bit_width (virtual.base o)
        /\ bsm_trace.bsm_trace_print_type (virtual.base o')
           = bsm_trace.bsm_trace_print_type (virtual.base o)
        /\ length (traces tf') = length (traces tf)
        /\ (forall j, j <> Z.to_nat i -> traces tf' !! j = traces tf !! j)
        /\ fp tf' = fp tf /\ settings tf' = settings tf).
Proof.
  intros n i. unfold set_bsm_trace_type. fold n. fold i. split.
  - intros Hout.
    destruct (Z.leb_spec 0 i); [|reflexivity].
    destruct (Z.ltb_spec i n); [lia | reflexivity].
  - intros Hin.
    destruct (Z.leb_spec 0 i); [|lia].
    destruct (Z.ltb_spec i n); [|lia]. cbn [andb].
    assert (Hlt : (Z.to_nat i < length (traces tf))%nat) by (unfold n in *; lia).
    destruct (lookup_lt_is_Some_2 _ _ Hlt) as [o Ho]. rewrite Ho. cbn.
    eexists _, o, _. split; [reflexivity|]. split; [reflexivity|].
    split; [apply list_lookup_insert_eq; exact Hlt|].
    unfold virtual.get_trace_type. rewrite !base_map_base.
    repeat split; try reflexivity.
    + apply length_insert.
    + intros j Hj. apply list_lookup_insert_ne. auto.
Qed.

Lemma set_bsm_trace_type_index_witness :
  set_bsm_trace_type 3 bsm_trace.BSM_TRIGGER_VAL_POS bsm_trace.BSM_TRACE_VAL tf_midrun = None
  /\ exists tf' o',
       set_bsm_trace_type (-1) bsm_trace.BSM_TRIGGER_VAL_POS bsm_trace.BSM_TRACE_VAL tf_midrun
       = Some tf'
       /\ traces tf' !! 2%nat = Some o'
       /\ virtual.get_trace_type o' = bsm_trace.BSM_TRACE_VAL
       /\ bsm_trace.name (virtual.base o') = "data"%string.
Proof.
  split.
  - apply (proj1 (set_bsm_trace_type_index 3 bsm_trace.BSM_TRIGGER_VAL_POS
                    bsm_trace.BSM_TRACE_VAL tf_midrun)).
    cbn. lia.
  - destruct (proj2 (set_bsm_trace_type_index (-1) bsm_trace.BSM_TRIGGER_VAL_POS
                       bsm_trace.BSM_TRACE_VAL tf_midrun))
      as (tf' & o & o' & Hs & Ho & Ho' & Hty & _ & Hn & _).
    + cbn. lia.
    + exists tf', o'. split; [exact Hs|]. split; [exact Ho'|]. split; [exact Hty|].
      rewrite Hn. injection Ho as <-. reflexivity.
Defined.

(** ** Registration through the [trace] overloads *)

Lemma obtain_name_index_only (tf tf' : t) :
  bsm_name_index tf = bsm_name_index tf' ->
  fst (obtain_name tf) = fst (obtain_name tf')
  /\ bsm_name_index (snd (obtain_name tf)) = bsm_name_index (snd (obtain_name tf')).
Proof. unfold obtain_name. cbn. intros ->. split; reflexivity. Qed.

Lemma obtain_names_index_only (n : nat) :
  forall tf tf', bsm_name_index tf = bsm_name_index tf' ->
                 obtain_names n tf = obtain_names n tf'.
Proof.
  induction n as [|n IH]; intros tf tf' Hi; [reflexivity|].
  cbn [obtain_names].
  destruct (obtain_name_index_only tf tf' Hi) as [Hn Hi'].
  destruct (obtain_name tf) as [nm tf1], (obtain_name tf') as [nm' tf1']. cbn in *.
  rewrite Hn. f_equal. apply IH. exact Hi'.
Qed.

Lemma trace_all_names (requests : list (bool * (string -> Z -> trace_object))) :
  forall tf,
    Forall (fun r => keeps_bsm_name (snd r)) requests ->
    0 <= bsm_name_index tf ->
    bsm_name_index tf + Z.of_nat (length requests) < UINT_MOD ->
    let k := length (List.filter fst requests) in
    bsm_names (trace_all requests tf) = bsm_names tf ++ obtain_names k tf
    /\ bsm_name_index (trace_all requests tf) = bsm_name_index tf + Z.of_nat k
    /\ length (traces (trace_all requests tf)) = (length (traces tf) + k)%nat.
Proof.
  induction requests as [|[check make] requests IH]; intros tf Hk H0 Hlen; cbn zeta.
  - cbn. rewrite app_nil_r, Z.add_0_r, Nat.add_0_r. auto.
  - cbn [trace_all List.filter fst length] in *.
    apply Forall_cons in Hk as [Hmake Hk]. cbn in Hmake.
    destruct check; cbn [trace].
    + destruct (obtain_name tf) as [nm tf1] eqn:E.
      assert (Hidx : bsm_name_index tf1 = bsm_name_index tf + 1).
      { replace tf1 with (snd (obtain_name tf)) by (rewrite E; reflexivity).
        rewrite obtain_name_index. apply Z.mod_small. lia. }
      set (tf2 := set_traces (traces tf1 ++ [make nm (bsm_print_type tf1)]) tf1).
      destruct (IH tf2 Hk) as (Hn & Hi & Hl); [cbn; lia | cbn; lia |].
      assert (Htr1 : traces tf1 = traces tf).
      { replace tf1 with (snd (obtain_name tf)) by (rewrite E; reflexivity). reflexivity. }
      split; [|split].
      * rewrite Hn. unfold bsm_names, tf2. cbn [traces set_traces length].
        rewrite fmap_app, Htr1. cbn [fmap list_fmap]. rewrite Hmake.
        rewrite <- app_assoc. cbn [app obtain_names]. rewrite E.
        f_equal. f_equal. apply obtain_names_index_only. reflexivity.
      * rewrite Hi. cbn. lia.
      * rewrite Hl. unfold tf2. cbn [traces set_traces]. rewrite length_app, Htr1. cbn. lia.
    + apply IH; [exact Hk | exact H0 | lia].
Qed.

(** X16.  Whatever is registered on a new trace file through the [trace]
    overloads, up to 17576 requests, the registered traces have BSM names
    that differ from each other.  A request that [add_trace_check] turns
    down registers nothing and uses up no name: the counter of the names
    is the number of the traces. *)
Theorem registered_bsm_names_distinct (type : Z)
        (requests : list (bool * (string -> Z -> trace_object))) :
  Forall (fun r => keeps_bsm_name (snd r)) requests ->
  Z.of_nat (length requests) <= 17576 ->
  let tf := trace_all requests (ctor type) in
  NoDup (bsm_names tf)
  /\ length (traces tf) = length (List.filter fst requests)
  /\ bsm_name_index tf = Z.of_nat (length (traces tf)).
Proof.
  intros Hk Hlen tf.
  destruct (trace_all_names requests (ctor type) Hk) as (Hn & Hi & Hl);
    [cbn; lia | cbn; unfold UINT_MOD; lia |].
  cbn in Hn, Hi, Hl. fold tf in Hn, Hi, Hl.
  assert (Hf : (length (List.filter fst requests) <= length requests)%nat)
    by (pose proof (List.filter_length fst requests); lia).
  split; [|split].
  - rewrite Hn. apply obtain_names_NoDup; cbn; lia.
  - exact Hl.
  - rewrite Hi, Hl. reflexivity.
Qed.

Lemma registered_bsm_names_distinct_witness :
  NoDup (bsm_names (trace_all three_requests (ctor bsm_type.BT_VCD)))
  /\ length (traces (trace_all three_requests (ctor bsm_type.BT_VCD))) = 2%nat
  /\ bsm_name_index (trace_all three_requests (ctor bsm_type.BT_VCD)) = 2.
Proof.
  apply (registered_bsm_names_distinct bsm_type.BT_VCD three_requests).
  - repeat constructor.
  - cbn. lia.
Defined.

Example three_requests_names :
  bsm_names (trace_all three_requests (ctor bsm_type.BT_VCD)) = ["aaaaa"; "aaaab"]%string.
Proof. reflexivity. Qed.

(** ** [do_initialize] *)

Lemma set_width_same (o : trace_object) :
  virtual.get_trace_type (set_width o) = virtual.get_trace_type o
  /\ (samples_traced_object o -> samples_traced_object (set_width o))
  /\ bsm_trace.bsm_trace_print_type (virtual.base (set_width o))
     = bsm_trace.bsm_trace_print_type (virtual.base o).
Proof. destruct o; cbn; auto. Qed.

Lemma declare_variables_traces (ts : list trace_object) :
  forall f con ts' f' con',
    declare_variables ts f con = Some (ts', f', con') -> ts' = set_width <$> ts.
Proof.
  induction ts as [|o ts IH]; intros f con ts' f' con' H; cbn [declare_variables] in H.
  - injection H as <- _ _. reflexivity.
  - apply bind_Some in H as ([f1 con1] & _ & H).
    apply bind_Some in H as ([[ts1 f2] con2] & Hrec & [= <- _ _]).
    cbn. f_equal. eapply IH; eauto.
Qed.

Lemma dump_variables_elem (ts : list trace_object) :
  forall i0 f ts' f' cs,
    dump_variables i0 ts f = Some (ts', f', cs) ->
    length ts' = length ts
    /\ (forall j o, ts !! j = Some o ->
          exists o', ts' !! j = Some o'
            /\ dumped_as (fun o => negb (virtual.get_trace_type o =? bsm_trace.BSM_TRACE_VAL))
                 o o'
            /\ (virtual.get_trace_type o = bsm_trace.BSM_TRACE_VAL -> o' = o))
    /\ (forall k c, In (k, c) cs ->
          exists j o, k = (i0 + j)%nat /\ ts !! j = Some o
                      /\ virtual.get_trace_type o <> bsm_trace.BSM_TRACE_VAL).
Proof.
  induction ts as [|o ts IH]; intros i0 f ts' f' cs H; cbn [dump_variables] in H.
  - injection H as <- _ <-. split; [reflexivity|]. split; [intros j o [=] | intros k c []].
  - apply bind_Some in H as ([[o1 f1] cs1] & Hone & H).
    apply bind_Some in H as ([[ts1 f2] cs2] & Hrec & [= <- _ <-]).
    destruct (IH _ _ _ _ _ Hrec) as (Hlen & Hel & Hcs).
    split; [cbn; rewrite Hlen; reflexivity|]. split.
    + intros [|j] o0 Ho0; cbn in Ho0.
      * injection Ho0 as <-. exists o1. split; [reflexivity|].
        unfold dumped_as.
        destruct (virtual.get_trace_type o =? bsm_trace.BSM_TRACE_VAL) eqn:E; cbn [negb].
        -- injection Hone as <- _ _. split; [left; reflexivity | reflexivity].
        -- apply bind_Some in Hone as ([[fw ow] csw] & Hw & Hone).
           apply bind_Some in Hone as (file & _ & [= <- _ _]).
           split; [eauto|]. apply Z.eqb_neq in E. contradiction.
      * apply (Hel j o0 Ho0).
    + intros k c Hin. apply in_app_iff in Hin as [Hin|Hin].
      * apply in_tag in Hin as [-> Hin]. exists 0%nat, o.
        split; [lia|]. split; [reflexivity|].
        destruct (virtual.get_trace_type o =? bsm_trace.BSM_TRACE_VAL) eqn:E.
        -- injection Hone as _ _ <-. contradiction.
        -- apply Z.eqb_neq in E. exact E.
      * destruct (Hcs k c Hin) as (j & o0 & -> & Ho0 & Hty).
        exists (S j), o0. split; [lia|]. split; [exact Ho0 | exact Hty].
Qed.

Lemma write_initial_values_elem (ts : list trace_object) :
  forall i0 f ts' f' cs,
    write_initial_values i0 ts f = Some (ts', f', cs) ->
    length ts' = length ts
    /\ (forall j o, ts !! j = Some o ->
          exists o' r fj, ts' !! j = Some o' /\ virtual.write fj o = Some r
                          /\ o' = snd (fst r))
    /\ (forall k, In (k, Wrote true) cs ->
          exists j o, k = (i0 + j)%nat /\ ts !! j = Some o
                      /\ virtual.get_trace_type o = bsm_trace.BSM_TRACE_ORIG).
Proof.
  induction ts as [|o ts IH]; intros i0 f ts' f' cs H; cbn [write_initial_values] in H.
  - injection H as <- _ <-. split; [reflexivity|]. split; [intros j o [=] | intros k []].
  - apply bind_Some in H as ([[o1 f1] cs1] & Hone & H).
    apply bind_Some in H as ([[ts1 f2] cs2] & Hrec & [= <- _ <-]).
    destruct (IH _ _ _ _ _ Hrec) as (Hlen & Hel & Hcs).
    split; [cbn; rewrite Hlen; reflexivity|]. split.
    + intros [|j] o0 Ho0; cbn in Ho0.
      * injection Ho0 as <-.
        destruct (virtual.get_trace_type o =? bsm_trace.BSM_TRACE_ORIG) eqn:E.
        -- apply bind_Some in Hone as ([[fw ow] csw] & Hw & Hone).
           apply bind_Some in Hone as (file & _ & [= <- _ _]).
           exists ow, (fw, ow, csw), f. auto.
        -- apply bind_Some in Hone as ([[fw ow] csw] & Hw & [= <- _ _]).
           exists ow, (fw, ow, csw), None. auto.
      * apply (Hel j o0 Ho0).
    + intros k Hin. apply in_app_iff in Hin as [Hin|Hin].
      * apply in_tag in Hin as [-> Hin]. exists 0%nat, o.
        split; [lia|]. split; [reflexivity|].
        destruct (virtual.get_trace_type o =? bsm_trace.BSM_TRACE_ORIG) eqn:E.
        -- apply Z.eqb_eq in E. exact E.
        -- exfalso. apply bind_Some in Hone as ([[fw ow] csw] & Hw & [= _ _ <-]).
           apply virtual_write_calls in Hw as (_ & _ & Hnw). exact (Hnw eq_refl Hin).
      * destruct (Hcs k Hin) as (j & o0 & -> & Ho0 & Hty).
        exists (S j), o0. split; [lia|]. split; [exact Ho0 | exact Hty].
Qed.

(** The two branches of [do_initialize], taken apart. *)
Lemma do_initialize_vcd env ini (tf : t) (con : console) tf' con' cs :
  bsm_print_type tf = bsm_type.BT_VCD ->
  do_initialize env ini tf con = Some (tf', con', cs) ->
  exists f ts' f',
    dump_variables 0 (set_width <$> traces tf) f = Some (ts', f', cs)
    /\ traces tf' = ts'
    /\ (previous_time_units_high tf', previous_time_units_low tf')
       = timestamp_in_trace_units env
    /\ bsm_name_index tf' = bsm_name_index tf
    /\ bsm_print_type tf' = bsm_print_type tf
    /\ bsm_trace_enable tf' = bsm_trace_enable tf.
Proof.
  intros Hvcd H. unfold do_initialize in H. rewrite Hvcd in H.
  change (bsm_type.BT_VCD =? bsm_type.BT_VCD) with true in H. cbv iota in H.
  apply bind_Some in H as (file0 & Hfp & H).
  apply bind_Some in H as ([[ts1 f1] con1] & Hdecl & H).
  apply declare_variables_traces in Hdecl. subst ts1.
  apply bind_Some in H as (file1 & -> & H).
  destruct (timestamp_in_trace_units env) as [high low].
  apply bind_Some in H as (tf1 & Hcom & H).
  unfold write_comment in Hcom. cbn [fp set_fp set_previous_time_units] in Hcom.
  rewrite bool_decide_eq_false_2 in Hcom by discriminate.
  cbn in Hcom. injection Hcom as <-. cbn in H.
  apply bind_Some in H as ([[ts2 f2] cs2] & Hdump & H).
  apply bind_Some in H as (file2 & -> & [= <- <- <-]).
  eexists _, ts2, _. split; [exact Hdump|]. cbn. repeat split; reflexivity.
Qed.

Lemma do_initialize_simple env ini (tf : t) (con : console) tf' con' cs :
  bsm_print_type tf <> bsm_type.BT_VCD ->
  do_initialize env ini tf con = Some (tf', con', cs) ->
  exists ts' f',
    write_initial_values 0 (set_width <$> traces tf) (fp tf) = Some (ts', f', cs)
    /\ traces tf' = ts'
    /\ (previous_time_units_high tf', previous_time_units_low tf')
       = timestamp_in_trace_units env
    /\ bsm_name_index tf' = bsm_name_index tf
    /\ bsm_print_type tf' = bsm_print_type tf
    /\ bsm_trace_enable tf' = bsm_trace_enable tf.
Proof.
  intros Hvcd H. unfold do_initialize in H.
  apply Z.eqb_neq in Hvcd. rewrite Hvcd in H.
  destruct (timestamp_in_trace_units env) as [high low]. cbn in H.
  apply bind_Some in H as ([[ts2 f2] cs2] & Hdump & [= <- <- <-]).
  exists ts2, f2. split; [exact Hdump|]. cbn. repeat split; reflexivity.
Qed.



(** *** [do_initialize] completes *)













(** A trace of a bit width that its [write] cannot handle stops
    [do_initialize]: the 2000 characters do not fit into [rawdata]. *)
Example do_initialize_wide_trace :
  do_initialize env_timed ini_start
    (set_traces
       [Value_trace Z _
          (bsm_uint64_trace.ctor 0 "wide" "aaaaa" 2000 bsm_type.BT_SIMPLE
             bsm_trace.BSM_TRIGGER_VAL_BOTH)]
       tf_midrun)
    (mk_console EmptyString false)
  = None.
Proof. reflexivity. Qed.



(** With an [sc_time] trace in the file: the time was 5 when the trace
    was registered and is 7 at the initialization, which records 5. *)
Example do_initialize_time_trace_pending :
  option_map
    (fun r => option_map (fun o => fst (fst (virtual.changed o)))
                (traces (fst (fst r)) !! 1%nat))
    (do_initialize env_timed ini_start tf_valid_time (mk_console EmptyString false))
  = Some (Some true).
Proof. vm_compute. reflexivity. Qed.

(** ** The print type of the file and of its traces *)

Lemma print_types_agree_bases (tf tf' : t) :
  virtual.base <$> traces tf' = virtual.base <$> traces tf ->
  bsm_print_type tf' = bsm_print_type tf ->
  print_types_agree tf -> print_types_agree tf'.
Proof.
  unfold print_types_agree. intros Hb Hp H.
  rewrite Forall_lookup in H |- *. intros i o' Ho'.
  assert (Hbi : (virtual.base <$> traces tf) !! i = Some (virtual.base o'))
    by (rewrite <- Hb, list_lookup_fmap, Ho'; reflexivity).
  rewrite list_lookup_fmap in Hbi.
  destruct (traces tf !! i) as [o|] eqn:Eo; [|discriminate].
  injection Hbi as Hbi. rewrite <- Hbi, Hp. exact (H i o Eo).
Qed.

Lemma print_type_pointwise (type : Z) (ts ts' : list trace_object) :
  length ts' = length ts ->
  (forall j o, ts !! j = Some o ->
     exists o', ts' !! j = Some o'
                /\ bsm_trace.bsm_trace_print_type (virtual.base o')
                   = bsm_trace.bsm_trace_print_type (virtual.base o)) ->
  Forall (fun o => bsm_trace.bsm_trace_print_type (virtual.base o) = type) ts ->
  Forall (fun o => bsm_trace.bsm_trace_print_type (virtual.base o) = type) ts'.
Proof.
  intros Hlen Hel H. rewrite Forall_lookup in H |- *. intros j o' Ho'.
  destruct (lookup_lt_is_Some_2 ts j) as [o Ho].
  { rewrite <- Hlen. eapply lookup_lt_Some; eauto. }
  destruct (Hel j o Ho) as (o'' & Ho'' & Hb). rewrite Ho' in Ho''. injection Ho'' as <-.
  rewrite Hb. exact (H j o Ho).
Qed.

Lemma dumped_as_base (sel : trace_object -> bool) (o o' : trace_object) :
  dumped_as sel o o' -> virtual.base o' = virtual.base o.
Proof.
  unfold dumped_as. destruct (sel o).
  - intros (f & [[f' o''] cs] & Hw & ->). cbn.
    apply virtual_write_same in Hw as (Hb & _). exact Hb.
  - intros [->|([[f' o''] cs] & Hw & ->)]; [reflexivity|]. cbn.
    apply virtual_write_same in Hw as (Hb & _). exact Hb.
Qed.

Lemma do_initialize_print_types env ini (tf : t) (con : console) tf' con' cs :
  do_initialize env ini tf con = Some (tf', con', cs) ->
  print_types_agree tf -> print_types_agree tf'.
Proof.
  intros H Hagree. unfold print_types_agree in *.
  destruct (Z.eq_dec (bsm_print_type tf) bsm_type.BT_VCD) as [Hv|Hs].
  - destruct (do_initialize_vcd _ _ _ _ _ _ _ Hv H)
      as (f & ts' & f' & Hd & -> & _ & _ & Hp & _).
    apply dump_variables_elem in Hd as (Hlen & Hel & _).
    rewrite Hp. apply (print_type_pointwise _ (traces tf)); [| |exact Hagree].
    + rewrite Hlen, length_fmap. reflexivity.
    + intros j o Ho. destruct (Hel j (set_width o)) as (o' & Ho' & Hdump & _).
      { rewrite list_lookup_fmap, Ho. reflexivity. }
      exists o'. split; [exact Ho'|].
      rewrite (dumped_as_base _ _ _ Hdump).
      destruct (set_width_same o) as (_ & _ & Hpt). exact Hpt.
  - destruct (do_initialize_simple _ _ _ _ _ _ _ Hs H)
      as (ts' & f' & Hd & -> & _ & _ & Hp & _).
    apply write_initial_values_elem in Hd as (Hlen & Hel & _).
    rewrite Hp. apply (print_type_pointwise _ (traces tf)); [| |exact Hagree].
    + rewrite Hlen, length_fmap. reflexivity.
    + intros j o Ho.
      destruct (Hel j (set_width o)) as (o' & [[f2 o2] cs2] & fj & Ho' & Hw & ->).
      { rewrite list_lookup_fmap, Ho. reflexivity. }
      exists o2. split; [exact Ho'|]. cbn.
      apply virtual_write_same in Hw as (Hb & _). rewrite Hb.
      destruct (set_width_same o) as (_ & _ & Hpt). exact Hpt.
Qed.

(** X15.  Every trace of a file has the print type of the file.  This
    holds for a new file and is kept by every member of the model: a
    [trace] overload hands the print type of the file to the constructor,
    [set_bsm_print_type] changes the file and all its traces together
    (and the answer of [changed] of none of them), and
    [set_bsm_trace_type], [do_initialize] and [cycle] change no print
    type. *)
Theorem print_types_stay_in_agreement :
  (forall type, print_types_agree (ctor type))
  /\ (forall type tf,
        print_types_agree (set_bsm_print_type type tf)
        /\ bsm_print_type (set_bsm_print_type type tf) = type
        /\ length (traces (set_bsm_print_type type tf)) = length (traces tf)
        /\ (forall i o, traces tf !! i = Some o ->
              exists o', traces (set_bsm_print_type type tf) !! i = Some o'
                         /\ fst (fst (virtual.changed o')) = fst (fst (virtual.changed o))))
  /\ (forall index nTrigger nTrace tf tf',
        print_types_agree tf ->
        set_bsm_trace_type index nTrigger nTrace tf = Some tf' -> print_types_agree tf')
  /\ (forall add_trace_check make tf,
        (forall bsm_name_ print_type_,
           bsm_trace.bsm_trace_print_type (virtual.base (make bsm_name_ print_type_))
           = print_type_) ->
        print_types_agree tf -> print_types_agree (trace add_trace_check make tf))
  /\ (forall env ini tf con tf' con' cs,
        print_types_agree tf -> do_initialize env ini tf con = Some (tf', con', cs) ->
        print_types_agree tf')
  /\ (forall env (d : bool) tf g tf' g' o,
        initialize env tf = (false, tf) ->
        print_types_agree tf -> cycle env d tf g = Some (tf', g', o) ->
        print_types_agree tf').
Proof.
  split; [|split; [|split; [|split; [|split]]]].
  - intros type. constructor.
  - intros type tf. split; [|split; [|split]].
    + unfold print_types_agree. cbn. apply Forall_forall. intros o Ho.
      apply list_elem_of_fmap in Ho as (o0 & -> & _). rewrite base_map_base. reflexivity.
    + reflexivity.
    + cbn. apply length_map.
    + intros i o Ho. eexists. split.
      * cbn. change (map ?f ?l) with (f <$> l). rewrite list_lookup_fmap, Ho. reflexivity.
      * apply changed_map_base. reflexivity.
  - intros index nTrigger nTrace tf tf' Hagree Hset.
    unfold set_bsm_trace_type in Hset.
    destruct (_ && _); [|discriminate].
    apply bind_Some in Hset as (o & Ho & [= <-]).
    unfold print_types_agree. cbn. apply Forall_insert; [exact Hagree|].
    rewrite !base_map_base. cbn.
    unfold print_types_agree in Hagree. rewrite Forall_lookup in Hagree.
    exact (Hagree _ _ Ho).
  - intros check make tf Hmake Hagree. unfold trace.
    destruct check; [|exact Hagree].
    unfold obtain_name. cbn. unfold print_types_agree. cbn.
    apply Forall_app. split; [exact Hagree|]. constructor; [apply Hmake | constructor].
  - intros env ini tf con tf' con' cs Hagree Hd.
    exact (do_initialize_print_types env ini tf con tf' con' cs Hd Hagree).
  - intros env d tf g tf' g' o Hi Hagree Hc.
    destruct (cycle_configuration env d tf g tf' g' o Hi Hc) as (Hb & _ & Hp & _).
    exact (print_types_agree_bases tf tf' Hb Hp Hagree).
Qed.

(** ** [print_variable_declaration_line] *)

Lemma snprintf_prefix (size : nat) (p rest : string) :
  (String.length p < size)%nat ->
  snprintf size (p +:+ rest) = p +:+ snprintf (size - String.length p) rest.
Proof.
  intros Hlen. unfold snprintf.
  rewrite list_ascii_of_string_app.
  replace (size - 1)%nat with (length (list_ascii_of_string p) + (size - String.length p - 1))%nat
    by (rewrite list_ascii_of_string_length; lia).
  rewrite take_app_add, string_of_list_ascii_app, string_of_list_ascii_of_string.
  reflexivity.
Qed.

(** X19.  A trace of bit width 0 (or less) is not declared: an error
    message naming the object goes to [std::cout] and the stream is left
    as it was.  Every other trace is declared by one text that starts with
    [$var] and has at most 1999 characters (a longer declaration is cut
    and loses its [$end]); the console changes only by the warning about
    brackets in the name. *)
Theorem print_variable_declaration_line_cases (f : option FILE) (b : bsm_trace.t)
        (con : console) :
  (bsm_trace.bit_width b <= 0 ->
   exists msg,
     print_variable_declaration_line f b con
     = Some (f, {| cout := cout con +:+ "BSM Trace ERROR:" +:+ endl +:+ msg +:+ endl +:+ endl;
                   name_problems_warned := name_problems_warned con |})
     /\ ((String.length (bsm_trace.name b) <= 1900)%nat ->
         msg = "Traced object " +:+ String dquote (bsm_trace.name b)
               +:+ String dquote " has 0 Bits, cannot be traced."))
  /\ (0 < bsm_trace.bit_width b ->
      forall file, f = Some file ->
        exists rest,
          print_variable_declaration_line f b con
          = Some (Some (file +:+ "$var " +:+ rest),
                  snd (remove_bsm_name_problems (bsm_trace.name b) con))
          /\ (String.length ("$var " +:+ rest) <= 1999)%nat).
Proof.
  unfold print_variable_declaration_line. split.
  - intros Hw. apply Z.leb_le in Hw. rewrite Hw.
    eexists. split; [reflexivity|].
    intros Hlen. apply snprintf_short.
    rewrite string_app_length. cbn [String.length].
    rewrite string_app_length. cbn. lia.
  - intros Hw. replace (bsm_trace.bit_width b <=? 0) with false
      by (symmetry; apply Z.leb_gt; exact Hw).
    destruct (remove_bsm_name_problems (bsm_trace.name b) con) as [namecopy con1].
    intros file ->. cbn [mbind option_bind snd]. unfold fputs.
    destruct (bsm_trace.bit_width b =? 1).
    + rewrite (snprintf_prefix 2000 "$var ") by (cbn; lia).
      eexists. split; [reflexivity|].
      rewrite string_app_length.
      pose proof (snprintf_length (2000 - String.length "$var ")
                    (bsm_trace.bsm_var_typ_name b +:+ "  "
                     +:+ printf_space_3d (bsm_trace.bit_width b) +:+ "  "
                     +:+ bsm_trace.bsm_name b +:+ "  " +:+ namecopy
                     +:+ "       $end" +:+ endl)) as Hl.
      cbn [String.length] in *. lia.
    + rewrite (snprintf_prefix 2000 "$var ") by (cbn; lia).
      eexists. split; [reflexivity|].
      rewrite string_app_length.
      pose proof (snprintf_length (2000 - String.length "$var ")
                    (bsm_trace.bsm_var_typ_name b +:+ "  "
                     +:+ printf_space_3d (bsm_trace.bit_width b) +:+ "  "
                     +:+ bsm_trace.bsm_name b +:+ "  " +:+ namecopy
                     +:+ " [" +:+ printf_d (bsm_trace.bit_width b - 1)
                     +:+ ":0]  $end" +:+ endl)) as Hl.
      cbn [String.length] in *. lia.
Qed.

Lemma print_variable_declaration_line_cases_witness :
  exists rest,
    print_variable_declaration_line (Some EmptyString)
      (bsm_trace.set_bit_width 8
         (bsm_trace.ctor "top.bus[3]" "aaaac" bsm_type.BT_VCD bsm_trace.BSM_TRIGGER_VAL_BOTH))
      (mk_console EmptyString false)
    = Some (Some (EmptyString +:+ "$var " +:+ rest),
            mk_console name_problems_warning true)
    /\ (String.length ("$var " +:+ rest) <= 1999)%nat.
Proof.
  apply (proj2 (print_variable_declaration_line_cases (Some EmptyString)
                  (bsm_trace.set_bit_width 8
                     (bsm_trace.ctor "top.bus[3]" "aaaac" bsm_type.BT_VCD
                        bsm_trace.BSM_TRIGGER_VAL_BOTH))
                  (mk_console EmptyString false))).
  - reflexivity.
  - reflexivity.
Defined.

Example declaration_of_a_bool :
  print_variable_declaration_line (Some EmptyString) (value_trace.base valid_registered)
    (mk_console EmptyString false)
  = Some (Some ("$var wire    1  aaaab  valid       $end" +:+ endl),
          mk_console EmptyString false).
Proof. reflexivity. Qed.

Example declaration_of_a_vector :
  option_map fst
    (print_variable_declaration_line (Some EmptyString)
       (bsm_trace.set_bit_width 8
          (bsm_trace.ctor "top.bus[3]" "aaaac" bsm_type.BT_VCD bsm_trace.BSM_TRIGGER_VAL_BOTH))
       (mk_console EmptyString false))
  = Some (Some ("$var wire    8  aaaac  top.bus(3) [7:0]  $end" +:+ endl)).
Proof. reflexivity. Qed.

(** ** [bsm_sc_logic_trace] *)

(** X20.  The edges of an [sc_logic] trace are transitions between the
    two levels: with [BSM_TRIGGER_VAL_POS], [changed] returns true exactly
    for a change from 0 to 1, with [BSM_TRIGGER_VAL_NEG] exactly for a
    change from 1 to 0 (a change from or to X or Z is no edge), with
    [BSM_TRIGGER_VAL_BOTH] for every change and with
    [BSM_TRIGGER_VAL_NONE] never.  [changed] leaves the trace alone when
    it returns true, and records the value when it returns false, so that
    the next evaluation returns false.  [write] puts one of the characters
    0, 1, x and z on the stream, never the question mark, followed by the
    BSM name in the VCD print mode. *)
Theorem sc_logic_trace_edges (tr : bsm_sc_logic_trace.t) (file : FILE) :
  let trigger := bsm_trace.bsm_trigger_type (bsm_sc_logic_trace.base tr) in
  let object := bsm_sc_logic_trace.object tr in
  let old_value := bsm_sc_logic_trace.old_value tr in
  let r := fst (fst (bsm_sc_logic_trace.changed tr)) in
  let tr' := snd (fst (bsm_sc_logic_trace.changed tr)) in
  (trigger = bsm_trace.BSM_TRIGGER_VAL_POS ->
   (r = true <-> old_value = Log_0 /\ object = Log_1))
  /\ (trigger = bsm_trace.BSM_TRIGGER_VAL_NEG ->
      (r = true <-> old_value = Log_1 /\ object = Log_0))
  /\ (trigger = bsm_trace.BSM_TRIGGER_VAL_BOTH -> (r = true <-> object <> old_value))
  /\ (trigger = bsm_trace.BSM_TRIGGER_VAL_NONE -> r = false)
  /\ (r = true -> tr' = tr)
  /\ (r = false -> bsm_sc_logic_trace.old_value tr' = object
                   /\ fst (fst (bsm_sc_logic_trace.changed tr')) = false)
  /\ fst (fst (bsm_sc_logic_trace.write (Some file) tr))
     = Some (file +:+ String (sc_logic_vcd_char object) EmptyString
             +:+ (if bsm_trace.is_print_vcd (bsm_sc_logic_trace.base tr)
                  then bsm_trace.bsm_name (bsm_sc_logic_trace.base tr)
                  else EmptyString)).
Proof.
  cbn zeta. destruct tr as [b object old_value].
  cbn [bsm_sc_logic_trace.base bsm_sc_logic_trace.object bsm_sc_logic_trace.old_value].
  split; [|split; [|split; [|split; [|split; [|split]]]]].
  - intros Ht. unfold bsm_sc_logic_trace.changed. cbn. rewrite Ht.
    destruct object, old_value; cbn; intuition congruence.
  - intros Ht. unfold bsm_sc_logic_trace.changed. cbn. rewrite Ht.
    destruct object, old_value; cbn; intuition congruence.
  - intros Ht. unfold bsm_sc_logic_trace.changed. cbn. rewrite Ht.
    destruct object, old_value; cbn; intuition congruence.
  - intros Ht. unfold bsm_sc_logic_trace.changed. cbn. rewrite Ht.
    destruct object, old_value; reflexivity.
  - unfold bsm_sc_logic_trace.changed. cbn.
    destruct (negb (sc_logic_eqb object old_value)); [destruct (_ || _ || _)|];
      cbn; try discriminate; reflexivity.
  - destruct (bsm_sc_logic_trace.changed
                {| bsm_sc_logic_trace.base := b; bsm_sc_logic_trace.object := object;
                   bsm_sc_logic_trace.old_value := old_value |}) as [[r tr'] cs] eqn:Ec.
    cbn [fst snd]. intros ->.
    unfold bsm_sc_logic_trace.changed in Ec. cbn in Ec.
    destruct (negb (sc_logic_eqb object old_value)) eqn:E; [destruct (_ || _ || _)|];
      try discriminate; injection Ec as <- _.
    + split; [reflexivity|]. unfold bsm_sc_logic_trace.changed. cbn.
      destruct object; reflexivity.
    + split.
      * cbn. destruct object, old_value; try discriminate; reflexivity.
      * unfold bsm_sc_logic_trace.changed. cbn. rewrite E. reflexivity.
  - unfold bsm_sc_logic_trace.write, fputc, fputs. cbn.
    destruct object; cbn; destruct (bsm_trace.is_print_vcd b);
      rewrite ?string_app_nil_r, ?string_app_assoc; reflexivity.
Qed.

Lemma sc_logic_trace_edges_witness :
  fst (fst (bsm_sc_logic_trace.changed logic_x_to_1)) = false
  /\ fst (fst (bsm_sc_logic_trace.changed
                 (snd (fst (bsm_sc_logic_trace.changed logic_x_to_1))))) = false.
Proof.
  destruct (sc_logic_trace_edges logic_x_to_1 EmptyString)
    as (Hpos & _ & _ & _ & _ & Hfalse & _).
  assert (Hr : fst (fst (bsm_sc_logic_trace.changed logic_x_to_1)) = false).
  { apply not_true_is_false. intros Hr.
    apply (Hpos eq_refl) in Hr as [Hold _]. discriminate Hold. }
  split; [exact Hr|]. exact (proj2 (Hfalse Hr)).
Defined.

(** ** [bsm_trace_object] *)

Lemma compare_0_eq (a b : string) : compare_0 a b = true <-> a = b.
Proof. unfold compare_0. apply String.eqb_eq. Qed.

Lemma compare_0_neq (a b : string) : a <> b -> compare_0 a b = false.
Proof. unfold compare_0. apply String.eqb_neq. Qed.

Lemma real_bsm_types_test (ty : string) :
  compare_0 ty "sc_int" || compare_0 ty "sc_uint"
  || compare_0 ty "sc_bigint" || compare_0 ty "sc_biguint"
  || compare_0 ty "sc_fixed" || compare_0 ty "sc_fixed_fast"
  || compare_0 ty "sc_ufixed" = bool_decide (ty ∈ real_bsm_types).
Proof.
  apply Bool.eq_iff_eq_true. rewrite bool_decide_eq_true. unfold real_bsm_types.
  rewrite !orb_true_iff, !compare_0_eq, !elem_of_cons, elem_of_nil. tauto.
Qed.

Lemma vector_bsm_types_test (ty : string) :
  compare_0 ty "sc_bv" || compare_0 ty "sc_lv" = bool_decide (ty ∈ vector_bsm_types).
Proof.
  apply Bool.eq_iff_eq_true. rewrite bool_decide_eq_true. unfold vector_bsm_types.
  rewrite !orb_true_iff, !compare_0_eq, !elem_of_cons, elem_of_nil. tauto.
Qed.

Lemma real_not_vector (ty : string) : ty ∈ real_bsm_types -> ty ∉ vector_bsm_types.
Proof.
  unfold real_bsm_types, vector_bsm_types. rewrite !elem_of_cons, !elem_of_nil.
  intros H1 H2. destruct H2 as [->| [->|[]]]; intuition discriminate.
Qed.

Lemma trace_by_bsm_type_eq api (ty value : string) scObj (tf : t) :
  trace_by_bsm_type api ty value scObj tf
  = if bool_decide (ty ∈ real_bsm_types ++ vector_bsm_types)
    then (true, trace_interface api value (obj_name scObj)
                  (if bool_decide (ty ∈ vector_bsm_types) then "b" else "r")%char tf)
    else (false, tf).
Proof.
  unfold trace_by_bsm_type. rewrite real_bsm_types_test, vector_bsm_types_test.
  destruct (bool_decide (ty ∈ real_bsm_types)) eqn:Er.
  - apply bool_decide_eq_true in Er.
    rewrite (bool_decide_eq_true_2 (ty ∈ real_bsm_types ++ vector_bsm_types))
      by (apply elem_of_app; left; exact Er).
    rewrite (bool_decide_eq_false_2 _ (real_not_vector ty Er)). reflexivity.
  - apply bool_decide_eq_false in Er.
    destruct (bool_decide (ty ∈ vector_bsm_types)) eqn:Ev.
    + apply bool_decide_eq_true in Ev.
      rewrite bool_decide_eq_true_2 by (apply elem_of_app; right; exact Ev). reflexivity.
    + apply bool_decide_eq_false in Ev.
      rewrite bool_decide_eq_false_2; [reflexivity|].
      intros [H|H]%elem_of_app; contradiction.
Qed.

Lemma trace_generic_unchanged api castable scObj (tf : t) :
  fst (trace_generic api castable scObj tf) = false ->
  snd (trace_generic api castable scObj tf) = tf.
Proof. unfold trace_generic. destruct (List.find _ _); [discriminate | reflexivity]. Qed.

Lemma trace_by_bsm_type_unchanged api ty value scObj (tf : t) :
  fst (trace_by_bsm_type api ty value scObj tf) = false ->
  snd (trace_by_bsm_type api ty value scObj tf) = tf.
Proof.
  rewrite trace_by_bsm_type_eq. destruct (bool_decide _); [discriminate | reflexivity].
Qed.

Lemma trace_cast_unchanged api cast castable scObj (tf : t) :
  fst (trace_cast api cast castable scObj tf) = false ->
  snd (trace_cast api cast castable scObj tf) = tf.
Proof.
  unfold trace_cast. destruct cast as [[ty v]|]; [|reflexivity].
  destruct (compare_0 ty "Generic");
    [apply trace_generic_unchanged | apply trace_by_bsm_type_unchanged].
Qed.

Lemma bsm_trace_object_eq api (tf : t) scObj :
  bsm_trace_object api tf scObj
  = if bool_decide (obj_kind scObj ∈ signal_kinds)
    then trace_cast api (as_sc_interface scObj) (is_sc_signal scObj) scObj tf
    else if bool_decide (obj_kind scObj ∈ port_kinds)
    then trace_cast api (as_sc_port_base scObj)
           (if compare_0 (obj_kind scObj) "sc_in" then is_sc_in scObj else is_sc_inout scObj)
           scObj tf
    else (false, tf).
Proof.
  unfold bsm_trace_object, bsm_trace_signal, bsm_trace_in, bsm_trace_out, trace_cast.
  cbn zeta.
  assert (Hs : compare_0 (obj_kind scObj) "sc_signal" || compare_0 (obj_kind scObj) "sc_clock"
               = bool_decide (obj_kind scObj ∈ signal_kinds)).
  { apply Bool.eq_iff_eq_true. rewrite bool_decide_eq_true. unfold signal_kinds.
    rewrite !orb_true_iff, !compare_0_eq, !elem_of_cons, elem_of_nil. tauto. }
  assert (Hp : compare_0 (obj_kind scObj) "sc_in"
               || (compare_0 (obj_kind scObj) "sc_out" || compare_0 (obj_kind scObj) "sc_inout")
               = bool_decide (obj_kind scObj ∈ port_kinds)).
  { apply Bool.eq_iff_eq_true. rewrite bool_decide_eq_true. unfold port_kinds.
    rewrite !orb_true_iff, !compare_0_eq, !elem_of_cons, elem_of_nil. tauto. }
  rewrite Hs, <- Hp.
  destruct (bool_decide (obj_kind scObj ∈ signal_kinds)); [reflexivity|].
  destruct (compare_0 (obj_kind scObj) "sc_in"); [reflexivity|]. cbn [orb].
  destruct (_ || _); reflexivity.
Qed.

Lemma bsm_trace_object_by_type api (tf : t) scObj (ty value : string) :
  bsm_interface_of scObj = Some (ty, value) -> ty <> "Generic"%string ->
  bsm_trace_object api tf scObj = trace_by_bsm_type api ty value scObj tf.
Proof.
  rewrite bsm_trace_object_eq. unfold bsm_interface_of, trace_cast. intros Hi Hg.
  destruct (bool_decide (obj_kind scObj ∈ signal_kinds)).
  - rewrite Hi, (compare_0_neq _ _ Hg). reflexivity.
  - destruct (bool_decide (obj_kind scObj ∈ port_kinds)); [|discriminate].
    rewrite Hi, (compare_0_neq _ _ Hg). reflexivity.
Qed.

(** X21.  [bsm_trace_object] returns false, and leaves the file as it
    was, for an object whose kind is none of [sc_signal], [sc_clock],
    [sc_in], [sc_out] and [sc_inout], for an object that cannot be cast to
    the interface of its kind, and for a BSM type other than "Generic"
    that is none of the nine known ones; whenever it returns false the
    file is as it was.  For the nine known types it returns true, also
    when [add_trace_check] turns the trace down and nothing is
    registered; otherwise one trace is appended, under the name of the
    object and the next BSM name, whose VCD line is the value as a real
    number, or as a bit vector without its leading zeros. *)
Theorem bsm_trace_object_dispatch api (tf : t) (scObj : sc_object) :
  let r := bsm_trace_object api tf scObj in
  (fst r = false -> snd r = tf)
  /\ (obj_kind scObj ∉ signal_kinds ++ port_kinds -> r = (false, tf))
  /\ (bsm_interface_of scObj = None -> r = (false, tf))
  /\ (forall ty value,
        bsm_interface_of scObj = Some (ty, value) -> ty <> "Generic"%string ->
        (ty ∉ real_bsm_types ++ vector_bsm_types -> r = (false, tf))
        /\ (ty ∈ real_bsm_types ++ vector_bsm_types ->
            fst r = true
            /\ (add_trace_check api (obj_name scObj) tf = false -> snd r = tf)
            /\ (add_trace_check api (obj_name scObj) tf = true ->
                exists o,
                  traces (snd r) = traces tf ++ [o]
                  /\ bsm_trace.name (virtual.base o) = obj_name scObj
                  /\ bsm_trace.bsm_name (virtual.base o) = fst (obtain_name tf)
                  /\ (bsm_print_type tf = bsm_type.BT_VCD ->
                      forall file,
                        option_map (fun w => fst (fst w)) (virtual.write (Some file) o)
                        = Some (Some
                            (file +:+ interface_vcd_line ty value (fst (obtain_name tf)))))))).
Proof.
  cbn zeta. split; [|split; [|split]].
  - rewrite bsm_trace_object_eq.
    destruct (bool_decide _); [apply trace_cast_unchanged|].
    destruct (bool_decide _); [apply trace_cast_unchanged | reflexivity].
  - intros Hk. rewrite bsm_trace_object_eq.
    rewrite !bool_decide_eq_false_2; [reflexivity | |];
      intros Hin; apply Hk, elem_of_app; auto.
  - rewrite bsm_trace_object_eq. unfold bsm_interface_of.
    destruct (bool_decide _); [intros ->; reflexivity|].
    destruct (bool_decide _); [intros ->; reflexivity | reflexivity].
  - intros ty value Hi Hg.
    rewrite (bsm_trace_object_by_type api tf scObj ty value Hi Hg).
    rewrite trace_by_bsm_type_eq.
    split.
    { intros Hn. rewrite bool_decide_eq_false_2 by exact Hn. reflexivity. }
    intros Hin. rewrite bool_decide_eq_true_2 by exact Hin.
    cbn [fst snd]. split; [reflexivity|].
    unfold trace_interface, trace. split.
    + intros ->. reflexivity.
    + intros ->. destruct (obtain_name tf) as [nm tf1] eqn:En. cbn [fst].
      eexists. split; [|split; [|split]].
      * cbn. replace tf1 with (snd (obtain_name tf)) by (rewrite En; reflexivity).
        reflexivity.
      * reflexivity.
      * reflexivity.
      * intros Hv file.
        replace tf1 with (snd (obtain_name tf)) by (rewrite En; reflexivity).
        cbn. unfold bsm_interface_trace.format, bsm_trace.is_print_vcd. cbn.
        rewrite Hv. cbn. unfold interface_vcd_line.
        destruct (bool_decide (ty ∈ vector_bsm_types)); cbn; unfold fputs;
          rewrite ?string_app_assoc; reflexivity.
Qed.

Lemma bsm_trace_object_dispatch_witness :
  fst (bsm_trace_object api_accepting (ctor bsm_type.BT_VCD) lv_signal) = true
  /\ exists o,
       traces (snd (bsm_trace_object api_accepting (ctor bsm_type.BT_VCD) lv_signal)) = [o]
       /\ bsm_trace.name (virtual.base o) = "top.bus"%string
       /\ option_map (fun w => fst (fst w)) (virtual.write (Some EmptyString) o)
          = Some (Some "b10 aaaaa"%string).
Proof.
  destruct (bsm_trace_object_dispatch api_accepting (ctor bsm_type.BT_VCD) lv_signal)
    as (_ & _ & _ & Hty).
  assert (Hng : "sc_lv"%string <> "Generic"%string) by discriminate.
  assert (Hin : "sc_lv"%string ∈ real_bsm_types ++ vector_bsm_types)
    by (apply elem_of_app; right; do 2 constructor).
  destruct (Hty "sc_lv"%string "0010"%string eq_refl Hng) as [_ Hknown].
  destruct (Hknown Hin) as (Hr & _ & Hadd).
  split; [exact Hr|].
  destruct (Hadd eq_refl) as (o & Htr & Hn & _ & Hvcd).
  exists o. split; [exact Htr|]. split; [exact Hn|].
  exact (Hvcd eq_refl EmptyString).
Defined.
